(** * mystquarto: the block scanners and their transform tables

    A shallow embedding of [scanner.py], [transforms/myst_to_quarto.py] and
    [transforms/quarto_to_myst.py], and the properties of the two
    conversions established on it.

    Data model.  A Python [str] is a [string]; its characters are the code
    points below 256, so the classes [\s] and [\w] and [str.lower] are the
    Unicode ones restricted to that range.  A one-character [str] used as a
    character (a fence character) is an [ascii].  A [dict] is an association
    list in insertion order.  Operations that raise in Python ([s[0]] and
    [list.pop()] on an empty value, the [None] of an unmatched group used
    as a [str]) return [Raise]. *)

From Stdlib Require Import String Ascii List Arith Bool Lia.
Import ListNotations.
Local Open Scope string_scope.
Local Open Scope list_scope.
Local Open Scope nat_scope.

Set Implicit Arguments.

(** ** Exceptions *)

(** [NoneError] stands for the [AttributeError] or [TypeError] of using
    [None] as a [str]. *)
Inductive exn : Type :=
| IndexError
| NoneError
| ReError.

(** The outcome of a computation: a value, a Python exception, or a loop
    of the model that was given too little fuel. *)
Inductive result (A : Type) : Type :=
| Ok (a : A)
| Raise (e : exn)
| OutOfFuel.

Arguments Ok {A} a.
Arguments Raise {A} e.
Arguments OutOfFuel {A}.

Definition bind {A B : Type} (m : result A) (f : A -> result B) : result B :=
  match m with
  | Ok a => f a
  | Raise e => Raise e
  | OutOfFuel => OutOfFuel
  end.

Notation "x <- m ;; k" := (bind m (fun x => k))
  (at level 61, m at next level, right associativity).

(** ** Characters and strings *)

Module Py.

Definition code (c : ascii) : nat := nat_of_ascii c.

Definition between (lo hi : nat) (c : ascii) : bool :=
  (lo <=? code c) && (code c <=? hi).

(** [str.isspace] and the class [\s]. *)
Definition is_space (c : ascii) : bool :=
  between 9 13 c || between 28 32 c || (code c =? 133) || (code c =? 160).

(** The class [\w]. *)
Definition is_word (c : ascii) : bool :=
  between 48 57 c || between 65 90 c || (code c =? 95) || between 97 122 c
  || (code c =? 170) || between 178 179 c || (code c =? 181)
  || between 185 186 c || between 188 190 c
  || between 192 214 c || between 216 246 c || between 248 255 c.

Definition is_char (a c : ascii) : bool := Ascii.eqb a c.

Definition newline : ascii := ascii_of_nat 10.
Definition dquote : ascii := ascii_of_nat 34.
Definition squote : ascii := ascii_of_nat 39.

Definition chr (c : ascii) : string := String c EmptyString.

Fixpoint mem (c : ascii) (chars : string) : bool :=
  match chars with
  | EmptyString => false
  | String a rest => Ascii.eqb c a || mem c rest
  end.

Fixpoint lstrip_by (p : ascii -> bool) (s : string) : string :=
  match s with
  | EmptyString => EmptyString
  | String a rest => if p a then lstrip_by p rest else s
  end.

Fixpoint rstrip_by (p : ascii -> bool) (s : string) : string :=
  match s with
  | EmptyString => EmptyString
  | String a rest =>
      match rstrip_by p rest with
      | EmptyString => if p a then EmptyString else chr a
      | r => String a r
      end
  end.

Definition lstrip (s : string) : string := lstrip_by is_space s.
Definition rstrip (s : string) : string := rstrip_by is_space s.
Definition strip (s : string) : string := lstrip (rstrip s).

(** [s.strip(chars)], [s.lstrip(chars)]. *)
Definition strip_chars (chars s : string) : string :=
  lstrip_by (fun c => mem c chars) (rstrip_by (fun c => mem c chars) s).
Definition lstrip_chars (chars s : string) : string :=
  lstrip_by (fun c => mem c chars) s.

Definition len (s : string) : nat := String.length s.

(** [s.split(sep)] for a one-character separator; never the empty list. *)
Fixpoint split (sep : ascii) (s : string) : list string :=
  match s with
  | EmptyString => [EmptyString]
  | String a rest =>
      if Ascii.eqb a sep then EmptyString :: split sep rest
      else match split sep rest with
           | h :: t => String a h :: t
           | [] => [chr a]
           end
  end.

Fixpoint join (sep : string) (l : list string) : string :=
  match l with
  | [] => EmptyString
  | [x] => x
  | x :: rest => (x ++ sep ++ join sep rest)%string
  end.

Definition startswith (s p : string) : bool := String.prefix p s.

(** [c * n]. *)
Fixpoint repeat_char (c : ascii) (n : nat) : string :=
  match n with
  | 0 => EmptyString
  | S m => String c (repeat_char c m)
  end.

(** [all(c == ch for c in s)]. *)
Fixpoint all_char (ch : ascii) (s : string) : bool :=
  match s with
  | EmptyString => true
  | String a rest => Ascii.eqb a ch && all_char ch rest
  end.

Definition lower_char (c : ascii) : ascii :=
  if between 65 90 c || between 192 214 c || between 216 222 c
  then ascii_of_nat (code c + 32) else c.

Fixpoint lower (s : string) : string :=
  match s with
  | EmptyString => EmptyString
  | String a rest => String (lower_char a) (lower rest)
  end.

(** [s[:n]] and [s[n:]] for [n >= 0]. *)
Fixpoint take (n : nat) (s : string) : string :=
  match n, s with
  | S m, String a rest => String a (take m rest)
  | _, _ => EmptyString
  end.

Fixpoint drop (n : nat) (s : string) : string :=
  match n, s with
  | S m, String _ rest => drop m rest
  | _, _ => s
  end.

(** [s[0]]. *)
Definition first_char (s : string) : result ascii :=
  match s with
  | EmptyString => Raise IndexError
  | String a _ => Ok a
  end.

(** [l[-1]]. *)
Definition last_item {A : Type} (l : list A) : result A :=
  match rev l with
  | [] => Raise IndexError
  | x :: _ => Ok x
  end.

(** [l.pop()], with the popped item and the shortened list. *)
Definition pop {A : Type} (l : list A) : result (A * list A) :=
  match rev l with
  | [] => Raise IndexError
  | x :: r => Ok (x, rev r)
  end.

Definition is_empty (s : string) : bool :=
  match s with
  | EmptyString => true
  | _ => false
  end.

(** A [dict] with [str] keys, in insertion order. *)
Definition dict : Type := list (string * string).

Fixpoint get (d : dict) (k : string) : option string :=
  match d with
  | [] => None
  | (k', v) :: rest => if String.eqb k k' then Some v else get rest k
  end.

(** [d.get(k, default)]. *)
Definition get_default (d : dict) (k default : string) : string :=
  match get d k with
  | Some v => v
  | None => default
  end.

(** [d[k] = v]: an existing key keeps its place. *)
Fixpoint set (d : dict) (k v : string) : dict :=
  match d with
  | [] => [(k, v)]
  | (k', v') :: rest =>
      if String.eqb k k' then (k', v) :: rest else (k', v') :: set rest k v
  end.

Definition contains (d : dict) (k : string) : bool :=
  match get d k with
  | Some _ => true
  | None => false
  end.

End Py.

(** ** Regular expressions

    The fragment of Python's [re] that the program's patterns use, matched
    by backtracking in the order [re] tries the alternatives: the left
    branch of [|] first, a greedy repetition longest first, a lazy one
    shortest first.  A position is the character before it ([None] at the
    start of the subject) and the text after it.  Every repeated
    sub-pattern of the program consumes at least one character
    ([program_patterns_consume]), so an iteration that consumes nothing is
    not continued, and the number of iterations is bounded by the length
    of the remaining text ([repetition_fuel_is_enough]). *)

Module Re.

Inductive regex : Type :=
| Eps
| Cls (p : ascii -> bool)
| Cat (r1 r2 : regex)
| Alt (r1 r2 : regex)
| Rep (greedy : bool) (min : nat) (r : regex)
| Grp (n : nat) (r : regex)
| Bos
| Eos
| NotBehind (p : ascii -> bool)
| NotAhead (r : regex).

Definition caps : Type := list (nat * string).

Fixpoint lookup (n : nat) (c : caps) : option string :=
  match c with
  | [] => None
  | (m, v) :: rest => if n =? m then Some v else lookup n rest
  end.

Definition cont : Type :=
  option ascii -> string -> caps -> option (string * caps).

Definition accept : cont := fun _ s c => Some (s, c).

(** The loop of a repetition [r{min,}]: [iter] matches [r] once; [cnt]
    iterations are done, [fuel] bounds the ones still possible. *)
Fixpoint rep_loop
  (iter : option ascii -> string -> caps -> cont -> option (string * caps))
  (greedy : bool) (min : nat) (k : cont) (fuel cnt : nat)
  (prev : option ascii) (s : string) (c : caps) {struct fuel}
  : option (string * caps) :=
  let again (fuel' : nat) : option (string * caps) :=
    iter prev s c (fun prev' s' c' =>
      if String.length s' <? String.length s
      then rep_loop iter greedy min k fuel' (S cnt) prev' s' c' else None) in
  if greedy then
    match match fuel with
          | 0 => None
          | S fuel' => again fuel'
          end with
    | Some x => Some x
    | None => if min <=? cnt then k prev s c else None
    end
  else
    match (if min <=? cnt then k prev s c else None) with
    | Some x => Some x
    | None =>
        match fuel with
        | 0 => None
        | S fuel' => again fuel'
        end
    end.

Fixpoint rx (r : regex) (prev : option ascii) (s : string) (c : caps)
  (k : cont) {struct r} : option (string * caps) :=
  match r with
  | Eps => k prev s c
  | Cls p =>
      match s with
      | String a rest => if p a then k (Some a) rest c else None
      | EmptyString => None
      end
  | Cat r1 r2 => rx r1 prev s c (fun prev' s' c' => rx r2 prev' s' c' k)
  | Alt r1 r2 =>
      match rx r1 prev s c k with
      | Some x => Some x
      | None => rx r2 prev s c k
      end
  | Rep greedy min r1 =>
      rep_loop (fun prev' s' c' k' => rx r1 prev' s' c' k') greedy min k
               (String.length s) 0 prev s c
  | Grp n r1 =>
      rx r1 prev s c (fun prev' s' c' =>
        k prev' s' ((n, Py.take (String.length s - String.length s') s) :: c'))
  | Bos =>
      match prev with
      | None => k prev s c
      | Some _ => None
      end
  | Eos =>
      match s with
      | EmptyString => k prev s c
      | String a EmptyString =>
          if Ascii.eqb a Py.newline then k prev s c else None
      | _ => None
      end
  | NotBehind p =>
      match prev with
      | Some a => if p a then None else k prev s c
      | None => k prev s c
      end
  | NotAhead r1 =>
      match rx r1 prev s c accept with
      | Some _ => None
      | None => k prev s c
      end
  end.

(** A match object: [whole] is [m.group(0)], [rest] the text after the
    match, [groups] the groups that took part. *)
Record rmatch : Type := mkMatch {
  whole : string;
  rest : string;
  groups : caps
}.

(** [m.group(n)]: [None] for a group that took no part in the match. *)
Definition group (m : rmatch) (n : nat) : option string :=
  match n with
  | 0 => Some (whole m)
  | _ => lookup n (groups m)
  end.

(** [m.group(n)] where the source goes on to use it as a [str]. *)
Definition group_str (m : rmatch) (n : nat) : result string :=
  match group m n with
  | Some v => Ok v
  | None => Raise NoneError
  end.

(** The match of [r] that starts at the position [(prev, s)]. *)
Definition match_at (r : regex) (prev : option ascii) (s : string)
  : option rmatch :=
  match rx r prev s [] accept with
  | Some (s', c) =>
      Some (mkMatch (Py.take (String.length s - String.length s') s) s' c)
  | None => None
  end.

(** [r.match(s)]. *)
Definition re_match (r : regex) (s : string) : option rmatch :=
  match_at r None s.

(** [r.search(s)]: the leftmost match. *)
Fixpoint search_from (r : regex) (prev : option ascii) (s : string)
  : option rmatch :=
  match match_at r prev s with
  | Some m => Some m
  | None =>
      match s with
      | EmptyString => None
      | String a s' => search_from r (Some a) s'
      end
  end.

Definition re_search (r : regex) (s : string) : option rmatch :=
  search_from r None s.

Definition last_char (prev : option ascii) (w : string) : option ascii :=
  match rev (list_ascii_of_string w) with
  | a :: _ => Some a
  | [] => prev
  end.

(** [r.sub(repl, s)] for a function [repl], over the matches from left to
    right; [fuel] bounds the positions still to visit. *)
Fixpoint sub_from (r : regex) (repl : rmatch -> result string)
  (fuel : nat) (prev : option ascii) (s : string) : result string :=
  match match_at r prev s with
  | Some m =>
      out <- repl m ;;
      match whole m with
      | EmptyString =>
          match s with
          | EmptyString => Ok out
          | String a s' =>
              match fuel with
              | 0 => OutOfFuel
              | S fuel' =>
                  tail <- sub_from r repl fuel' (Some a) s' ;;
                  Ok (out ++ String a tail)%string
              end
          end
      | _ =>
          match fuel with
          | 0 => OutOfFuel
          | S fuel' =>
              tail <- sub_from r repl fuel' (last_char prev (whole m)) (rest m) ;;
              Ok (out ++ tail)%string
          end
      end
  | None =>
      match s with
      | EmptyString => Ok EmptyString
      | String a s' =>
          match fuel with
          | 0 => OutOfFuel
          | S fuel' =>
              tail <- sub_from r repl fuel' (Some a) s' ;;
              Ok (String a tail)
          end
      end
  end.

Definition re_sub (r : regex) (repl : rmatch -> result string) (s : string)
  : result string :=
  sub_from r repl (String.length s) None s.

(** *** Pattern syntax *)

Definition chr (a : ascii) : regex := Cls (Ascii.eqb a).

Fixpoint lit (s : string) : regex :=
  match s with
  | EmptyString => Eps
  | String a EmptyString => chr a
  | String a rest => Cat (chr a) (lit rest)
  end.

Fixpoint seq (l : list regex) : regex :=
  match l with
  | [] => Eps
  | [r] => r
  | r :: rest => Cat r (seq rest)
  end.

Definition star (r : regex) : regex := Rep true 0 r.
Definition plus (r : regex) : regex := Rep true 1 r.
Definition lazy_plus (r : regex) : regex := Rep false 1 r.
Definition at_least (n : nat) (r : regex) : regex := Rep true n r.
Definition opt (r : regex) : regex := Alt r Eps.

(** [\s], [\w], [[\w-]], [.] and [[^c]]. *)
Definition ws : regex := Cls Py.is_space.
Definition word : regex := Cls Py.is_word.
Definition word_dash : regex :=
  Cls (fun a => Py.is_word a || Ascii.eqb a "-"%char).
Definition dot : regex := Cls (fun a => negb (Ascii.eqb a Py.newline)).
Definition not_char (x : ascii) : regex := Cls (fun a => negb (Ascii.eqb a x)).
Definition not_in (chars : string) : regex :=
  Cls (fun a => negb (Py.mem a chars)).

(** *** What every match of a pattern guarantees

    [min_len r] is a number of characters every match of [r] consumes;
    [must r] lists groups that take part in every match of [r], each with
    a length its text reaches. *)

Fixpoint min_len (r : regex) : nat :=
  match r with
  | Cls _ => 1
  | Cat r1 r2 => min_len r1 + min_len r2
  | Alt r1 r2 => Nat.min (min_len r1) (min_len r2)
  | Rep _ n r1 => n * min_len r1
  | Grp _ r1 => min_len r1
  | _ => 0
  end.

Fixpoint groups_in (r : regex) : list nat :=
  match r with
  | Cat r1 r2 => groups_in r1 ++ groups_in r2
  | Alt r1 r2 => groups_in r1 ++ groups_in r2
  | Rep _ _ r1 => groups_in r1
  | Grp n r1 => n :: groups_in r1
  | _ => []
  end.

Definition mentions (gs : list nat) (n : nat) : bool := existsb (Nat.eqb n) gs.

Fixpoint must (r : regex) : list (nat * nat) :=
  match r with
  | Cat r1 r2 =>
      filter (fun g => negb (mentions (groups_in r2) (fst g))) (must r1)
      ++ must r2
  | Grp n r1 =>
      (n, min_len r1) :: filter (fun g => negb (fst g =? n)) (must r1)
  | _ => []
  end.

(** *** The texts a pattern matches

    [lang r w]: [w] is a text that [r] can consume, the assertions of [r]
    about what surrounds [w] left aside. *)

Fixpoint flat (ws : list string) : string :=
  match ws with
  | [] => EmptyString
  | w :: rest => (w ++ flat rest)%string
  end.

Fixpoint lang (r : regex) (w : string) : Prop :=
  match r with
  | Eps => w = EmptyString
  | Cls p => exists a, w = String a EmptyString /\ p a = true
  | Cat r1 r2 =>
      exists w1 w2, w = (w1 ++ w2)%string /\ lang r1 w1 /\ lang r2 w2
  | Alt r1 r2 => lang r1 w \/ lang r2 w
  | Rep _ _ r1 => exists ws, w = flat ws /\ Forall (lang r1) ws
  | Grp _ r1 => lang r1 w
  | _ => w = EmptyString
  end.

(** The groups that take part in every match of [r], each with its
    sub-pattern. *)
Fixpoint must_re (r : regex) : list (nat * regex) :=
  match r with
  | Cat r1 r2 =>
      filter (fun g => negb (mentions (groups_in r2) (fst g))) (must_re r1)
      ++ must_re r2
  | Grp n r1 =>
      (n, r1) :: filter (fun g => negb (fst g =? n)) (must_re r1)
  | _ => []
  end.

(** The groups [l] are set in [c], each to a text of its sub-pattern. *)
Definition holds_re (l : list (nat * regex)) (c : caps) : Prop :=
  forall n rn, In (n, rn) l -> exists v, lookup n c = Some v /\ lang rn v.

(** Every repeated sub-pattern of [r] consumes a character at least. *)
Fixpoint reps_consume (r : regex) : bool :=
  match r with
  | Cat r1 r2 => reps_consume r1 && reps_consume r2
  | Alt r1 r2 => reps_consume r1 && reps_consume r2
  | Rep _ _ r1 => (1 <=? min_len r1) && reps_consume r1
  | Grp _ r1 => reps_consume r1
  | NotAhead r1 => reps_consume r1
  | _ => true
  end.

(** The groups [l] are set in [c], with texts of the listed lengths. *)
Definition holds (l : list (nat * nat)) (c : caps) : Prop :=
  forall n w, In (n, w) l ->
    exists v, lookup n c = Some v /\ w <= String.length v.

End Re.

(** ** scanner.py *)

Module Scanner.
Import Re.

(** The pattern  ^ ( \s* ) ( C{3,} ) \{ ( \w [\w-]* ) \} \s* ( .* ) $  for the
    fence character [C] (patterns are spelled with their tokens apart). *)
Definition fence_open_re (c : ascii) : regex :=
  seq [Bos; Grp 1 (star ws); Grp 2 (at_least 3 (chr c)); chr "{";
       Grp 3 (Cat word (star word_dash)); chr "}"; star ws;
       Grp 4 (star dot); Eos].

Definition BACKTICK_OPEN_RE : regex := fence_open_re "`".
Definition COLON_OPEN_RE : regex := fence_open_re ":".

(** ^ : ( \w [\w-]* ) : \s* ( .* ) $ *)
Definition OPTION_RE : regex :=
  seq [Bos; chr ":"; Grp 1 (Cat word (star word_dash)); chr ":"; star ws;
       Grp 2 (star dot); Eos].

(** ^ ( \s* ) ( `{3,} | ~{3,} ) ( \w* ) \s* $  and the same with ( \w+ ). *)
Definition REGULAR_FENCE_RE : regex :=
  seq [Bos; Grp 1 (star ws);
       Grp 2 (Alt (at_least 3 (chr "`")) (at_least 3 (chr "~")));
       Grp 3 (star word); star ws; Eos].
Definition REGULAR_FENCE_LANG_RE : regex :=
  seq [Bos; Grp 1 (star ws);
       Grp 2 (Alt (at_least 3 (chr "`")) (at_least 3 (chr "~")));
       Grp 3 (plus word); star ws; Eos].

(** ^ ( \s* ) ( c{3,} ) \s* $  for the escaped fence character [c]. *)
Definition regular_close_re (c : ascii) : regex :=
  seq [Bos; Grp 1 (star ws); Grp 2 (at_least 3 (chr c)); star ws; Eos].

Record DirectiveFrame : Type := mkFrame {
  name : string;
  fence_char : ascii;
  fence_count : nat;
  argument : string;
  options : Py.dict;
  body_lines : list string;
  indent : nat
}.

Definition with_options (f : DirectiveFrame) (o : Py.dict) : DirectiveFrame :=
  mkFrame (name f) (fence_char f) (fence_count f) (argument f) o
          (body_lines f) (indent f).

Definition with_body_lines (f : DirectiveFrame) (b : list string)
  : DirectiveFrame :=
  mkFrame (name f) (fence_char f) (fence_count f) (argument f) (options f)
          b (indent f).

(** The locals of [Scanner.scan] together with [self.stack].  The stack is
    kept with its top ([self.stack[-1]]) at the head. *)
Record state : Type := mkState {
  stack : list DirectiveFrame;
  output_lines : list string;
  in_options : bool;
  in_regular_code_fence : bool;
  regular_fence_char : option ascii;   (* [None] is the initial [""] *)
  regular_fence_count : nat;
  regular_fence_indent : nat
}.

Definition init : state := mkState [] [] false false None 0 0.

Definition with_stack (st : state) (s : list DirectiveFrame) : state :=
  mkState s (output_lines st) (in_options st) (in_regular_code_fence st)
          (regular_fence_char st) (regular_fence_count st)
          (regular_fence_indent st).

Definition with_output (st : state) (o : list string) : state :=
  mkState (stack st) o (in_options st) (in_regular_code_fence st)
          (regular_fence_char st) (regular_fence_count st)
          (regular_fence_indent st).

Definition with_in_options (st : state) (b : bool) : state :=
  mkState (stack st) (output_lines st) b (in_regular_code_fence st)
          (regular_fence_char st) (regular_fence_count st)
          (regular_fence_indent st).

Definition with_in_fence (st : state) (b : bool) : state :=
  mkState (stack st) (output_lines st) (in_options st) b
          (regular_fence_char st) (regular_fence_count st)
          (regular_fence_indent st).

Definition enter_fence (st : state) (c : ascii) (count ind : nat) : state :=
  mkState (stack st) (output_lines st) (in_options st) true
          (Some c) count ind.

Definition _is_close_fence (stripped : string) (ind : nat)
  (frame : DirectiveFrame) : bool :=
  match stripped with
  | EmptyString => false
  | String c0 _ =>
      if negb (Ascii.eqb c0 (fence_char frame)) then false
      else if negb (Py.all_char (fence_char frame) stripped) then false
      else if Py.len stripped <? fence_count frame then false
      else if indent frame <? ind then false
      else true
  end.

(** The [for ch in line] loop of [_strip_indent]: the final [removed]. *)
Fixpoint strip_count (ind removed : nat) (line : string) : nat :=
  match line with
  | EmptyString => removed
  | String ch rest =>
      if ind <=? removed then removed
      else if Ascii.eqb ch " "%char then strip_count ind (S removed) rest
      else if Ascii.eqb ch (ascii_of_nat 9) then strip_count ind (S removed) rest
      else removed
  end.

Definition _strip_indent (line : string) (ind : nat) : string :=
  if ind =? 0 then line else Py.drop (strip_count ind 0 line) line.

(** [backtick_m or colon_m] *)
Definition open_match (line : string) : option rmatch :=
  match re_match BACKTICK_OPEN_RE line with
  | Some m => Some m
  | None => re_match COLON_OPEN_RE line
  end.

(** The frame pushed for an opening fence. *)
Definition open_frame (m : rmatch) : result DirectiveFrame :=
  leading_ws <- group_str m 1 ;;
  fence_str <- group_str m 2 ;;
  directive_name <- group_str m 3 ;;
  arg <- group_str m 4 ;;
  c <- Py.first_char fence_str ;;
  Ok (mkFrame directive_name c (Py.len fence_str) (Py.strip arg) [] []
              (Py.len leading_ws)).

Section Scan.

Variable transform_fn : DirectiveFrame -> list string.
Variable inline_fn : option (string -> result string).

(** Closing fence matched: pop, transform, hand the lines to the parent
    or to the output. *)
Definition close_top (st : state) (frame : DirectiveFrame)
  (below : list DirectiveFrame) : state :=
  let transformed := transform_fn frame in
  match below with
  | parent :: others =>
      with_in_options
        (with_stack st
           (with_body_lines parent (body_lines parent ++ transformed) :: others))
        false
  | [] =>
      with_in_options
        (with_output (with_stack st []) (output_lines st ++ transformed))
        false
  end.

Definition add_body (st : state) (current : DirectiveFrame)
  (below : list DirectiveFrame) (line : string) : state :=
  let content := _strip_indent line (indent current) in
  with_stack st
    (with_body_lines current (body_lines current ++ [content]) :: below).

(** A line seen with a non-empty stack that is no closing fence. *)
Definition inside_directive (st : state) (current : DirectiveFrame)
  (below : list DirectiveFrame) (line : string) : result state :=
  if in_options st then
    let content := _strip_indent line (indent current) in
    match re_match OPTION_RE (Py.strip content) with
    | Some m =>
        key <- group_str m 1 ;;
        value <- group_str m 2 ;;
        Ok (with_stack st
              (with_options current
                 (Py.set (options current) key (Py.strip value)) :: below))
    | None =>
        let st1 := with_in_options st false in
        if Py.is_empty (Py.strip content) then Ok st1
        else Ok (add_body st1 current below line)
    end
  else Ok (add_body st current below line).

Definition open_regular (st : state) (m : rmatch) (line : string)
  : result state :=
  g1 <- group_str m 1 ;;
  g2 <- group_str m 2 ;;
  c <- Py.first_char g2 ;;
  Ok (with_output (enter_fence st c (Py.len g2) (Py.len g1))
        (output_lines st ++ [line])).

Definition regular_line (st : state) (line : string) : result state :=
  match inline_fn with
  | Some f => l <- f line ;; Ok (with_output st (output_lines st ++ [l]))
  | None => Ok (with_output st (output_lines st ++ [line]))
  end.

(** Inside a plain fence: whether [line] is its closing line. *)
Definition regular_fence_closes (st : state) (line : string) : result bool :=
  match regular_fence_char st with
  | None => Raise ReError
  | Some c =>
      match re_match (regular_close_re c) line with
      | Some close_m =>
          g2 <- group_str close_m 2 ;;
          g1 <- group_str close_m 1 ;;
          Ok ((regular_fence_count st <=? Py.len g2)
              && (Py.len g1 <=? regular_fence_indent st))
      | None => Ok false
      end
  end.

(** A line seen with an empty stack. *)
Definition outside_directive (st : state) (line : string) : result state :=
  if negb (in_regular_code_fence st) then
    match re_match REGULAR_FENCE_RE line with
    | Some m => open_regular st m line
    | None =>
        match re_match REGULAR_FENCE_LANG_RE line with
        | Some m => open_regular st m line
        | None => regular_line st line
        end
    end
  else
    closes <- regular_fence_closes st line ;;
    let st1 := if closes : bool then with_in_fence st false else st in
    Ok (with_output st1 (output_lines st1 ++ [line])).

(** One iteration of the [while i < len(lines)] loop. *)
Definition scan_line (st : state) (line : string) : result state :=
  let stripped := Py.lstrip line in
  let ind := Py.len line - Py.len stripped in
  match open_match line, in_regular_code_fence st with
  | Some m, false =>
      frame <- open_frame m ;;
      Ok (with_in_options (with_stack st (frame :: stack st)) true)
  | _, _ =>
      match stack st with
      | current :: below =>
          if _is_close_fence stripped ind current
          then Ok (close_top st current below)
          else inside_directive st current below line
      | [] => outside_directive st line
      end
  end.

Fixpoint scan_lines (st : state) (lines : list string) : result state :=
  match lines with
  | [] => Ok st
  | line :: rest => st' <- scan_line st line ;; scan_lines st' rest
  end.

(** The final [while self.stack] loop. *)
Fixpoint drain (stk : list DirectiveFrame) (out : list string) : list string :=
  match stk with
  | [] => out
  | frame :: below => drain below (out ++ transform_fn frame)
  end.

Definition scan (text : string) : result string :=
  st <- scan_lines init (Py.split Py.newline text) ;;
  Ok (Py.join (Py.chr Py.newline) (drain (stack st) (output_lines st))).

End Scan.

End Scanner.

(** ** transforms/myst_to_quarto.py *)

Module MystToQuarto.
Import Re Scanner.

Local Notation "a +s b" := (String.append a b)
  (at level 60, right associativity).

Definition q : string := Py.chr Py.dquote.

(** The pattern  \{ROLE\}`([^`]+)`  of an inline role. *)
Definition role_re (role : string) : regex :=
  seq [lit ("{" +s role +s "}`"); Grp 1 (plus (not_char "`")); chr "`"].

Definition _EVAL_RE : regex := role_re "eval".
Definition _CITE_T_RE : regex := role_re "cite:t".
Definition _CITE_P_RE : regex := role_re "cite:p".
Definition _CITE_RE : regex := role_re "cite".
Definition _NUMREF_RE : regex := role_re "numref".
Definition _REF_RE : regex := role_re "ref".
Definition _EQ_RE : regex := role_re "eq".
Definition _DOC_RE : regex := role_re "doc".

(** .*<(.+)>$ *)
Definition ANGLE_RE : regex :=
  seq [star dot; chr "<"; Grp 1 (plus dot); chr ">"; Eos].

Definition _ADMONITION_TYPES : list string :=
  ["note"; "warning"; "tip"; "important"; "caution"].

Definition _TAG_MAP : Py.dict :=
  [("remove-cell", "#| include: false");
   ("remove-input", "#| echo: false");
   ("remove-output", "#| output: false");
   ("hide-input", "#| code-fold: true")].

Definition _replace_eval (m : rmatch) : result string :=
  g <- group_str m 1 ;; Ok ("`{python} " +s g +s "`").

Definition _replace_cite_t (m : rmatch) : result string :=
  g <- group_str m 1 ;; Ok ("@" +s Py.strip g).

Definition _replace_cite_p (m : rmatch) : result string :=
  g <- group_str m 1 ;;
  let keys := map Py.strip (Py.split "," g) in
  match keys with
  | [k] => Ok ("[@" +s k +s "]")
  | _ => Ok ("[" +s Py.join "; " (map (fun k => "@" +s k) keys) +s "]")
  end.

Definition _replace_cite (m : rmatch) : result string :=
  g <- group_str m 1 ;;
  let keys := map Py.strip (Py.split "," g) in
  match keys with
  | [k] => Ok ("[@" +s k +s "]")
  | _ => Ok ("[" +s Py.join "; " (map (fun k => "@" +s k) keys) +s "]")
  end.

Definition _replace_numref (m : rmatch) : result string :=
  g <- group_str m 1 ;;
  let content := Py.strip g in
  match re_match ANGLE_RE content with
  | Some angle_m => a <- group_str angle_m 1 ;; Ok ("@" +s Py.strip a)
  | None => Ok ("@" +s content)
  end.

Definition _replace_ref (m : rmatch) : result string :=
  g <- group_str m 1 ;; Ok ("@" +s Py.strip g).

Definition _replace_eq (m : rmatch) : result string :=
  g <- group_str m 1 ;;
  let label := Py.strip g in
  let label := if negb (Py.startswith label "eq-") then "eq-" +s label
               else label in
  Ok ("@" +s label).

Definition _replace_doc (m : rmatch) : result string :=
  g <- group_str m 1 ;;
  let path := Py.strip g in
  Ok ("[" +s path +s "](" +s path +s ".qmd)").

Definition transform_inline (line : string) : result string :=
  if Py.is_empty line then Ok line
  else
    result <- re_sub _EVAL_RE _replace_eval line ;;
    result <- re_sub _CITE_T_RE _replace_cite_t result ;;
    result <- re_sub _CITE_P_RE _replace_cite_p result ;;
    result <- re_sub _CITE_RE _replace_cite result ;;
    result <- re_sub _NUMREF_RE _replace_numref result ;;
    result <- re_sub _REF_RE _replace_ref result ;;
    result <- re_sub _EQ_RE _replace_eq result ;;
    result <- re_sub _DOC_RE _replace_doc result ;;
    Ok result.

Definition _parse_tags (tags_str : string) : list string :=
  let cleaned := Py.strip_chars "[]" (Py.strip tags_str) in
  map (fun t => Py.strip_chars (Py.chr Py.squote +s q) (Py.strip t))
      (filter (fun t => negb (Py.is_empty (Py.strip t)))
              (Py.split "," cleaned)).

Definition _transform_code_cell (frame : DirectiveFrame) : list string :=
  let lang := if negb (Py.is_empty (argument frame))
              then Py.strip (argument frame) else "python" in
  let lang := if String.eqb lang "ipython3" then "python" else lang in
  let lines := ["```{" +s lang +s "}"] in
  let tags := _parse_tags (Py.get_default (options frame) "tags" "") in
  let lines :=
    fold_left (fun lines tag =>
                 match Py.get _TAG_MAP tag with
                 | Some quarto_opt =>
                     if negb (Py.is_empty quarto_opt)
                     then lines ++ [quarto_opt] else lines
                 | None => lines
                 end) tags lines in
  let caption := Py.get_default (options frame) "caption" "" in
  let lines := if negb (Py.is_empty caption)
               then lines ++ ["#| fig-cap: " +s q +s caption +s q]
               else lines in
  let lines := if 1 <? length lines then lines ++ [""] else lines in
  lines ++ body_lines frame ++ ["```"].

Definition braces (attrs : list string) : string :=
  match attrs with
  | [] => ""
  | _ => "{" +s Py.join " " attrs +s "}"
  end.

Definition _transform_figure (frame : DirectiveFrame) : list string :=
  let path := Py.strip (argument frame) in
  let caption :=
    Py.join " " (map Py.strip
                     (filter (fun line => negb (Py.is_empty (Py.strip line)))
                             (body_lines frame))) in
  let name := Py.get_default (options frame) "name" "" in
  let width := Py.get_default (options frame) "width" "" in
  let attrs := (if negb (Py.is_empty name) then ["#" +s name] else [])
               ++ (if negb (Py.is_empty width)
                   then ["width=" +s q +s width +s q] else []) in
  let attr_str := braces attrs in
  let img_line := "![" +s caption +s "](" +s path +s ")" in
  [if negb (Py.is_empty attr_str) then img_line +s attr_str else img_line].

Definition _transform_math (frame : DirectiveFrame) : list string :=
  let label := Py.get_default (options frame) "label" "" in
  ["$$"] ++ body_lines frame
  ++ [if negb (Py.is_empty label) then "$$ {#" +s label +s "}" else "$$"].

Definition _transform_admonition (frame : DirectiveFrame)
  (adm_type title : string) : list string :=
  let header :=
    if negb (Py.is_empty title)
    then "::: {.callout-" +s adm_type +s " title=" +s q +s title +s q +s "}"
    else "::: {.callout-" +s adm_type +s "}" in
  [header] ++ body_lines frame ++ [":::"].

Definition _transform_tab_set (frame : DirectiveFrame) : list string :=
  ["::: {.panel-tabset}"] ++ body_lines frame ++ [":::"].

Definition _transform_tab_item (frame : DirectiveFrame) : list string :=
  let label := Py.strip (argument frame) in
  ["## " +s label] ++ body_lines frame.

Definition _transform_margin (frame : DirectiveFrame) : list string :=
  ["::: {.column-margin}"] ++ body_lines frame ++ [":::"].

Definition _transform_image (frame : DirectiveFrame) : list string :=
  let url := Py.strip (argument frame) in
  let alt := Py.get_default (options frame) "alt" "" in
  let width := Py.get_default (options frame) "width" "" in
  let attrs := if negb (Py.is_empty width)
               then ["width=" +s q +s width +s q] else [] in
  let attr_str := braces attrs in
  let img_line := "![" +s alt +s "](" +s url +s ")" in
  [if negb (Py.is_empty attr_str) then img_line +s attr_str else img_line].

Definition _transform_table (frame : DirectiveFrame) : list string :=
  let caption := Py.strip (argument frame) in
  let name := Py.get_default (options frame) "name" "" in
  let lines := body_lines frame in
  if negb (Py.is_empty name)
  then lines ++ [": " +s caption +s " {#" +s name +s "}"]
  else if negb (Py.is_empty caption) then lines ++ [": " +s caption]
  else lines.

Definition _transform_mermaid (frame : DirectiveFrame) : list string :=
  ["```{mermaid}"] ++ body_lines frame ++ ["```"].

Definition _transform_unknown (frame : DirectiveFrame) : list string :=
  let lines :=
    ["<!-- WARNING: unknown MyST directive '" +s name frame +s "' -->"] in
  let fence := Py.repeat_char (fence_char frame) (fence_count frame) in
  let lines :=
    lines ++ [fence +s "{" +s name frame +s "}"
              +s (if negb (Py.is_empty (argument frame))
                  then " " +s argument frame else "")] in
  let lines :=
    lines ++ map (fun kv => ":" +s fst kv +s ": " +s snd kv) (options frame) in
  let lines :=
    match body_lines frame with
    | [] => lines
    | _ => lines ++ [""] ++ body_lines frame
    end in
  lines ++ [fence].

Definition transform_directive (frame : DirectiveFrame) : list string :=
  let name := name frame in
  if String.eqb name "code-cell" then _transform_code_cell frame
  else if String.eqb name "figure" then _transform_figure frame
  else if String.eqb name "math" then _transform_math frame
  else if existsb (String.eqb name) _ADMONITION_TYPES
       then _transform_admonition frame name ""
  else if String.eqb name "admonition"
       then _transform_admonition frame "note" (argument frame)
  else if String.eqb name "bibliography" then []
  else if String.eqb name "abstract" then []
  else if String.eqb name "tab-set" then _transform_tab_set frame
  else if String.eqb name "tab-item" then _transform_tab_item frame
  else if String.eqb name "margin" then _transform_margin frame
  else if String.eqb name "image" then _transform_image frame
  else if String.eqb name "table" then _transform_table frame
  else if String.eqb name "tableofcontents" then []
  else if String.eqb name "mermaid" then _transform_mermaid frame
  else _transform_unknown frame.

Definition convert_myst_to_quarto (text : string) : result string :=
  scan transform_directive (Some transform_inline) text.

End MystToQuarto.

(** ** transforms/quarto_to_myst.py *)

Module QuartoToMyst.
Import Re.

Local Notation "a +s b" := (String.append a b)
  (at level 60, right associativity).

Definition q : string := Py.chr Py.dquote.

(** `\{python\}\s+([^`]+)` *)
Definition _INLINE_CODE_RE : regex :=
  seq [lit "`{python}"; plus ws; Grp 1 (plus (not_char "`")); chr "`"].

(** \[ ( @[\w-]+ (?: ;\s*@[\w-]+ )+ ) \] *)
Definition _MULTI_CITE_RE : regex :=
  seq [chr "[";
       Grp 1 (seq [chr "@"; plus word_dash;
                   plus (seq [chr ";"; star ws; chr "@"; plus word_dash])]);
       chr "]"].

(** \[@([\w-]+)\] *)
Definition _SINGLE_CITE_RE : regex :=
  seq [lit "[@"; Grp 1 (plus word_dash); chr "]"].

(** (?<!\w)@(PREFIX[\w-]+)(?!\w) *)
Definition prefixed_ref_re (prefix : string) : regex :=
  seq [NotBehind Py.is_word; chr "@"; Grp 1 (Cat (lit prefix) (plus word_dash));
       NotAhead word].

Definition _FIG_REF_RE : regex := prefixed_ref_re "fig-".
Definition _EQ_REF_RE : regex := prefixed_ref_re "eq-".
Definition _TBL_REF_RE : regex := prefixed_ref_re "tbl-".
Definition _SEC_REF_RE : regex := prefixed_ref_re "sec-".

(** (?<!\w)@((?!fig-|eq-|tbl-|sec-)[\w][\w-]* )(?!\w) *)
Definition _BARE_CITE_RE : regex :=
  seq [NotBehind Py.is_word; chr "@";
       Grp 1 (seq [NotAhead (Alt (lit "fig-")
                              (Alt (lit "eq-") (Alt (lit "tbl-") (lit "sec-"))));
                   word; star word_dash]);
       NotAhead word].

(** \[([^\]]+)\]\(([^\)]+\.qmd)\) *)
Definition _DOC_LINK_RE : regex :=
  seq [chr "["; Grp 1 (plus (not_char "]")); lit "](";
       Grp 2 (Cat (plus (not_char ")")) (lit ".qmd")); chr ")"].

(** ^#\|\s+([\w-]+):\s+(.+)$ *)
Definition _CELL_OPTION_RE : regex :=
  seq [Bos; lit "#|"; plus ws; Grp 1 (plus word_dash); chr ":"; plus ws;
       Grp 2 (plus dot); Eos].

(** ^(:{3,})\s*\{\.callout-(note|warning|tip|important|caution)
    (?:\s+title=Q([^Q]* )Q)?\s*\}  where Q is the double quote. *)
Definition _CALLOUT_RE : regex :=
  seq [Bos; Grp 1 (at_least 3 (chr ":")); star ws; lit "{.callout-";
       Grp 2 (Alt (lit "note")
               (Alt (lit "warning")
                 (Alt (lit "tip") (Alt (lit "important") (lit "caution")))));
       opt (seq [plus ws; lit "title="; chr Py.dquote;
                 Grp 3 (star (not_char Py.dquote)); chr Py.dquote]);
       star ws; chr "}"].

(** ^(:{3,})\s*\{\.panel-tabset\} *)
Definition _TABSET_RE : regex :=
  seq [Bos; Grp 1 (at_least 3 (chr ":")); star ws; lit "{.panel-tabset}"].

(** ^(:{3,})\s*\{\.column-margin\} *)
Definition _MARGIN_RE : regex :=
  seq [Bos; Grp 1 (at_least 3 (chr ":")); star ws; lit "{.column-margin}"].

(** ^(`{3,})\{(\w+)\}\s*$ *)
Definition _EXEC_CODE_RE : regex :=
  seq [Bos; Grp 1 (at_least 3 (chr "`")); chr "{"; Grp 2 (plus word); chr "}";
       star ws; Eos].

(** ^(:{3,})\s*$ *)
Definition _COLON_CLOSE_RE : regex :=
  seq [Bos; Grp 1 (at_least 3 (chr ":")); star ws; Eos].

(** ^(`{3,})\s*$ *)
Definition _BACKTICK_CLOSE_RE : regex :=
  seq [Bos; Grp 1 (at_least 3 (chr "`")); star ws; Eos].

(** ^!\[ ([^\]]* ) \]\( ([^)]+) \)\{ ([^}]+) \}\s*$ *)
Definition _IMG_ATTRS_RE : regex :=
  seq [Bos; lit "!["; Grp 1 (star (not_char "]")); lit "](";
       Grp 2 (plus (not_char ")")); lit "){"; Grp 3 (plus (not_char "}"));
       chr "}"; star ws; Eos].

(** ^\$\$\s*\{#([\w-]+)\}\s*$ *)
Definition _MATH_CLOSE_LABEL_RE : regex :=
  seq [Bos; lit "$$"; star ws; lit "{#"; Grp 1 (plus word_dash); chr "}";
       star ws; Eos].

(** ^\$\$\s*$ *)
Definition _MATH_OPEN_RE : regex := seq [Bos; lit "$$"; star ws; Eos].

(** ^:\s+(.+?)\s*\{#(tbl-[\w-]+)\}\s*$ *)
Definition _TABLE_CAPTION_RE : regex :=
  seq [Bos; chr ":"; plus ws; Grp 1 (lazy_plus dot); star ws; lit "{#";
       Grp 2 (Cat (lit "tbl-") (plus word_dash)); chr "}"; star ws; Eos].

(** ^\|.*\|\s*$ *)
Definition _TABLE_ROW_RE : regex :=
  seq [Bos; chr "|"; star dot; chr "|"; star ws; Eos].

(** ^##\s+(.+)$ *)
Definition HEADING_RE : regex :=
  seq [Bos; lit "##"; plus ws; Grp 1 (plus dot); Eos].

(** #([\w-]+) *)
Definition ID_ATTR_RE : regex := seq [chr "#"; Grp 1 (plus word_dash)].

(** width=Q?([^Q\s}]+)Q?  where Q is the double quote. *)
Definition WIDTH_ATTR_RE : regex :=
  seq [lit "width="; opt (chr Py.dquote);
       Grp 1 (plus (Cls (fun a => negb (Ascii.eqb a Py.dquote
                                        || Py.is_space a
                                        || Ascii.eqb a "}"%char))));
       opt (chr Py.dquote)].

Definition _OPTION_TO_TAG : list (string * Py.dict) :=
  [("include", [("false", "remove-cell")]);
   ("echo", [("false", "remove-input")]);
   ("output", [("false", "remove-output")]);
   ("code-fold", [("true", "hide-input")])].

Definition _EXEC_LANGUAGES : list string :=
  ["python"; "r"; "julia"; "bash"; "sh"; "sql"; "ojs"; "dot"; "mermaid"].

Definition _replace_inline_code (m : rmatch) : result string :=
  g <- group_str m 1 ;; Ok ("{eval}`" +s g +s "`").

Definition _replace_multi_cite (m : rmatch) : result string :=
  raw <- group_str m 1 ;;
  let keys := map (fun k => Py.lstrip_chars "@" (Py.strip k))
                  (Py.split ";" raw) in
  Ok ("{cite}`" +s Py.join "," keys +s "`").

Definition _replace_single_cite (m : rmatch) : result string :=
  g <- group_str m 1 ;; Ok ("{cite}`" +s g +s "`").

Definition _replace_fig_ref (m : rmatch) : result string :=
  g <- group_str m 1 ;; Ok ("{numref}`" +s g +s "`").

Definition _replace_eq_ref (m : rmatch) : result string :=
  g <- group_str m 1 ;; Ok ("{eq}`" +s g +s "`").

Definition _replace_tbl_ref (m : rmatch) : result string :=
  g <- group_str m 1 ;; Ok ("{ref}`" +s g +s "`").

Definition _replace_sec_ref (m : rmatch) : result string :=
  g <- group_str m 1 ;; Ok ("{ref}`" +s g +s "`").

Definition _replace_bare_cite (m : rmatch) : result string :=
  g <- group_str m 1 ;; Ok ("{cite:t}`" +s g +s "`").

Definition _replace_doc_link (m : rmatch) : result string :=
  text <- group_str m 1 ;;
  url <- group_str m 2 ;;
  let path := Py.take (Py.len url - 4) url in
  if String.eqb text path then Ok ("{doc}`" +s path +s "`")
  else
    base <- Py.last_item (Py.split "/" path) ;;
    if String.eqb text base then Ok ("{doc}`" +s path +s "`")
    else group_str m 0.

Definition transform_quarto_inline (line : string) : result string :=
  if Py.is_empty line then Ok line
  else
    result <- re_sub _INLINE_CODE_RE _replace_inline_code line ;;
    result <- re_sub _MULTI_CITE_RE _replace_multi_cite result ;;
    result <- re_sub _SINGLE_CITE_RE _replace_single_cite result ;;
    result <- re_sub _FIG_REF_RE _replace_fig_ref result ;;
    result <- re_sub _EQ_REF_RE _replace_eq_ref result ;;
    result <- re_sub _TBL_REF_RE _replace_tbl_ref result ;;
    result <- re_sub _SEC_REF_RE _replace_sec_ref result ;;
    result <- re_sub _BARE_CITE_RE _replace_bare_cite result ;;
    result <- re_sub _DOC_LINK_RE _replace_doc_link result ;;
    Ok result.

(** The [for ... else] loop of [_parse_cell_options]: the options read and
    the lines from the first one that is no option. *)
Fixpoint leading_options (options : Py.dict) (body_lines : list string)
  : result (Py.dict * list string) :=
  match body_lines with
  | [] => Ok (options, [])
  | line :: rest =>
      match re_match _CELL_OPTION_RE (Py.strip line) with
      | Some m =>
          k <- group_str m 1 ;;
          v <- group_str m 2 ;;
          leading_options (Py.set options k (Py.strip v)) rest
      | None => Ok (options, body_lines)
      end
  end.

Definition _parse_cell_options (body_lines : list string)
  : result (Py.dict * list string) :=
  r <- leading_options [] body_lines ;;
  let '(options, remaining) := r in
  match remaining with
  | first :: others =>
      if Py.is_empty (Py.strip first) then Ok (options, others)
      else Ok (options, remaining)
  | [] => Ok (options, remaining)
  end.

Definition option_tag (key value : string) : option string :=
  match find (fun kv => String.eqb key (fst kv)) _OPTION_TO_TAG with
  | Some (_, values) => Py.get values value
  | None => None
  end.

Definition _build_code_cell (lang : string) (options : Py.dict)
  (body_lines : list string) : list string :=
  let lines := ["```{code-cell} " +s lang] in
  let '(tags, caption) :=
    fold_left (fun (acc : list string * string) (kv : string * string) =>
                 let '(tags, caption) := acc in
                 let '(key, value) := kv in
                 match option_tag key value with
                 | Some tag => (tags ++ [tag], caption)
                 | None =>
                     if String.eqb key "fig-cap"
                     then (tags, Py.strip_chars (Py.chr Py.squote)
                                   (Py.strip_chars q value))
                     else (tags, caption)
                 end) options ([], "") in
  let lines := match tags with
               | [] => lines
               | _ => lines ++ [":tags: " +s "[" +s Py.join ", " tags +s "]"]
               end in
  let lines := if negb (Py.is_empty caption)
               then lines ++ [":caption: " +s caption] else lines in
  let lines := if 1 <? length lines then lines ++ [""] else lines in
  lines ++ body_lines ++ ["```"].

Definition _build_admonition (adm_type title : string)
  (body_lines : list string) : list string :=
  let lines := if negb (Py.is_empty title)
               then ["```{admonition} " +s title]
               else ["```{" +s adm_type +s "}"] in
  lines ++ body_lines ++ ["```"].

Definition _build_margin (body_lines : list string) : list string :=
  ["```{margin}"] ++ body_lines ++ ["```"].

(** [while current_body and current_body[-1].strip() == "": pop()] *)
Fixpoint drop_trailing_blank (body : list string) : list string :=
  match body with
  | [] => []
  | line :: rest =>
      match drop_trailing_blank rest with
      | [] => if Py.is_empty (Py.strip line) then [] else [line]
      | r => line :: r
      end
  end.

Definition flush_tab (res : list string) (current_label : option string)
  (current_body : list string) : list string :=
  match current_label with
  | Some label =>
      res ++ [":::{tab-item} " +s label]
      ++ drop_trailing_blank current_body ++ [":::"]
  | None => res
  end.

(** The [for line in body_lines] loop of [_build_tab_set] and the final
    flush. *)
Fixpoint tab_items (body_lines : list string) (res : list string)
  (current_label : option string) (current_body : list string)
  : result (list string) :=
  match body_lines with
  | [] => Ok (flush_tab res current_label current_body)
  | line :: rest =>
      match re_match HEADING_RE line with
      | Some heading_m =>
          g <- group_str heading_m 1 ;;
          tab_items rest (flush_tab res current_label current_body)
                    (Some (Py.strip g)) []
      | None => tab_items rest res current_label (current_body ++ [line])
      end
  end.

Definition _build_tab_set (body_lines : list string) : result (list string) :=
  res <- tab_items body_lines ["::::{tab-set}"] None [] ;;
  Ok (res ++ ["::::"]).

Definition _parse_image_attrs (attr_str : string) : result Py.dict :=
  attrs <- match re_search ID_ATTR_RE attr_str with
           | Some id_m => g <- group_str id_m 1 ;; Ok (Py.set [] "id" g)
           | None => Ok []
           end ;;
  match re_search WIDTH_ATTR_RE attr_str with
  | Some width_m => g <- group_str width_m 1 ;; Ok (Py.set attrs "width" g)
  | None => Ok attrs
  end.

Definition option_line (attrs : Py.dict) (key label : string) : list string :=
  match Py.get attrs key with
  | Some v => [":" +s label +s ": " +s v]
  | None => []
  end.

Definition _build_figure_directive (alt url : string) (attrs : Py.dict)
  : list string :=
  ["```{figure} " +s url]
  ++ option_line attrs "id" "name"
  ++ option_line attrs "width" "width"
  ++ [""]
  ++ (if negb (Py.is_empty alt) then [alt] else [])
  ++ ["```"].

Definition _build_image_directive (alt url : string) (attrs : Py.dict)
  : list string :=
  ["```{image} " +s url]
  ++ (if negb (Py.is_empty alt) then [":alt: " +s alt] else [])
  ++ option_line attrs "width" "width"
  ++ ["```"].

Definition _build_math_directive (label : string) (body_lines : list string)
  : list string :=
  ["```{math}"]
  ++ (if negb (Py.is_empty label) then [":label: " +s label] else [])
  ++ [""] ++ body_lines ++ ["```"].

Definition _build_table_directive (caption name : string)
  (table_lines : list string) : list string :=
  ["```{table} " +s caption]
  ++ (if negb (Py.is_empty name) then [":name: " +s name] else [])
  ++ [""] ++ table_lines ++ ["```"].

(** The locals of [convert_quarto_to_myst] that live across iterations. *)
Record state : Type := mkState {
  output_lines : list string;
  table_lines_buffer : list string;
  in_table : bool
}.

Definition init : state := mkState [] [] false.

Definition emit (st : state) (lines : list string) : state :=
  mkState (output_lines st ++ lines) (table_lines_buffer st) (in_table st).

(** The scan for the closing fence of a block: the body, and the input
    after the closing fence (nothing when the input ends first). *)
Fixpoint collect (close_re : regex) (fence_count : nat) (input : list string)
  : result (list string * list string) :=
  match input with
  | [] => Ok ([], [])
  | line :: rest =>
      closes <- match re_match close_re (Py.strip line) with
                | Some close_m =>
                    g <- group_str close_m 1 ;; Ok (fence_count <=? Py.len g)
                | None => Ok false
                end ;;
      if closes : bool then Ok ([], rest)
      else
        r <- collect close_re fence_count rest ;;
        Ok (line :: fst r, snd r)
  end.

(** The scan for the end of a math block: the body, the label of a
    labelled closing line, and the input after the closing line. *)
Fixpoint collect_math (input : list string)
  : result (list string * string * list string) :=
  match input with
  | [] => Ok ([], "", [])
  | math_line :: rest =>
      match re_match _MATH_CLOSE_LABEL_RE (Py.strip math_line) with
      | Some label_m => label <- group_str label_m 1 ;; Ok ([], label, rest)
      | None =>
          match re_match _MATH_OPEN_RE (Py.strip math_line) with
          | Some _ => Ok ([], "", rest)
          | None =>
              r <- collect_math rest ;;
              let '(body, label, after) := r in
              Ok (math_line :: body, label, after)
          end
      end
  end.

(** [for _ in range(n): output_lines.pop()] *)
Fixpoint pop_n (n : nat) (out : list string) : result (list string) :=
  match n with
  | 0 => Ok out
  | S m => r <- Py.pop out ;; pop_n m (snd r)
  end.

(** A colon-fenced block opened by a line that matched with [m]. *)
Definition colon_block (m : rmatch) (rest : list string)
  (build : list string -> result (list string)) (st : state)
  : result (list string * state) :=
  fence_str <- group_str m 1 ;;
  r <- collect _COLON_CLOSE_RE (Py.len fence_str) rest ;;
  lines <- build (fst r) ;;
  Ok (snd r, emit st lines).

(** The dispatch from the table caption on. *)
Definition table_or_regular (line stripped : string) (rest : list string)
  (st : state) : result (list string * state) :=
  match re_match _TABLE_CAPTION_RE stripped, in_table st with
  | Some table_caption_m, true =>
      g1 <- group_str table_caption_m 1 ;;
      name <- group_str table_caption_m 2 ;;
      let caption := Py.strip g1 in
      let tbl_lines :=
        _build_table_directive caption name (table_lines_buffer st) in
      out <- pop_n (length (table_lines_buffer st)) (output_lines st) ;;
      Ok (rest, mkState (out ++ tbl_lines) [] false)
  | _, _ =>
      match re_match _TABLE_ROW_RE stripped with
      | Some _ =>
          let buffer := if negb (in_table st) then []
                        else table_lines_buffer st in
          Ok (rest, mkState (output_lines st ++ [line]) (buffer ++ [line]) true)
      | None =>
          let st1 := if in_table st && negb (Py.is_empty stripped)
                     then mkState (output_lines st) [] false else st in
          l <- transform_quarto_inline line ;;
          Ok (rest, emit st1 [l])
      end
  end.

(** The dispatch from the callout on. *)
Definition block_or_line (line stripped : string) (rest : list string)
  (st : state) : result (list string * state) :=
  match re_match _CALLOUT_RE stripped with
  | Some callout_m =>
      adm_type <- group_str callout_m 2 ;;
      let title := match group callout_m 3 with
                   | Some t => t
                   | None => ""
                   end in
      colon_block callout_m rest
        (fun body => Ok (_build_admonition adm_type title body)) st
  | None =>
  match re_match _TABSET_RE stripped with
  | Some tabset_m => colon_block tabset_m rest _build_tab_set st
  | None =>
  match re_match _MARGIN_RE stripped with
  | Some margin_m =>
      colon_block margin_m rest (fun body => Ok (_build_margin body)) st
  | None =>
  match re_match _IMG_ATTRS_RE stripped with
  | Some img_m =>
      alt <- group_str img_m 1 ;;
      url <- group_str img_m 2 ;;
      attr_str <- group_str img_m 3 ;;
      attrs <- _parse_image_attrs attr_str ;;
      match Py.get attrs "id" with
      | Some id =>
          if Py.startswith id "fig-"
          then Ok (rest, emit st (_build_figure_directive alt url attrs))
          else Ok (rest, emit st (_build_image_directive alt url attrs))
      | None =>
          match attrs with
          | _ :: _ => Ok (rest, emit st (_build_image_directive alt url attrs))
          | [] => l <- transform_quarto_inline line ;; Ok (rest, emit st [l])
          end
      end
  | None =>
  match re_match _MATH_OPEN_RE stripped with
  | Some _ =>
      r <- collect_math rest ;;
      let '(math_body, label, after) := r in
      if negb (Py.is_empty label)
      then Ok (after, emit st (_build_math_directive label math_body))
      else Ok (after, emit st (["$$"] ++ math_body ++ ["$$"]))
  | None => table_or_regular line stripped rest st
  end end end end end.

(** One iteration of the outer [while i < len(input_lines)] loop on the
    line at [i] and the input after it: the input left and the new state. *)
Definition step (line : string) (rest : list string) (st : state)
  : result (list string * state) :=
  let stripped := Py.strip line in
  match re_match _EXEC_CODE_RE stripped with
  | Some exec_m =>
      fence_str <- group_str exec_m 1 ;;
      lang <- group_str exec_m 2 ;;
      if existsb (String.eqb (Py.lower lang)) _EXEC_LANGUAGES then
        r <- collect _BACKTICK_CLOSE_RE (Py.len fence_str) rest ;;
        p <- _parse_cell_options (fst r) ;;
        Ok (snd r, emit st (_build_code_cell lang (fst p) (snd p)))
      else block_or_line line stripped rest st
  | None => block_or_line line stripped rest st
  end.

Fixpoint loop (fuel : nat) (input : list string) (st : state) : result state :=
  match input with
  | [] => Ok st
  | line :: rest =>
      match fuel with
      | 0 => OutOfFuel
      | S fuel' =>
          r <- step line rest st ;;
          loop fuel' (fst r) (snd r)
      end
  end.

Definition convert_quarto_to_myst (text : string) : result string :=
  let input_lines := Py.split Py.newline text in
  st <- loop (length input_lines) input_lines init ;;
  Ok (Py.join (Py.chr Py.newline) (output_lines st)).

(** [transform_quarto_block] *)
Definition transform_quarto_block (lines : list string)
  : result (list string) :=
  r <- convert_quarto_to_myst (Py.join (Py.chr Py.newline) lines) ;;
  Ok (Py.split Py.newline r).

End QuartoToMyst.

(** ** Documents *)

(** The text whose lines are [l]. *)
Definition text (l : list string) : string := Py.join (Py.chr Py.newline) l.

Unset Implicit Arguments.

(** ** Vocabulary of the properties *)

(** The patterns that the two inline rewriters substitute. *)
Definition substituted_patterns : list Re.regex :=
  [MystToQuarto._EVAL_RE; MystToQuarto._CITE_T_RE; MystToQuarto._CITE_P_RE;
   MystToQuarto._CITE_RE; MystToQuarto._NUMREF_RE; MystToQuarto._REF_RE;
   MystToQuarto._EQ_RE; MystToQuarto._DOC_RE;
   QuartoToMyst._INLINE_CODE_RE; QuartoToMyst._MULTI_CITE_RE;
   QuartoToMyst._SINGLE_CITE_RE; QuartoToMyst._FIG_REF_RE;
   QuartoToMyst._EQ_REF_RE; QuartoToMyst._TBL_REF_RE;
   QuartoToMyst._SEC_REF_RE; QuartoToMyst._BARE_CITE_RE;
   QuartoToMyst._DOC_LINK_RE].

(** The patterns that the two scanners match lines against. *)
Definition matched_patterns : list Re.regex :=
  [Scanner.BACKTICK_OPEN_RE; Scanner.COLON_OPEN_RE; Scanner.OPTION_RE;
   Scanner.REGULAR_FENCE_RE; Scanner.REGULAR_FENCE_LANG_RE;
   Scanner.regular_close_re "`"; Scanner.regular_close_re "~";
   MystToQuarto.ANGLE_RE;
   QuartoToMyst._CELL_OPTION_RE; QuartoToMyst._CALLOUT_RE;
   QuartoToMyst._TABSET_RE; QuartoToMyst._MARGIN_RE;
   QuartoToMyst._EXEC_CODE_RE; QuartoToMyst._COLON_CLOSE_RE;
   QuartoToMyst._BACKTICK_CLOSE_RE; QuartoToMyst._IMG_ATTRS_RE;
   QuartoToMyst._MATH_CLOSE_LABEL_RE; QuartoToMyst._MATH_OPEN_RE;
   QuartoToMyst._TABLE_CAPTION_RE; QuartoToMyst._TABLE_ROW_RE;
   QuartoToMyst.HEADING_RE; QuartoToMyst.ID_ATTR_RE;
   QuartoToMyst.WIDTH_ATTR_RE].

(** The shape of the facts carried through a match: the continuation is
    reached, [ml] characters further at least, with the groups outside
    [gs] untouched and the groups [l] set. *)
Definition reaches (k : Re.cont) (res : string * Re.caps) (s : string)
  (c : Re.caps) (ml : nat) (gs : list nat) (l : list (nat * nat)) : Prop :=
  exists prev' s' c',
    k prev' s' c' = Some res
    /\ String.length s' + ml <= String.length s
    /\ (forall n, ~ In n gs -> Re.lookup n c' = Re.lookup n c)
    /\ Re.holds l c'.

(** The continuation is reached after a text [w] for which [L] holds,
    with the groups outside [gs] untouched and the groups [l] set to
    texts of their sub-patterns. *)
Definition consumes (k : Re.cont) (res : string * Re.caps) (s : string)
  (c : Re.caps) (L : string -> Prop) (gs : list nat)
  (l : list (nat * Re.regex)) : Prop :=
  exists w prev' s' c',
    s = (w ++ s')%string
    /\ L w
    /\ k prev' s' c' = Some res
    /\ (forall n, ~ In n gs -> Re.lookup n c' = Re.lookup n c)
    /\ Re.holds_re l c'.

(** The continuations [k1] and [k2] agree on the texts of length [n] at
    most. *)
Definition agrees_below (n : nat) (k1 k2 : Re.cont) : Prop :=
  forall p s c, String.length s <= n -> k1 p s c = k2 p s c.

(** Inside a plain fence the fence character is known. *)
Definition fence_known (st : Scanner.state) : Prop :=
  Scanner.in_regular_code_fence st = true ->
  Scanner.regular_fence_char st <> None.

(** The lines of the table buffer are at most as many as the output's. *)
Definition buffer_fits (st : QuartoToMyst.state) : Prop :=
  length (QuartoToMyst.table_lines_buffer st)
  <= length (QuartoToMyst.output_lines st).

(** What a dispatch yields: the input left, no longer than what follows
    the line, and a state whose buffer still fits. *)
Definition advances (rest : list string)
  (r : result (list string * QuartoToMyst.state)) : Prop :=
  exists rest' st',
    r = Ok (rest', st') /\ length rest' <= length rest /\ buffer_fits st'.

(** [line] passes [_is_close_fence] for the frame [f]. *)
Definition closes (f : Scanner.DirectiveFrame) (line : string) : bool :=
  Scanner._is_close_fence (Py.lstrip line)
    (Py.len line - Py.len (Py.lstrip line)) f.

(** [line] is a line of the inside of [f]: no opening fence, and not the
    closing fence of [f]. *)
Definition inner_line (f : Scanner.DirectiveFrame) (line : string) : Prop :=
  Scanner.open_match line = None /\ closes f line = false.

(** The frame [A] once a nested directive has been closed into its body
    and the lines [after] it have been read: the body lines of [A] so
    far, the transformed lines [tB] of the nested directive, and the
    lines [after], stripped of the indentation of [A]. *)
Definition with_nested (A : Scanner.DirectiveFrame) (tB after : list string)
  : Scanner.DirectiveFrame :=
  Scanner.with_body_lines A
    (Scanner.body_lines A ++ tB
     ++ map (fun l => Scanner._strip_indent l (Scanner.indent A)) after).

(** [g] is [f] with other options and body lines. *)
Definition same_fence (f g : Scanner.DirectiveFrame) : Prop :=
  Scanner.name g = Scanner.name f
  /\ Scanner.fence_char g = Scanner.fence_char f
  /\ Scanner.fence_count g = Scanner.fence_count f
  /\ Scanner.argument g = Scanner.argument f
  /\ Scanner.indent g = Scanner.indent f.

(** The state [st] with the frame [f] pushed on its stack, in options
    mode or out of it. *)
Definition pushed (st : Scanner.state) (f : Scanner.DirectiveFrame)
  (mode : bool) : Scanner.state :=
  Scanner.with_in_options (Scanner.with_stack st (f :: Scanner.stack st)) mode.

(** What the options test of the frame [f] sees of [line]: the line
    without the indentation of [f], stripped. *)
Definition option_content (f : Scanner.DirectiveFrame) (line : string)
  : string :=
  Py.strip (Scanner._strip_indent line (Scanner.indent f)).

(** [line] matches the option pattern for the frame [f]. *)
Definition is_option_line (f : Scanner.DirectiveFrame) (line : string)
  : bool :=
  match Re.re_match Scanner.OPTION_RE (option_content f line) with
  | Some _ => true
  | None => false
  end.

(** The options [d] once the option lines [lines] are recorded, in their
    order: each sets its key to its stripped value. *)
Fixpoint recorded (f : Scanner.DirectiveFrame) (lines : list string)
  (d : Py.dict) : Py.dict :=
  match lines with
  | [] => d
  | l :: rest =>
      match Re.re_match Scanner.OPTION_RE (option_content f l) with
      | Some m =>
          match Re.group m 1, Re.group m 2 with
          | Some key, Some value =>
              recorded f rest (Py.set d key (Py.strip value))
          | _, _ => recorded f rest d
          end
      | None => recorded f rest d
      end
  end.

(** The body lines that the frame [f] keeps of the line [stop] that ends
    its options and of the lines [body] after it: [stop] unless it is
    blank, then every line of [body], without the indentation of [f]. *)
Definition kept (f : Scanner.DirectiveFrame) (stop : string)
  (body : list string) : list string :=
  (if Py.is_empty (option_content f stop) then []
   else [Scanner._strip_indent stop (Scanner.indent f)])
  ++ map (fun l => Scanner._strip_indent l (Scanner.indent f)) body.



(** The outcomes [r1] from the state [st1] and [r2] from the state [st2]
    are alike: when [r1] is a new state, [r2] is one as well, with the
    same input left, and both have added the same lines to the output
    they started from. *)
Definition alike (st1 st2 : QuartoToMyst.state)
  (r1 r2 : result (list string * QuartoToMyst.state)) : Prop :=
  forall rest' s1, r1 = Ok (rest', s1) ->
    exists added s2,
      QuartoToMyst.output_lines s1 = QuartoToMyst.output_lines st1 ++ added
      /\ r2 = Ok (rest', s2)
      /\ QuartoToMyst.output_lines s2 = QuartoToMyst.output_lines st2 ++ added.

(** ** Vocabulary of the further properties *)

(** The characters of the model: the code points below 256. *)
Definition all_ascii : list ascii := map ascii_of_nat (List.seq 0 256).

(** The class [p] holds of the character [x] at most. *)
Definition only (p : ascii -> bool) (x : ascii) : bool :=
  forallb (fun a => implb (p a) (Ascii.eqb a x)) all_ascii.

(** Every text of [r] has the character [x] in it, by the shape of [r]
    alone. *)
Fixpoint requires (r : Re.regex) (x : ascii) : bool :=
  match r with
  | Re.Cls p => only p x
  | Re.Cat r1 r2 => requires r1 x || requires r2 x
  | Re.Alt r1 r2 => requires r1 x && requires r2 x
  | Re.Rep _ min r1 => (1 <=? min) && requires r1 x
  | Re.Grp _ r1 => requires r1 x
  | _ => false
  end.

(** No match of [r] starts at a position of [s], the one after its last
    character included. *)
Fixpoint unmatched (r : Re.regex) (prev : option ascii) (s : string) : Prop :=
  Re.match_at r prev s = None
  /\ match s with
     | EmptyString => True
     | String a t => unmatched r (Some a) t
     end.

(** One of the characters [chars] is in [s]. *)
Definition has_any (chars s : string) : bool :=
  existsb (fun x => Py.mem x s) (list_ascii_of_string chars).

(** A character that [_strip_indent] removes: a space or a tab. *)
Definition is_indent (c : ascii) : bool :=
  Ascii.eqb c " " || Ascii.eqb c (ascii_of_nat 9).

(** The two modes of the forward scanner exclude one another, and options
    are read inside a directive only. *)
Definition modes_exclusive (st : Scanner.state) : Prop :=
  (Scanner.in_regular_code_fence st = true -> Scanner.stack st = [])
  /\ (Scanner.stack st = [] -> Scanner.in_options st = false).

(** [st'] is [st] with the lines [pre] before its output; outside a plain
    fence the record of the last fence may differ. *)
Definition shifted (pre : list string) (st st' : Scanner.state) : Prop :=
  Scanner.stack st' = Scanner.stack st
  /\ Scanner.in_options st' = Scanner.in_options st
  /\ Scanner.in_regular_code_fence st' = Scanner.in_regular_code_fence st
  /\ Scanner.output_lines st' = pre ++ Scanner.output_lines st
  /\ (Scanner.in_regular_code_fence st = true ->
      Scanner.regular_fence_char st' = Scanner.regular_fence_char st
      /\ Scanner.regular_fence_count st' = Scanner.regular_fence_count st
      /\ Scanner.regular_fence_indent st' = Scanner.regular_fence_indent st).

(** The first character of [l] after its leading whitespace is one of
    [chars]. *)
Definition begins_with (chars l : string) : bool :=
  match Py.lstrip l with
  | String a _ => Py.mem a chars
  | EmptyString => false
  end.

(** A line of a block's body in a round trip: it holds no newline and
    does not begin with a fence character. *)
Definition body_line (l : string) : Prop :=
  Py.mem Py.newline l = false /\ begins_with "`:" l = false.

(** The first line of [body], if any, is not blank. *)
Definition first_not_blank (body : list string) : Prop :=
  forall b rest, body = b :: rest -> Py.strip b <> "".

(** The first line of [body], if any, is not blank and does not begin
    with the marker of a cell option. *)
Definition first_is_code (body : list string) : Prop :=
  forall b rest, body = b :: rest ->
    Py.strip b <> "" /\ Py.startswith (Py.strip b) "#|" = false.

(** Every at sign of [s] follows a word character; [prev] is the
    character before [s]. *)
Fixpoint ats_follow_words (prev : option ascii) (s : string) : bool :=
  match s with
  | EmptyString => true
  | String c t =>
      (if Ascii.eqb c "@"
       then match prev with
            | Some a => Py.is_word a
            | None => false
            end
       else true)
      && ats_follow_words (Some c) t
  end.

(** A citation key: one or more characters of the class [[\w-]]. *)
Definition is_key (key : string) : Prop :=
  key <> ""
  /\ forallb (fun a => Py.is_word a || Ascii.eqb a "-")
       (list_ascii_of_string key) = true.

(** The directives whose body the forward transform merges into one line
    or drops. *)
Definition body_consumers : list string :=
  ["figure"; "image"; "bibliography"; "abstract"; "tableofcontents"].

(** The state of the forward scanner inside the body of the top-level
    directive [F], with nothing written yet. *)
Definition in_body (F : Scanner.DirectiveFrame) : Scanner.state :=
  Scanner.mkState [F] [] false false None 0 0.

(** A line of the body of an equation: a body line that does not begin
    with a dollar sign. *)
Definition math_line (l : string) : Prop :=
  body_line l /\ begins_with "$" l = false.

(** A line that the reverse scanner has no pattern for: none of the
    characters brace, dollar, bar and opening bracket, and at signs after
    word characters only; [prev] is the character before the line. *)
Definition plain_line (prev : option ascii) (l : string) : Prop :=
  has_any "{$|[" l = false /\ ats_follow_words prev l = true.

(** The label of a tab, or the path or caption of a figure: a text on
    one line, not empty, without whitespace around it. *)
Definition is_label (l : string) : Prop :=
  l <> "" /\ Py.mem Py.newline l = false
  /\ Py.rstrip l = l /\ Py.lstrip l = l.

(** A line of the body of a tab: a body line that is no heading of level
    two. *)
Definition tab_line (l : string) : Prop :=
  body_line l /\ Re.re_match QuartoToMyst.HEADING_RE l = None.

(** The last line of [body], if any, is not blank. *)
Definition last_not_blank (body : list string) : Prop :=
  forall front b, body = front ++ [b] -> Py.strip b <> "".

(** A tab: its label and the lines of its body. *)
Definition is_tab (tab : string * list string) : Prop :=
  is_label (fst tab) /\ Forall tab_line (snd tab)
  /\ first_not_blank (snd tab) /\ last_not_blank (snd tab).

(** The lines of a tab as a tab-item directive, and as a heading with
    the body after it. *)
Definition myst_tab (tab : string * list string) : list string :=
  String.append ":::{tab-item} " (fst tab) :: snd tab ++ [":::"].

Definition quarto_tab (tab : string * list string) : list string :=
  String.append "## " (fst tab) :: snd tab.

(** The state of the forward scanner inside the top-level directive [F],
    with nothing written yet; [opts] is the options mode. *)
Definition inside (F : Scanner.DirectiveFrame) (opts : bool) : Scanner.state :=
  Scanner.mkState [F] [] opts false None 0 0.

(** The image line of a figure. *)
Definition image_line (caption path name : string) : string :=
  String.append "!["
    (String.append caption
       (String.append "]("
          (String.append path
             (String.append "){#" (String.append name "}"))))).

(** * Properties *)

(** ** The empty document and the note admonition *)

(** C10: both conversions map the empty document to the empty document. *)
Theorem convert_empty_document :
  MystToQuarto.convert_myst_to_quarto "" = Ok ""
  /\ QuartoToMyst.convert_quarto_to_myst "" = Ok "".
Proof. split; vm_compute; reflexivity. Qed.

(** C9: the forward conversion of the note admonition with body [Hello.]
    is the callout block of class [callout-note] with the same body, and
    the reverse conversion of that block is the original admonition. *)
Theorem note_admonition_round_trip :
  MystToQuarto.convert_myst_to_quarto (text ["```{note}"; "Hello."; "```"])
  = Ok (text ["::: {.callout-note}"; "Hello."; ":::"])
  /\ QuartoToMyst.convert_quarto_to_myst
       (text ["::: {.callout-note}"; "Hello."; ":::"])
     = Ok (text ["```{note}"; "Hello."; "```"]).
Proof. split; vm_compute; reflexivity. Qed.

(** ** Stripping *)

Lemma lstrip_by_head (p : ascii -> bool) (s : string) (a : ascii) (t : string) :
  Py.lstrip_by p s = String a t -> p a = false.
Proof.
  induction s as [|b s IH]; simpl; [discriminate|].
  destruct (p b) eqn:E; [exact IH|].
  intros H; injection H as <- _; exact E.
Qed.

Lemma lstrip_by_length (p : ascii -> bool) (s : string) :
  String.length (Py.lstrip_by p s) <= String.length s.
Proof.
  induction s as [|b s IH]; simpl; [lia|].
  destruct (p b); simpl; lia.
Qed.

Lemma rstrip_by_fixed_of_lstrip (p : ascii -> bool) (s : string) :
  Py.lstrip_by p s <> EmptyString ->
  Py.rstrip_by p (Py.lstrip_by p s) = Py.lstrip_by p s ->
  Py.rstrip_by p s = s.
Proof.
  induction s as [|b s IH]; simpl; [congruence|].
  destruct (p b) eqn:E.
  - intros Hne Hfix. rewrite (IH Hne Hfix).
    destruct s; [simpl in Hne; congruence | reflexivity].
  - simpl. intros _ Hfix. rewrite E in Hfix. exact Hfix.
Qed.

Lemma rstrip_by_all_char (p : ascii -> bool) (c : ascii) (s : string) :
  p c = false -> Py.all_char c s = true -> Py.rstrip_by p s = s.
Proof.
  intros Hc. induction s as [|b s IH]; simpl; [reflexivity|].
  intros H. apply andb_prop in H as [Hb Hs].
  apply Ascii.eqb_eq in Hb. subst b.
  rewrite (IH Hs). destruct s; [rewrite Hc|]; reflexivity.
Qed.

Lemma all_char_repeat (c : ascii) (s : string) :
  Py.all_char c s = true -> s = Py.repeat_char c (Py.len s).
Proof.
  induction s as [|b s IH]; simpl; [reflexivity|].
  intros H. apply andb_prop in H as [Hb Hs].
  apply Ascii.eqb_eq in Hb. subst b. f_equal. exact (IH Hs).
Qed.

Lemma all_char_In (c : ascii) (s : string) (x : ascii) :
  Py.all_char c s = true -> In x (list_ascii_of_string s) -> x = c.
Proof.
  induction s as [|b s IH]; simpl; [tauto|].
  intros H. apply andb_prop in H as [Hb Hs].
  apply Ascii.eqb_eq in Hb. intros [<-|Hin]; [exact Hb | exact (IH Hs Hin)].
Qed.

(** ** The closing fence *)

(** What [_is_close_fence] tests. *)
Lemma is_close_fence_spec (stripped : string) (ind : nat)
  (f : Scanner.DirectiveFrame) :
  Scanner._is_close_fence stripped ind f = true <->
  stripped <> EmptyString
  /\ Py.all_char (Scanner.fence_char f) stripped = true
  /\ Scanner.fence_count f <= Py.len stripped
  /\ ind <= Scanner.indent f.
Proof.
  unfold Scanner._is_close_fence.
  destruct stripped as [|c0 t];
    [split; [discriminate | intros [H _]; congruence]|].
  set (s := String c0 t).
  assert (Hhead : Ascii.eqb c0 (Scanner.fence_char f) = false ->
                  Py.all_char (Scanner.fence_char f) s = false).
  { intros E. subst s. simpl. rewrite E. reflexivity. }
  destruct (Ascii.eqb c0 (Scanner.fence_char f)) eqn:E0; cbn [negb].
  2: { split; [discriminate|]. intros (_ & H & _).
       rewrite Hhead in H by reflexivity. discriminate. }
  destruct (Py.all_char (Scanner.fence_char f) s) eqn:Ea; cbn [negb].
  2: { split; [discriminate | intros (_ & H & _); discriminate]. }
  destruct (Py.len s <? Scanner.fence_count f) eqn:El.
  { apply Nat.ltb_lt in El. split; [discriminate|]. intros (_ & _ & H & _). lia. }
  apply Nat.ltb_ge in El.
  destruct (Scanner.indent f <? ind) eqn:Ei.
  { apply Nat.ltb_lt in Ei. split; [discriminate|]. intros (_ & _ & _ & H). lia. }
  apply Nat.ltb_ge in Ei.
  split; [intros _ | reflexivity].
  repeat split; [subst s; discriminate | assumption | assumption].
Qed.

(** A line that passes [_is_close_fence] is, once stripped of whitespace
    on both sides, the fence character alone. *)
Lemma close_fence_line (line : string) (f : Scanner.DirectiveFrame) :
  Scanner._is_close_fence (Py.lstrip line)
    (Py.len line - Py.len (Py.lstrip line)) f = true ->
  Py.strip line = Py.lstrip line
  /\ Py.all_char (Scanner.fence_char f) (Py.strip line) = true
  /\ Scanner.fence_count f <= Py.len (Py.strip line)
  /\ Py.len line - Py.len (Py.lstrip line) <= Scanner.indent f.
Proof.
  intros H. apply is_close_fence_spec in H as (Hne & Hall & Hlen & Hind).
  assert (Hs : Py.strip line = Py.lstrip line).
  { unfold Py.strip, Py.rstrip, Py.lstrip in *.
    destruct (Py.lstrip_by Py.is_space line) as [|c0 t] eqn:E; [congruence|].
    assert (Hc0 : Py.is_space c0 = false) by exact (lstrip_by_head _ _ _ _ E).
    assert (Hc : c0 = Scanner.fence_char f).
    { apply (all_char_In _ _ _ Hall). simpl. now left. }
    subst c0.
    rewrite (rstrip_by_fixed_of_lstrip Py.is_space line).
    - exact E.
    - rewrite E. discriminate.
    - rewrite E.
      apply rstrip_by_all_char with (c := Scanner.fence_char f); assumption. }
  rewrite Hs. auto.
Qed.

(** ** Outcomes *)

Lemma bind_Ok (A B : Type) (m : result A) (f : A -> result B) (b : B) :
  bind m f = Ok b -> exists a, m = Ok a /\ f a = Ok b.
Proof. destruct m; simpl; intros H; [eauto | discriminate | discriminate]. Qed.

Ltac bind_inv H :=
  let a := fresh "a" in
  let Ha := fresh "Ha" in
  apply bind_Ok in H; destruct H as (a & Ha & H).

Ltac ok_inv H := injection H as H; try subst.

(** ** How one line changes the stack of open frames *)

Section StackChange.

Variable transform_fn : Scanner.DirectiveFrame -> list string.
Variable inline_fn : option (string -> result string).

Lemma inside_directive_stack (st st' : Scanner.state)
  (f : Scanner.DirectiveFrame) (below : list Scanner.DirectiveFrame)
  (line : string) :
  Scanner.inside_directive st f below line = Ok st' ->
  Scanner.stack st = f :: below ->
  exists f', Scanner.stack st' = f' :: below.
Proof.
  unfold Scanner.inside_directive. intros H Hst.
  destruct (Scanner.in_options st).
  - destruct (Re.re_match Scanner.OPTION_RE _).
    + bind_inv H. bind_inv H. ok_inv H. simpl. eauto.
    + destruct (Py.is_empty _); ok_inv H; simpl; eauto.
  - ok_inv H. simpl. eauto.
Qed.

(** A step shortens the stack only through [_is_close_fence] on its top. *)
Lemma scan_line_pops_on_close_fence (st st' : Scanner.state)
  (f : Scanner.DirectiveFrame) (below : list Scanner.DirectiveFrame)
  (line : string) :
  Scanner.stack st = f :: below ->
  Scanner.scan_line transform_fn inline_fn st line = Ok st' ->
  length (Scanner.stack st') < length (Scanner.stack st) ->
  Scanner._is_close_fence (Py.lstrip line)
    (Py.len line - Py.len (Py.lstrip line)) f = true.
Proof.
  intros Hst H Hlt. unfold Scanner.scan_line in H.
  assert (Hrest :
    match Scanner.stack st with
    | current :: below0 =>
        if Scanner._is_close_fence (Py.lstrip line)
             (Py.len line - Py.len (Py.lstrip line)) current
        then Ok (Scanner.close_top transform_fn st current below0)
        else Scanner.inside_directive st current below0 line
    | [] => Scanner.outside_directive inline_fn st line
    end = Ok st' ->
    Scanner._is_close_fence (Py.lstrip line)
      (Py.len line - Py.len (Py.lstrip line)) f = true).
  { rewrite Hst.
    destruct (Scanner._is_close_fence _ _ f) eqn:E; [reflexivity|].
    intros H'. destruct (inside_directive_stack _ _ _ _ _ H' Hst) as [f' Hf'].
    rewrite Hst, Hf' in Hlt. simpl in Hlt. lia. }
  destruct (Scanner.open_match line) as [m|].
  - destruct (Scanner.in_regular_code_fence st).
    + exact (Hrest H).
    + bind_inv H. ok_inv H. simpl in Hlt. lia.
  - exact (Hrest H).
Qed.

End StackChange.

(** C1: a line closes the frame on top of the stack only if, stripped of
    whitespace, it is the frame's fence character repeated at least the
    opening length, at an indentation of at most the opener's; a line
    with another character in it, or with fewer characters than the
    opening fence, leaves the frame open. *)
Theorem close_fence_matches_opener
  (transform_fn : Scanner.DirectiveFrame -> list string)
  (inline_fn : option (string -> result string))
  (st st' : Scanner.state) (f : Scanner.DirectiveFrame)
  (below : list Scanner.DirectiveFrame) (line : string) :
  Scanner.stack st = f :: below ->
  Scanner.scan_line transform_fn inline_fn st line = Ok st' ->
  (length (Scanner.stack st') < length (Scanner.stack st) ->
   exists n,
     Py.strip line = Py.repeat_char (Scanner.fence_char f) n
     /\ Scanner.fence_count f <= n
     /\ Py.len line - Py.len (Py.lstrip line) <= Scanner.indent f)
  /\ ((exists c, In c (list_ascii_of_string (Py.strip line))
                 /\ c <> Scanner.fence_char f)
      \/ Py.len (Py.strip line) < Scanner.fence_count f ->
      length (Scanner.stack st) <= length (Scanner.stack st')).
Proof.
  intros Hst H.
  assert (Hclose :
    length (Scanner.stack st') < length (Scanner.stack st) ->
    Py.all_char (Scanner.fence_char f) (Py.strip line) = true
    /\ Scanner.fence_count f <= Py.len (Py.strip line)
    /\ Py.len line - Py.len (Py.lstrip line) <= Scanner.indent f).
  { intros Hlt.
    pose proof (scan_line_pops_on_close_fence _ _ _ _ _ _ _ Hst H Hlt) as Hc.
    apply close_fence_line in Hc. destruct Hc as (_ & Ha & Hb & Hd). auto. }
  split.
  - intros Hlt. destruct (Hclose Hlt) as (Hall & Hlen & Hind).
    exists (Py.len (Py.strip line)).
    split; [apply all_char_repeat; exact Hall | split; assumption].
  - intros Hbad.
    destruct (Nat.lt_ge_cases (length (Scanner.stack st'))
                              (length (Scanner.stack st))) as [Hlt|Hge];
      [|exact Hge].
    destruct (Hclose Hlt) as (Hall & Hlen & _).
    destruct Hbad as [(c & Hin & Hneq) | Hshort]; [|lia].
    elim Hneq. exact (all_char_In _ _ _ Hall Hin).
Qed.

(** The closing fence of a note opened with three backticks at
    indentation two. *)
Lemma close_fence_matches_opener_witness :
  exists n,
    Py.strip " ````" = Py.repeat_char "`" n /\ 3 <= n
    /\ Py.len " ````" - Py.len (Py.lstrip " ````") <= 2.
Proof.
  pose (f := Scanner.mkFrame "note" "`" 3 "" [] ["Hello."] 2).
  pose (st := Scanner.mkState [f] [] false false None 0 0).
  pose (st' := Scanner.mkState [] ["::: {.callout-note}"; "Hello."; ":::"]
                 false false None 0 0).
  destruct (close_fence_matches_opener MystToQuarto.transform_directive
              (Some MystToQuarto.transform_inline) st st' f [] " ````"
              eq_refl eq_refl) as [Hpop _].
  apply Hpop. simpl. apply Nat.lt_succ_diag_r.
Defined.

(** ** What a match guarantees *)

Lemma take_length (n : nat) (s : string) :
  String.length (Py.take n s) = Nat.min n (String.length s).
Proof.
  revert s. induction n as [|n IH]; intros [|a s]; simpl; auto.
Qed.

Lemma mentions_In (gs : list nat) (n : nat) :
  Re.mentions gs n = true <-> In n gs.
Proof.
  unfold Re.mentions. rewrite existsb_exists. split.
  - intros (x & Hin & E). apply Nat.eqb_eq in E. now subst.
  - intros H. exists n. split; [assumption | apply Nat.eqb_refl].
Qed.

Lemma rep_loop_inv
  (iter : option ascii -> string -> Re.caps -> Re.cont
          -> option (string * Re.caps))
  (greedy : bool) (min : nat) (k : Re.cont) (ml : nat) (gs : list nat) :
  (forall prev s c k' res, iter prev s c k' = Some res ->
     reaches k' res s c ml gs []) ->
  forall fuel cnt prev s c res,
    Re.rep_loop iter greedy min k fuel cnt prev s c = Some res ->
    reaches k res s c ((min - cnt) * ml) gs [].
Proof.
  intros Hiter.
  assert (Hstop : forall cnt prev s c res,
    (if min <=? cnt then k prev s c else None) = Some res ->
    reaches k res s c ((min - cnt) * ml) gs []).
  { intros cnt prev s c res H.
    destruct (min <=? cnt) eqn:E; [|discriminate].
    apply Nat.leb_le in E. exists prev, s, c.
    replace (min - cnt) with 0 by lia. simpl.
    repeat split; [assumption | lia | intros n w []]. }
  induction fuel as [|fuel IH]; intros cnt prev s c res H.
  - simpl in H. destruct greedy.
    + apply (Hstop cnt prev). exact H.
    + destruct (if min <=? cnt then k prev s c else None) eqn:E;
        [|discriminate].
      apply (Hstop cnt prev). congruence.
  - assert (Hagain :
      iter prev s c (fun prev' s' c' =>
        if String.length s' <? String.length s
        then Re.rep_loop iter greedy min k fuel (S cnt) prev' s' c'
        else None) = Some res ->
      reaches k res s c ((min - cnt) * ml) gs []).
    { intros Hi. apply Hiter in Hi.
      destruct Hi as (p1 & s1 & c1 & Hk & Hlen & Hfr & _).
      destruct (String.length s1 <? String.length s); [|discriminate].
      apply IH in Hk.
      destruct Hk as (p2 & s2 & c2 & Hk2 & Hlen2 & Hfr2 & _).
      exists p2, s2, c2. repeat split.
      - exact Hk2.
      - assert ((min - cnt) * ml <= (min - S cnt) * ml + ml) by nia. lia.
      - intros n Hn. rewrite (Hfr2 n Hn). exact (Hfr n Hn).
      - intros n w []. }
    simpl in H. destruct greedy.
    + match type of H with
      | match ?x with _ => _ end = _ => destruct x eqn:E
      end.
      * apply Hagain. congruence.
      * apply (Hstop cnt prev). exact H.
    + destruct (if min <=? cnt then k prev s c else None) eqn:E.
      * apply (Hstop cnt prev). congruence.
      * apply Hagain. exact H.
Qed.

Lemma holds_nil (c : Re.caps) : Re.holds [] c.
Proof. intros n w []. Qed.

Lemma rx_inv (r : Re.regex) :
  forall prev s c k res,
    Re.rx r prev s c k = Some res ->
    reaches k res s c (Re.min_len r) (Re.groups_in r) (Re.must r).
Proof.
  induction r as [|p|r1 IH1 r2 IH2|r1 IH1 r2 IH2|g min r1 IH1|n r1 IH1| | |p|r1 IH1];
    intros prev s c k res H; simpl in H.
  - exists prev, s, c. simpl. repeat split; auto using holds_nil; lia.
  - destruct s as [|a t]; [discriminate|].
    destruct (p a); [|discriminate].
    exists (Some a), t, c. simpl. repeat split; auto using holds_nil; lia.
  - apply IH1 in H. destruct H as (p1 & s1 & c1 & H & Hl1 & Hf1 & Hh1).
    apply IH2 in H. destruct H as (p2 & s2 & c2 & H & Hl2 & Hf2 & Hh2).
    exists p2, s2, c2. simpl. repeat split.
    + exact H.
    + lia.
    + intros n Hn. rewrite in_app_iff in Hn.
      rewrite Hf2 by tauto. apply Hf1. tauto.
    + intros n w Hin. apply in_app_iff in Hin. destruct Hin as [Hin|Hin].
      * apply filter_In in Hin. destruct Hin as [Hin Hno].
        apply negb_true_iff in Hno. simpl in Hno.
        rewrite Hf2; [exact (Hh1 n w Hin)|].
        intros Hm. apply mentions_In in Hm. congruence.
      * exact (Hh2 n w Hin).
  - destruct (Re.rx r1 prev s c k) eqn:E.
    + apply IH1 in E. destruct E as (p1 & s1 & c1 & E & Hl & Hf & _).
      exists p1, s1, c1. simpl. repeat split.
      * congruence.
      * lia.
      * intros n Hn. rewrite in_app_iff in Hn. apply Hf. tauto.
      * apply holds_nil.
    + apply IH2 in H. destruct H as (p1 & s1 & c1 & E' & Hl & Hf & _).
      exists p1, s1, c1. simpl. repeat split.
      * exact E'.
      * lia.
      * intros n Hn. rewrite in_app_iff in Hn. apply Hf. tauto.
      * apply holds_nil.
  - apply (rep_loop_inv _ g min k (Re.min_len r1) (Re.groups_in r1)) in H.
    + destruct H as (p1 & s1 & c1 & H & Hl & Hf & _).
      exists p1, s1, c1. simpl. rewrite Nat.sub_0_r in Hl.
      repeat split; auto using holds_nil.
    + intros prev0 s0 c0 k' res0 H0. apply IH1 in H0.
      destruct H0 as (p1 & s1 & c1 & H0 & Hl & Hf & _).
      exists p1, s1, c1. repeat split; auto using holds_nil.
  - apply IH1 in H. destruct H as (p1 & s1 & c1 & H & Hl & Hf & Hh).
    exists p1, s1, ((n, Py.take (String.length s - String.length s1) s) :: c1).
    simpl. repeat split.
    + exact H.
    + exact Hl.
    + intros m Hm. simpl.
      destruct (m =? n) eqn:E;
        [apply Nat.eqb_eq in E; subst m; elim Hm; now left|].
      apply Hf. intros Hin. apply Hm. now right.
    + intros m w [Heq|Hin].
      * injection Heq as <- <-. simpl. rewrite Nat.eqb_refl.
        eexists. split; [reflexivity|]. rewrite take_length. lia.
      * apply filter_In in Hin. destruct Hin as [Hin Hne].
        apply negb_true_iff in Hne. simpl in Hne. simpl. rewrite Hne.
        exact (Hh m w Hin).
  - destruct prev; [discriminate|].
    exists None, s, c. simpl. repeat split; auto using holds_nil; lia.
  - exists prev, s, c. simpl.
    assert (k prev s c = Some res).
    { destruct s as [|a [|b t]]; [exact H | | discriminate].
      destruct (Ascii.eqb a Py.newline); [exact H | discriminate]. }
    repeat split; auto using holds_nil; lia.
  - exists prev, s, c. simpl.
    assert (k prev s c = Some res).
    { destruct prev as [a|]; [|exact H].
      destruct (p a); [discriminate | exact H]. }
    repeat split; auto using holds_nil; lia.
  - destruct (Re.rx r1 prev s c Re.accept); [discriminate|].
    exists prev, s, c. simpl. repeat split; auto using holds_nil; lia.
Qed.

(** ** The bound on the iterations of a repetition is never reached

    A repetition is run with as much fuel as the remaining text is long;
    any larger amount gives the same match, so no iteration that could
    consume a character is cut off. *)

Lemma agrees_below_weaken (n m : nat) (k1 k2 : Re.cont) :
  m <= n -> agrees_below n k1 k2 -> agrees_below m k1 k2.
Proof. intros Hle H p s c Hs. apply H. lia. Qed.

Lemma rep_loop_ext
  (iter : option ascii -> string -> Re.caps -> Re.cont
          -> option (string * Re.caps))
  (greedy : bool) (min : nat) (k1 k2 : Re.cont) :
  (forall p s c j1 j2, agrees_below (String.length s) j1 j2 ->
     iter p s c j1 = iter p s c j2) ->
  forall fuel cnt prev s c,
    agrees_below (String.length s) k1 k2 ->
    Re.rep_loop iter greedy min k1 fuel cnt prev s c
    = Re.rep_loop iter greedy min k2 fuel cnt prev s c.
Proof.
  intros Hiter. induction fuel as [|fuel IH]; intros cnt prev s c Hk; simpl.
  - rewrite (Hk prev s c (le_n _)). reflexivity.
  - rewrite (Hk prev s c (le_n _)).
    rewrite (Hiter prev s c
               (fun prev' s' c' =>
                  if String.length s' <? String.length s
                  then Re.rep_loop iter greedy min k1 fuel (S cnt) prev' s' c'
                  else None)
               (fun prev' s' c' =>
                  if String.length s' <? String.length s
                  then Re.rep_loop iter greedy min k2 fuel (S cnt) prev' s' c'
                  else None)).
    + reflexivity.
    + intros p' s' c' Hs'.
      destruct (String.length s' <? String.length s); [|reflexivity].
      apply IH. apply (agrees_below_weaken (String.length s)); assumption.
Qed.

Lemma rx_ext (r : Re.regex) :
  forall prev s c k1 k2,
    agrees_below (String.length s) k1 k2 ->
    Re.rx r prev s c k1 = Re.rx r prev s c k2.
Proof.
  induction r as [|p|r1 IH1 r2 IH2|r1 IH1 r2 IH2|g min r1 IH1|n r1 IH1| | |p|r1 IH1];
    intros prev s c k1 k2 Hk; simpl.
  - apply Hk. apply le_n.
  - destruct s as [|a t]; [reflexivity|].
    destruct (p a); [|reflexivity]. apply Hk. simpl. lia.
  - apply IH1. intros p' s' c' Hs'. apply IH2.
    apply (agrees_below_weaken (String.length s)); assumption.
  - rewrite (IH1 prev s c k1 k2 Hk), (IH2 prev s c k1 k2 Hk). reflexivity.
  - apply rep_loop_ext; [|exact Hk].
    intros p' s' c' j1 j2 Hj. apply IH1. exact Hj.
  - apply IH1. intros p' s' c' Hs'. apply Hk. exact Hs'.
  - destruct prev; [reflexivity|]. apply Hk. apply le_n.
  - destruct s as [|a [|b t]]; [apply Hk; apply le_n | | reflexivity].
    destruct (Ascii.eqb a Py.newline); [|reflexivity]. apply Hk. apply le_n.
  - destruct prev as [a|]; [destruct (p a); [reflexivity|]|];
      apply Hk; apply le_n.
  - destruct (Re.rx r1 prev s c Re.accept); [reflexivity|].
    apply Hk. apply le_n.
Qed.

(** A match reaches its continuation: with one that always fails, it
    fails. *)
Lemma rx_fails (r : Re.regex) (prev : option ascii) (s : string)
  (c : Re.caps) :
  Re.rx r prev s c (fun _ _ _ => None) = None.
Proof.
  destruct (Re.rx r prev s c (fun _ _ _ => None)) as [res|] eqn:E;
    [|reflexivity].
  apply rx_inv in E. destruct E as (p1 & s1 & c1 & E & _). discriminate E.
Qed.

Lemma rep_loop_fuel (r : Re.regex) (greedy : bool) (min : nat) (k : Re.cont) :
  forall fuel1 fuel2 cnt prev s c,
    String.length s <= fuel1 -> String.length s <= fuel2 ->
    Re.rep_loop (fun p' s' c' k' => Re.rx r p' s' c' k') greedy min k
      fuel1 cnt prev s c
    = Re.rep_loop (fun p' s' c' k' => Re.rx r p' s' c' k') greedy min k
        fuel2 cnt prev s c.
Proof.
  assert (Hdry : forall fuel cnt prev s c,
    String.length s = 0 ->
    Re.rep_loop (fun p' s' c' k' => Re.rx r p' s' c' k') greedy min k
      fuel cnt prev s c
    = Re.rep_loop (fun p' s' c' k' => Re.rx r p' s' c' k') greedy min k
        0 cnt prev s c).
  { intros [|fuel] cnt prev s c Hs; [reflexivity|]. simpl.
    rewrite (rx_ext r prev s c _ (fun _ _ _ => None)).
    - rewrite rx_fails. reflexivity.
    - intros p' s' c' _. rewrite Hs. reflexivity. }
  induction fuel1 as [|fuel1 IH]; intros fuel2 cnt prev s c H1 H2.
  - symmetry. apply Hdry. lia.
  - destruct fuel2 as [|fuel2]; [apply Hdry; lia|]. simpl.
    rewrite (rx_ext r prev s c
               (fun prev' s' c' =>
                  if String.length s' <? String.length s
                  then Re.rep_loop (fun p' s'0 c'0 k' => Re.rx r p' s'0 c'0 k')
                         greedy min k fuel1 (S cnt) prev' s' c'
                  else None)
               (fun prev' s' c' =>
                  if String.length s' <? String.length s
                  then Re.rep_loop (fun p' s'0 c'0 k' => Re.rx r p' s'0 c'0 k')
                         greedy min k fuel2 (S cnt) prev' s' c'
                  else None)).
    + reflexivity.
    + intros p' s' c' _.
      destruct (String.length s' <? String.length s) eqn:E; [|reflexivity].
      apply Nat.ltb_lt in E. apply IH; lia.
Qed.

(** The match of a repetition does not depend on the fuel, once it is
    the length of the text at least. *)
Lemma repetition_fuel_is_enough (r : Re.regex) (greedy : bool) (min : nat)
  (k : Re.cont) (fuel : nat) (prev : option ascii) (s : string) (c : Re.caps) :
  String.length s <= fuel ->
  Re.rx (Re.Rep greedy min r) prev s c k
  = Re.rep_loop (fun p' s' c' k' => Re.rx r p' s' c' k') greedy min k
      fuel 0 prev s c.
Proof.
  intros H. simpl. apply rep_loop_fuel; [apply le_n | exact H].
Qed.

(** In every pattern of the program the repeated sub-patterns consume a
    character at least, and a substituted pattern matches no empty text:
    the matcher's stop at an iteration that consumes nothing, and the
    empty-match case of [sub_from], are never met. *)
Lemma program_patterns_consume :
  forallb Re.reps_consume (substituted_patterns ++ matched_patterns) = true
  /\ forallb (fun r => 1 <=? Re.min_len r) substituted_patterns = true.
Proof. split; vm_compute; reflexivity. Qed.

(** ** What a match consumes *)

Lemma append_nil_r (s : string) : (s ++ "")%string = s.
Proof. induction s as [|a s IH]; simpl; [reflexivity | now rewrite IH]. Qed.

Lemma append_assoc (s1 s2 s3 : string) :
  ((s1 ++ s2) ++ s3)%string = (s1 ++ s2 ++ s3)%string.
Proof. induction s1 as [|a s1 IH]; simpl; [reflexivity | now rewrite IH]. Qed.

Lemma append_length (s1 s2 : string) :
  String.length (s1 ++ s2) = String.length s1 + String.length s2.
Proof. induction s1 as [|a s1 IH]; simpl; [reflexivity | now rewrite IH]. Qed.

Lemma take_append (w s : string) :
  Py.take (String.length (w ++ s) - String.length s) (w ++ s) = w.
Proof.
  rewrite append_length.
  replace (String.length w + String.length s - String.length s)
    with (String.length w) by lia.
  induction w as [|a w IH]; simpl; [destruct s; reflexivity | now rewrite IH].
Qed.

Lemma holds_re_nil (c : Re.caps) : Re.holds_re [] c.
Proof. intros n rn []. Qed.

Lemma rep_loop_sound
  (iter : option ascii -> string -> Re.caps -> Re.cont
          -> option (string * Re.caps))
  (greedy : bool) (min : nat) (k : Re.cont) (L : string -> Prop)
  (gs : list nat) :
  (forall prev s c k' res, iter prev s c k' = Some res ->
     consumes k' res s c L gs []) ->
  forall fuel cnt prev s c res,
    Re.rep_loop iter greedy min k fuel cnt prev s c = Some res ->
    consumes k res s c (fun w => exists ws, w = Re.flat ws /\ Forall L ws)
             gs [].
Proof.
  intros Hiter.
  assert (Hstop : forall cnt prev s c res,
    (if min <=? cnt then k prev s c else None) = Some res ->
    consumes k res s c (fun w => exists ws, w = Re.flat ws /\ Forall L ws)
             gs []).
  { intros cnt prev s c res H.
    destruct (min <=? cnt); [|discriminate].
    exists "", prev, s, c. repeat split; auto using holds_re_nil.
    exists []. split; [reflexivity | constructor]. }
  induction fuel as [|fuel IH]; intros cnt prev s c res H.
  - simpl in H. destruct greedy.
    + apply (Hstop cnt prev). exact H.
    + destruct (if min <=? cnt then k prev s c else None) eqn:E;
        [|discriminate].
      apply (Hstop cnt prev). congruence.
  - assert (Hagain :
      iter prev s c (fun prev' s' c' =>
        if String.length s' <? String.length s
        then Re.rep_loop iter greedy min k fuel (S cnt) prev' s' c'
        else None) = Some res ->
      consumes k res s c (fun w => exists ws, w = Re.flat ws /\ Forall L ws)
               gs []).
    { intros Hi. apply Hiter in Hi.
      destruct Hi as (w1 & p1 & s1 & c1 & Hs & Hw1 & Hk & Hfr & _).
      destruct (String.length s1 <? String.length s); [|discriminate].
      apply IH in Hk.
      destruct Hk as (w2 & p2 & s2 & c2 & Hs2 & (ws & Hws & Hall) & Hk2 & Hfr2 & _).
      exists (w1 ++ w2)%string, p2, s2, c2. repeat split.
      - rewrite append_assoc, <- Hs2. exact Hs.
      - exists (w1 :: ws). split; [simpl; now rewrite Hws | now constructor].
      - exact Hk2.
      - intros n Hn. rewrite (Hfr2 n Hn). exact (Hfr n Hn).
      - apply holds_re_nil. }
    simpl in H. destruct greedy.
    + match type of H with
      | match ?x with _ => _ end = _ => destruct x eqn:E
      end.
      * apply Hagain. congruence.
      * apply (Hstop cnt prev). exact H.
    + destruct (if min <=? cnt then k prev s c else None) eqn:E.
      * apply (Hstop cnt prev). congruence.
      * apply Hagain. exact H.
Qed.

(** A match consumes a text of the pattern, and sets the groups of
    [must_re] to texts of their sub-patterns. *)
Lemma rx_sound (r : Re.regex) :
  forall prev s c k res,
    Re.rx r prev s c k = Some res ->
    consumes k res s c (Re.lang r) (Re.groups_in r) (Re.must_re r).
Proof.
  induction r as [|p|r1 IH1 r2 IH2|r1 IH1 r2 IH2|g min r1 IH1|n r1 IH1| | |p|r1 IH1];
    intros prev s c k res H; simpl in H.
  - exists "", prev, s, c. simpl. repeat split; auto using holds_re_nil.
  - destruct s as [|a t]; [discriminate|].
    destruct (p a) eqn:E; [|discriminate].
    exists (String a ""), (Some a), t, c. simpl.
    repeat split; eauto using holds_re_nil.
  - apply IH1 in H. destruct H as (w1 & p1 & s1 & c1 & Hs1 & Hw1 & H & Hf1 & Hh1).
    apply IH2 in H. destruct H as (w2 & p2 & s2 & c2 & Hs2 & Hw2 & H & Hf2 & Hh2).
    exists (w1 ++ w2)%string, p2, s2, c2. simpl. repeat split.
    + rewrite append_assoc, <- Hs2. exact Hs1.
    + exists w1, w2. auto.
    + exact H.
    + intros n Hn. rewrite in_app_iff in Hn.
      rewrite Hf2 by tauto. apply Hf1. tauto.
    + intros n rn Hin. apply in_app_iff in Hin. destruct Hin as [Hin|Hin].
      * apply filter_In in Hin. destruct Hin as [Hin Hno].
        apply negb_true_iff in Hno. simpl in Hno.
        rewrite Hf2; [exact (Hh1 n rn Hin)|].
        intros Hm. apply mentions_In in Hm. congruence.
      * exact (Hh2 n rn Hin).
  - destruct (Re.rx r1 prev s c k) eqn:E.
    + apply IH1 in E. destruct E as (w1 & p1 & s1 & c1 & Hs & Hw & E & Hf & _).
      exists w1, p1, s1, c1. simpl. repeat split.
      * exact Hs.
      * now left.
      * congruence.
      * intros n Hn. rewrite in_app_iff in Hn. apply Hf. tauto.
      * apply holds_re_nil.
    + apply IH2 in H. destruct H as (w1 & p1 & s1 & c1 & Hs & Hw & E' & Hf & _).
      exists w1, p1, s1, c1. simpl. repeat split.
      * exact Hs.
      * now right.
      * exact E'.
      * intros n Hn. rewrite in_app_iff in Hn. apply Hf. tauto.
      * apply holds_re_nil.
  - apply (rep_loop_sound _ g min k (Re.lang r1) (Re.groups_in r1)) in H.
    + exact H.
    + intros prev0 s0 c0 k' res0 H0. apply IH1 in H0.
      destruct H0 as (w1 & p1 & s1 & c1 & Hs & Hw & H0 & Hf & _).
      exists w1, p1, s1, c1. repeat split; auto using holds_re_nil.
  - apply IH1 in H. destruct H as (w1 & p1 & s1 & c1 & Hs & Hw & H & Hf & Hh).
    exists w1, p1, s1,
      ((n, Py.take (String.length s - String.length s1) s) :: c1).
    simpl. repeat split.
    + exact Hs.
    + exact Hw.
    + exact H.
    + intros m0 Hm. simpl.
      destruct (m0 =? n) eqn:E;
        [apply Nat.eqb_eq in E; subst m0; elim Hm; now left|].
      apply Hf. intros Hin. apply Hm. now right.
    + intros m0 rn [Heq|Hin].
      * injection Heq as <- <-. simpl. rewrite Nat.eqb_refl.
        eexists. split; [reflexivity|]. rewrite Hs, take_append. exact Hw.
      * apply filter_In in Hin. destruct Hin as [Hin Hne].
        apply negb_true_iff in Hne. simpl in Hne. simpl. rewrite Hne.
        exact (Hh m0 rn Hin).
  - destruct prev; [discriminate|].
    exists "", None, s, c. simpl. repeat split; auto using holds_re_nil.
  - exists "", prev, s, c. simpl.
    assert (k prev s c = Some res).
    { destruct s as [|a [|b t]]; [exact H | | discriminate].
      destruct (Ascii.eqb a Py.newline); [exact H | discriminate]. }
    repeat split; auto using holds_re_nil.
  - exists "", prev, s, c. simpl.
    assert (k prev s c = Some res).
    { destruct prev as [a|]; [|exact H].
      destruct (p a); [discriminate | exact H]. }
    repeat split; auto using holds_re_nil.
  - destruct (Re.rx r1 prev s c Re.accept); [discriminate|].
    exists "", prev, s, c. simpl. repeat split; auto using holds_re_nil.
Qed.

(** In a match of [r], a group of [must_re r] is a text of its
    sub-pattern. *)
Lemma group_lang (r : Re.regex) (prev : option ascii) (s : string)
  (m : Re.rmatch) (n : nat) (rn : Re.regex) :
  Re.match_at r prev s = Some m ->
  In (S n, rn) (Re.must_re r) ->
  exists v, Re.group m (S n) = Some v /\ Re.lang rn v.
Proof.
  unfold Re.match_at. intros H Hin.
  destruct (Re.rx r prev s [] Re.accept) as [[s' c']|] eqn:E; [|discriminate].
  injection H as <-. simpl.
  apply rx_sound in E. destruct E as (w & p1 & s1 & c1 & _ & _ & E & _ & Hh).
  unfold Re.accept in E. injection E as <- <-.
  exact (Hh _ _ Hin).
Qed.

(** A text of a literal pattern is the literal. *)
Lemma lang_lit (p w : string) : Re.lang (Re.lit p) w -> w = p.
Proof.
  revert w. induction p as [|a p IH]; intros w H; simpl in H.
  - exact H.
  - destruct p as [|b p].
    + destruct H as (x & -> & Hx). apply Ascii.eqb_eq in Hx. now subst.
    + destruct H as (w1 & w2 & -> & (x & -> & Hx) & H2).
      apply Ascii.eqb_eq in Hx. subst x. simpl. f_equal. exact (IH _ H2).
Qed.

(** ** Groups that every match sets *)

Lemma match_at_inv (r : Re.regex) (prev : option ascii) (s : string)
  (m : Re.rmatch) :
  Re.match_at r prev s = Some m ->
  String.length (Re.rest m) + Re.min_len r <= String.length s
  /\ Re.whole m
     = Py.take (String.length s - String.length (Re.rest m)) s
  /\ Re.holds (Re.must r) (Re.groups m).
Proof.
  unfold Re.match_at. intros H.
  destruct (Re.rx r prev s [] Re.accept) as [[s' c']|] eqn:E; [|discriminate].
  injection H as <-. simpl.
  apply rx_inv in E. destruct E as (p1 & s1 & c1 & E & Hl & _ & Hh).
  unfold Re.accept in E. injection E as <- <-. auto.
Qed.

(** A group listed by [must] is a [str] in every match, of the listed
    length at least. *)
Lemma group_long (r : Re.regex) (prev : option ascii) (s : string)
  (m : Re.rmatch) (n w : nat) :
  Re.match_at r prev s = Some m ->
  In (S n, w) (Re.must r) ->
  exists v, Re.group_str m (S n) = Ok v /\ w <= String.length v.
Proof.
  intros H Hin. apply match_at_inv in H. destruct H as (_ & _ & Hh).
  destruct (Hh _ _ Hin) as (v & Hv & Hw).
  exists v. unfold Re.group_str, Re.group. rewrite Hv. auto.
Qed.

Lemma group_present (r : Re.regex) (prev : option ascii) (s : string)
  (m : Re.rmatch) (n : nat) :
  Re.match_at r prev s = Some m ->
  Re.mentions (map fst (Re.must r)) (S n) = true ->
  exists v, Re.group_str m (S n) = Ok v.
Proof.
  intros H Hin. apply mentions_In in Hin. apply in_map_iff in Hin.
  destruct Hin as ([n' w] & Hn & Hin). simpl in Hn. subst n'.
  destruct (group_long _ _ _ _ _ _ H Hin) as (v & Hv & _). eauto.
Qed.

(** In the match [Hm], the group [n] is some [v]; rewrite with it. *)
Ltac group_ok Hm n v :=
  let Hv := fresh "Hv" in
  destruct (group_present _ _ _ _ (pred n) Hm eq_refl) as (v & Hv);
  simpl pred in Hv; rewrite Hv; simpl bind.

(** ** The inline rewriters never raise *)

Lemma match_at_rest_shorter (r : Re.regex) (prev : option ascii) (s : string)
  (m : Re.rmatch) (a : ascii) (w : string) :
  Re.match_at r prev s = Some m ->
  Re.whole m = String a w ->
  String.length (Re.rest m) < String.length s.
Proof.
  intros H Hw. apply match_at_inv in H. destruct H as (Hl & Hwhole & _).
  rewrite Hwhole in Hw.
  destruct (String.length s - String.length (Re.rest m)) eqn:E;
    [simpl in Hw; discriminate | lia].
Qed.

Lemma sub_from_ok (r : Re.regex) (repl : Re.rmatch -> result string) :
  (forall prev s m, Re.match_at r prev s = Some m -> exists v, repl m = Ok v) ->
  forall fuel prev s, String.length s <= fuel ->
    exists v, Re.sub_from r repl fuel prev s = Ok v.
Proof.
  intros Hrepl. induction fuel as [|fuel IH]; intros prev s Hlen.
  - destruct s; [|simpl in Hlen; lia]. simpl.
    destruct (Re.match_at r prev "") as [m|] eqn:E; [|eauto].
    destruct (Hrepl _ _ _ E) as (out & Hout). rewrite Hout. simpl.
    destruct (Re.whole m) eqn:Ew; [eauto|].
    pose proof (match_at_rest_shorter _ _ _ _ _ _ E Ew) as Hlt.
    simpl in Hlt. lia.
  - simpl. destruct (Re.match_at r prev s) as [m|] eqn:E.
    + destruct (Hrepl _ _ _ E) as (out & Hout). rewrite Hout. simpl.
      destruct (Re.whole m) eqn:Ew.
      * destruct s as [|a s']; [eauto|].
        destruct (IH (Some a) s') as (tail & Ht); [simpl in Hlen; lia|].
        rewrite Ht. simpl. eauto.
      * pose proof (match_at_rest_shorter _ _ _ _ _ _ E Ew) as Hlt.
        destruct (IH (Re.last_char prev (String a s0)) (Re.rest m))
          as (tail & Ht); [lia|].
        rewrite Ht. simpl. eauto.
    + destruct s as [|a s']; [eauto|].
      destruct (IH (Some a) s') as (tail & Ht); [simpl in Hlen; lia|].
      rewrite Ht. simpl. eauto.
Qed.

Lemma re_sub_ok (r : Re.regex) (repl : Re.rmatch -> result string) (s : string) :
  (forall prev s m, Re.match_at r prev s = Some m -> exists v, repl m = Ok v) ->
  exists v, Re.re_sub r repl s = Ok v.
Proof. intros H. apply sub_from_ok; [exact H | apply le_n]. Qed.

(** [repl] reads group 1 of the matches of [r] and then cannot fail. *)
Ltac repl_ok :=
  let prev := fresh "prev" in
  let s := fresh "s" in
  let m := fresh "m" in
  let Hm := fresh "Hm" in
  let v := fresh "v" in
  intros prev s m Hm;
  match goal with
  | |- exists _, ?f m = Ok _ => unfold f
  end;
  group_ok Hm 1 v.

Lemma transform_inline_ok (line : string) :
  exists v, MystToQuarto.transform_inline line = Ok v.
Proof.
  unfold MystToQuarto.transform_inline.
  destruct (Py.is_empty line); [eauto|].
  destruct (re_sub_ok MystToQuarto._EVAL_RE MystToQuarto._replace_eval line)
    as (r1 & ->); [repl_ok; eauto|]. simpl.
  destruct (re_sub_ok MystToQuarto._CITE_T_RE MystToQuarto._replace_cite_t r1)
    as (r2 & ->); [repl_ok; eauto|]. simpl.
  destruct (re_sub_ok MystToQuarto._CITE_P_RE MystToQuarto._replace_cite_p r2)
    as (r3 & ->).
  { repl_ok. destruct (map Py.strip (Py.split "," v)) as [|? [|? ?]]; eauto. }
  simpl.
  destruct (re_sub_ok MystToQuarto._CITE_RE MystToQuarto._replace_cite r3)
    as (r4 & ->).
  { repl_ok. destruct (map Py.strip (Py.split "," v)) as [|? [|? ?]]; eauto. }
  simpl.
  destruct (re_sub_ok MystToQuarto._NUMREF_RE MystToQuarto._replace_numref r4)
    as (r5 & ->).
  { repl_ok.
    destruct (Re.re_match MystToQuarto.ANGLE_RE (Py.strip v)) as [am|] eqn:Ea;
      [|eauto].
    unfold Re.re_match in Ea. group_ok Ea 1 a. eauto. }
  simpl.
  destruct (re_sub_ok MystToQuarto._REF_RE MystToQuarto._replace_ref r5)
    as (r6 & ->); [repl_ok; eauto|]. simpl.
  destruct (re_sub_ok MystToQuarto._EQ_RE MystToQuarto._replace_eq r6)
    as (r7 & ->); [repl_ok; eauto|]. simpl.
  destruct (re_sub_ok MystToQuarto._DOC_RE MystToQuarto._replace_doc r7)
    as (r8 & ->); [repl_ok; eauto|]. simpl.
  eauto.
Qed.

(** ** The forward scanner never raises *)

Lemma first_char_long (v : string) (w : nat) :
  S w <= String.length v -> exists c, Py.first_char v = Ok c.
Proof. destruct v; simpl; [lia | eauto]. Qed.

Lemma open_frame_ok (line : string) (m : Re.rmatch) :
  Scanner.open_match line = Some m -> exists f, Scanner.open_frame m = Ok f.
Proof.
  unfold Scanner.open_match, Re.re_match.
  assert (H : forall c, Re.match_at (Scanner.fence_open_re c) None line = Some m ->
                        exists f, Scanner.open_frame m = Ok f).
  { intros c Hm. unfold Scanner.open_frame.
    group_ok Hm 1 g1.
    destruct (group_long _ _ _ _ 1 3 Hm) as (g2 & Hg2 & Hlen);
      [simpl; tauto|].
    rewrite Hg2. simpl bind.
    group_ok Hm 3 g3. group_ok Hm 4 g4.
    destruct (first_char_long g2 2 Hlen) as (ch & ->). simpl. eauto. }
  destruct (Re.match_at Scanner.BACKTICK_OPEN_RE None line) eqn:E.
  - intros Hm. injection Hm as ->. exact (H _ E).
  - intros Hm. exact (H _ Hm).
Qed.

Section ScanTotal.

Variable transform_fn : Scanner.DirectiveFrame -> list string.
Variable inline_fn : option (string -> result string).
Hypothesis inline_total :
  forall f, inline_fn = Some f -> forall line, exists v, f line = Ok v.

Lemma inside_directive_ok (st : Scanner.state) (f : Scanner.DirectiveFrame)
  (below : list Scanner.DirectiveFrame) (line : string) :
  fence_known st ->
  exists st', Scanner.inside_directive st f below line = Ok st'
              /\ fence_known st'.
Proof.
  intros Hinv. unfold Scanner.inside_directive.
  destruct (Scanner.in_options st).
  - destruct (Re.re_match Scanner.OPTION_RE _) as [m|] eqn:E.
    + unfold Re.re_match in E. group_ok E 1 key. group_ok E 2 val.
      eexists. split; [reflexivity | exact Hinv].
    + destruct (Py.is_empty _); eexists; (split; [reflexivity | exact Hinv]).
  - eexists. split; [reflexivity | exact Hinv].
Qed.

Lemma open_regular_ok (r : Re.regex) (st : Scanner.state) (m : Re.rmatch)
  (line : string) :
  Re.re_match r line = Some m ->
  Re.mentions (map fst (Re.must r)) 1 = true ->
  In (2, 3) (Re.must r) ->
  exists st', Scanner.open_regular st m line = Ok st' /\ fence_known st'.
Proof.
  intros Hm H1 H2. unfold Scanner.open_regular.
  destruct (group_present _ _ _ _ 0 Hm H1) as (g1 & ->). simpl bind.
  destruct (group_long _ _ _ _ 1 3 Hm H2) as (g2 & -> & Hlen). simpl bind.
  destruct (first_char_long g2 2 Hlen) as (ch & ->). simpl.
  eexists. split; [reflexivity|]. intros _. simpl. discriminate.
Qed.

Lemma regular_line_ok (st : Scanner.state) (line : string) :
  fence_known st ->
  exists st', Scanner.regular_line inline_fn st line = Ok st'
              /\ fence_known st'.
Proof.
  intros Hinv. unfold Scanner.regular_line.
  destruct inline_fn as [f|] eqn:E.
  - destruct (inline_total f eq_refl line) as (v & ->). simpl.
    eexists. split; [reflexivity | exact Hinv].
  - eexists. split; [reflexivity | exact Hinv].
Qed.

Lemma regular_fence_closes_ok (st : Scanner.state) (line : string) :
  Scanner.regular_fence_char st <> None ->
  exists b, Scanner.regular_fence_closes st line = Ok b.
Proof.
  intros Hc. unfold Scanner.regular_fence_closes.
  destruct (Scanner.regular_fence_char st) as [c|]; [|congruence].
  destruct (Re.re_match (Scanner.regular_close_re c) line) as [m|] eqn:E;
    [|eauto].
  unfold Re.re_match in E. group_ok E 2 g2. group_ok E 1 g1. eauto.
Qed.

Lemma outside_directive_ok (st : Scanner.state) (line : string) :
  fence_known st ->
  exists st', Scanner.outside_directive inline_fn st line = Ok st'
              /\ fence_known st'.
Proof.
  intros Hinv. unfold Scanner.outside_directive.
  destruct (Scanner.in_regular_code_fence st) eqn:Ef; simpl negb; cbv iota.
  - destruct (regular_fence_closes_ok st line (Hinv Ef)) as (b & ->).
    simpl. eexists. split; [reflexivity|].
    destruct b; unfold fence_known; simpl; [discriminate|].
    intros _. exact (Hinv Ef).
  - destruct (Re.re_match Scanner.REGULAR_FENCE_RE line) as [m|] eqn:E.
    + apply (open_regular_ok _ _ _ _ E); [reflexivity | simpl; tauto].
    + destruct (Re.re_match Scanner.REGULAR_FENCE_LANG_RE line) as [m|] eqn:E2.
      * apply (open_regular_ok _ _ _ _ E2); [reflexivity | simpl; tauto].
      * apply regular_line_ok. exact Hinv.
Qed.

Lemma scan_line_ok (st : Scanner.state) (line : string) :
  fence_known st ->
  exists st', Scanner.scan_line transform_fn inline_fn st line = Ok st'
              /\ fence_known st'.
Proof.
  intros Hinv. unfold Scanner.scan_line.
  assert (Hrest : exists st',
    match Scanner.stack st with
    | current :: below =>
        if Scanner._is_close_fence (Py.lstrip line)
             (Py.len line - Py.len (Py.lstrip line)) current
        then Ok (Scanner.close_top transform_fn st current below)
        else Scanner.inside_directive st current below line
    | [] => Scanner.outside_directive inline_fn st line
    end = Ok st' /\ fence_known st').
  { destruct (Scanner.stack st) as [|current below].
    - apply outside_directive_ok. exact Hinv.
    - destruct (Scanner._is_close_fence _ _ current).
      + eexists. split; [reflexivity|].
        unfold Scanner.close_top. destruct below; exact Hinv.
      + apply inside_directive_ok. exact Hinv. }
  destruct (Scanner.open_match line) as [m|] eqn:E; [|exact Hrest].
  destruct (Scanner.in_regular_code_fence st) eqn:Ef; [exact Hrest|].
  destruct (open_frame_ok _ _ E) as (f & ->). simpl.
  eexists. split; [reflexivity|].
  unfold fence_known. simpl. rewrite Ef. discriminate.
Qed.

Lemma scan_lines_ok (lines : list string) :
  forall st, fence_known st ->
    exists st', Scanner.scan_lines transform_fn inline_fn st lines = Ok st'.
Proof.
  induction lines as [|line rest IH]; intros st Hinv; simpl; [eauto|].
  destruct (scan_line_ok st line Hinv) as (st1 & -> & Hinv1). simpl.
  apply IH. exact Hinv1.
Qed.

Lemma scan_ok (t : string) :
  exists out, Scanner.scan transform_fn inline_fn t = Ok out.
Proof.
  unfold Scanner.scan.
  destruct (scan_lines_ok (Py.split Py.newline t) Scanner.init) as (st & ->).
  - intros H. discriminate H.
  - simpl. eauto.
Qed.

End ScanTotal.

Lemma convert_myst_to_quarto_ok (t : string) :
  exists out, MystToQuarto.convert_myst_to_quarto t = Ok out.
Proof.
  apply scan_ok. intros f Hf line. injection Hf as <-.
  apply transform_inline_ok.
Qed.

(** ** The reverse scanner never raises *)

Lemma split_not_nil (sep : ascii) (s : string) : Py.split sep s <> [].
Proof.
  induction s as [|a s IH]; simpl; [discriminate|].
  destruct (Ascii.eqb a sep); [discriminate|].
  destruct (Py.split sep s); discriminate.
Qed.

Lemma last_item_ok (A : Type) (l : list A) :
  l <> [] -> exists x, Py.last_item l = Ok x.
Proof.
  intros H. unfold Py.last_item.
  destruct (rev l) eqn:E; [|eauto].
  apply (f_equal (@rev A)) in E. rewrite rev_involutive in E. contradiction.
Qed.

Lemma pop_last (A : Type) (l : list A) (x : A) :
  Py.pop (l ++ [x]) = Ok (x, l).
Proof.
  unfold Py.pop. rewrite rev_app_distr. simpl. now rewrite rev_involutive.
Qed.

(** Popping as many lines as [tail] has removes exactly [tail]. *)
Lemma pop_n_app (tail out : list string) :
  QuartoToMyst.pop_n (length tail) (out ++ tail) = Ok out.
Proof.
  induction tail as [|x tail IH] using rev_ind; simpl.
  - now rewrite app_nil_r.
  - rewrite length_app. simpl. rewrite Nat.add_1_r. simpl.
    rewrite app_assoc, pop_last. simpl. exact IH.
Qed.

Lemma pop_n_ok (n : nat) (out : list string) :
  n <= length out -> exists out', QuartoToMyst.pop_n n out = Ok out'.
Proof.
  intros H.
  assert (Hsplit : exists h t, out = h ++ t /\ length t = n).
  { exists (firstn (length out - n) out), (skipn (length out - n) out).
    split; [symmetry; apply firstn_skipn | rewrite length_skipn; lia]. }
  destruct Hsplit as (h & t & -> & <-). exists h. apply pop_n_app.
Qed.

Lemma search_from_match (r : Re.regex) (s : string) :
  forall prev m, Re.search_from r prev s = Some m ->
    exists prev' s', Re.match_at r prev' s' = Some m.
Proof.
  induction s as [|a s IH]; intros prev m; simpl.
  - destruct (Re.match_at r prev "") eqn:E; [|discriminate].
    intros H. injection H as <-. eauto.
  - destruct (Re.match_at r prev (String a s)) eqn:E.
    + intros H. injection H as <-. eauto.
    + apply IH.
Qed.

Lemma transform_quarto_inline_ok (line : string) :
  exists v, QuartoToMyst.transform_quarto_inline line = Ok v.
Proof.
  unfold QuartoToMyst.transform_quarto_inline.
  destruct (Py.is_empty line); [eauto|].
  destruct (re_sub_ok QuartoToMyst._INLINE_CODE_RE
              QuartoToMyst._replace_inline_code line)
    as (r1 & ->); [repl_ok; eauto|]. simpl.
  destruct (re_sub_ok QuartoToMyst._MULTI_CITE_RE
              QuartoToMyst._replace_multi_cite r1)
    as (r2 & ->); [repl_ok; eauto|]. simpl.
  destruct (re_sub_ok QuartoToMyst._SINGLE_CITE_RE
              QuartoToMyst._replace_single_cite r2)
    as (r3 & ->); [repl_ok; eauto|]. simpl.
  destruct (re_sub_ok QuartoToMyst._FIG_REF_RE QuartoToMyst._replace_fig_ref r3)
    as (r4 & ->); [repl_ok; eauto|]. simpl.
  destruct (re_sub_ok QuartoToMyst._EQ_REF_RE QuartoToMyst._replace_eq_ref r4)
    as (r5 & ->); [repl_ok; eauto|]. simpl.
  destruct (re_sub_ok QuartoToMyst._TBL_REF_RE QuartoToMyst._replace_tbl_ref r5)
    as (r6 & ->); [repl_ok; eauto|]. simpl.
  destruct (re_sub_ok QuartoToMyst._SEC_REF_RE QuartoToMyst._replace_sec_ref r6)
    as (r7 & ->); [repl_ok; eauto|]. simpl.
  destruct (re_sub_ok QuartoToMyst._BARE_CITE_RE
              QuartoToMyst._replace_bare_cite r7)
    as (r8 & ->); [repl_ok; eauto|]. simpl.
  destruct (re_sub_ok QuartoToMyst._DOC_LINK_RE
              QuartoToMyst._replace_doc_link r8)
    as (r9 & ->).
  { repl_ok. group_ok Hm 2 url.
    destruct (String.eqb v _); [eauto|].
    destruct (last_item_ok _ (Py.split "/" (Py.take (Py.len url - 4) url))
                (split_not_nil _ _)) as (base & ->). simpl.
    destruct (String.eqb v base);
      [eauto | unfold Re.group_str; simpl; eauto]. }
  simpl. eauto.
Qed.

Lemma leading_options_ok (body_lines : list string) :
  forall options, exists r,
    QuartoToMyst.leading_options options body_lines = Ok r.
Proof.
  induction body_lines as [|line rest IH]; intros options; simpl; [eauto|].
  destruct (Re.re_match QuartoToMyst._CELL_OPTION_RE _) as [m|] eqn:E;
    [|eauto].
  unfold Re.re_match in E. group_ok E 1 k. group_ok E 2 v. apply IH.
Qed.

Lemma parse_cell_options_ok (body_lines : list string) :
  exists r, QuartoToMyst._parse_cell_options body_lines = Ok r.
Proof.
  unfold QuartoToMyst._parse_cell_options.
  destruct (leading_options_ok body_lines []) as ([options remaining] & ->).
  simpl. destruct remaining as [|first others]; [eauto|].
  destruct (Py.is_empty _); eauto.
Qed.

Lemma tab_items_ok (body_lines : list string) :
  forall res label body, exists r,
    QuartoToMyst.tab_items body_lines res label body = Ok r.
Proof.
  induction body_lines as [|line rest IH]; intros res label body; simpl;
    [eauto|].
  destruct (Re.re_match QuartoToMyst.HEADING_RE line) as [m|] eqn:E;
    [|apply IH].
  unfold Re.re_match in E. group_ok E 1 g. apply IH.
Qed.

Lemma build_tab_set_ok (body_lines : list string) :
  exists r, QuartoToMyst._build_tab_set body_lines = Ok r.
Proof.
  unfold QuartoToMyst._build_tab_set.
  destruct (tab_items_ok body_lines ["::::{tab-set}"] None []) as (r & ->).
  simpl. eauto.
Qed.

Lemma parse_image_attrs_ok (attr_str : string) :
  exists attrs, QuartoToMyst._parse_image_attrs attr_str = Ok attrs.
Proof.
  unfold QuartoToMyst._parse_image_attrs, Re.re_search.
  assert (H : exists attrs,
    match Re.search_from QuartoToMyst.ID_ATTR_RE None attr_str with
    | Some id_m =>
        g <- Re.group_str id_m 1 ;; Ok (Py.set [] "id" g)
    | None => Ok []
    end = Ok attrs).
  { destruct (Re.search_from QuartoToMyst.ID_ATTR_RE None attr_str)
      as [m|] eqn:E; [|eauto].
    apply search_from_match in E. destruct E as (p & s & E).
    group_ok E 1 g. eauto. }
  destruct H as (attrs & ->). simpl.
  destruct (Re.search_from QuartoToMyst.WIDTH_ATTR_RE None attr_str)
    as [m|] eqn:E; [|eauto].
  apply search_from_match in E. destruct E as (p & s & E).
  group_ok E 1 g. eauto.
Qed.

Lemma collect_ok (close_re : Re.regex) (fence_count : nat) :
  Re.mentions (map fst (Re.must close_re)) 1 = true ->
  forall input, exists r,
    QuartoToMyst.collect close_re fence_count input = Ok r
    /\ length (snd r) <= length input.
Proof.
  intros Hg. induction input as [|line rest IH]; simpl.
  - eexists. split; [reflexivity | simpl; lia].
  - assert (H : exists b,
      match Re.re_match close_re (Py.strip line) with
      | Some close_m =>
          g <- Re.group_str close_m 1 ;; Ok (fence_count <=? Py.len g)
      | None => Ok false
      end = Ok b).
    { destruct (Re.re_match close_re (Py.strip line)) as [m|] eqn:E; [|eauto].
      destruct (group_present _ _ _ _ 0 E Hg) as (g & ->). simpl. eauto. }
    destruct H as (b & ->). simpl. destruct b.
    + eexists. split; [reflexivity | simpl; lia].
    + destruct IH as (r & -> & Hlen). simpl.
      eexists. split; [reflexivity | simpl; lia].
Qed.

Lemma collect_math_ok (input : list string) :
  exists body label after,
    QuartoToMyst.collect_math input = Ok (body, label, after)
    /\ length after <= length input.
Proof.
  induction input as [|line rest IH]; simpl.
  - do 3 eexists. split; [reflexivity | simpl; lia].
  - destruct (Re.re_match QuartoToMyst._MATH_CLOSE_LABEL_RE _) as [m|] eqn:E.
    + unfold Re.re_match in E. group_ok E 1 label.
      do 3 eexists. split; [reflexivity | lia].
    + destruct (Re.re_match QuartoToMyst._MATH_OPEN_RE _).
      * do 3 eexists. split; [reflexivity | lia].
      * destruct IH as (body & label & after & -> & Hlen). simpl.
        do 3 eexists. split; [reflexivity | lia].
Qed.

Lemma emit_fits (st : QuartoToMyst.state) (lines : list string) :
  buffer_fits st -> buffer_fits (QuartoToMyst.emit st lines).
Proof.
  unfold buffer_fits. simpl. rewrite length_app. lia.
Qed.

Lemma emit_advances (rest' rest : list string) (st : QuartoToMyst.state)
  (lines : list string) :
  buffer_fits st -> length rest' <= length rest ->
  advances rest (Ok (rest', QuartoToMyst.emit st lines)).
Proof.
  intros Hf Hl. exists rest', (QuartoToMyst.emit st lines).
  auto using emit_fits.
Qed.

Lemma colon_block_ok (r : Re.regex) (s : string) (m : Re.rmatch)
  (rest : list string) (build : list string -> result (list string))
  (st : QuartoToMyst.state) :
  Re.re_match r s = Some m ->
  Re.mentions (map fst (Re.must r)) 1 = true ->
  (forall body, exists lines, build body = Ok lines) ->
  buffer_fits st ->
  advances rest (QuartoToMyst.colon_block m rest build st).
Proof.
  intros Hm Hg Hbuild Hf. unfold QuartoToMyst.colon_block.
  destruct (group_present _ _ _ _ 0 Hm Hg) as (fence_str & ->). simpl bind.
  destruct (collect_ok QuartoToMyst._COLON_CLOSE_RE (Py.len fence_str)
              eq_refl rest) as (c & -> & Hlen). simpl bind.
  destruct (Hbuild (fst c)) as (lines & ->). simpl.
  apply emit_advances; assumption.
Qed.

Lemma table_or_regular_ok (line stripped : string) (rest : list string)
  (st : QuartoToMyst.state) :
  buffer_fits st ->
  advances rest (QuartoToMyst.table_or_regular line stripped rest st).
Proof.
  intros Hf. unfold QuartoToMyst.table_or_regular.
  assert (Hrow : advances rest
    match Re.re_match QuartoToMyst._TABLE_ROW_RE stripped with
    | Some _ =>
        let buffer := if negb (QuartoToMyst.in_table st) then []
                      else QuartoToMyst.table_lines_buffer st in
        Ok (rest, QuartoToMyst.mkState (QuartoToMyst.output_lines st ++ [line])
                    (buffer ++ [line]) true)
    | None =>
        let st1 := if QuartoToMyst.in_table st && negb (Py.is_empty stripped)
                   then QuartoToMyst.mkState (QuartoToMyst.output_lines st)
                          [] false
                   else st in
        l <- QuartoToMyst.transform_quarto_inline line ;;
        Ok (rest, QuartoToMyst.emit st1 [l])
    end).
  { destruct (Re.re_match QuartoToMyst._TABLE_ROW_RE stripped).
    - do 2 eexists. split; [reflexivity|]. split; [lia|].
      unfold buffer_fits in *. simpl.
      destruct (negb (QuartoToMyst.in_table st)); simpl;
        rewrite ?length_app; simpl; lia.
    - destruct (transform_quarto_inline_ok line) as (l & ->).
      simpl. apply emit_advances; [|lia].
      destruct (_ && _); [unfold buffer_fits; simpl; lia | exact Hf]. }
  destruct (Re.re_match QuartoToMyst._TABLE_CAPTION_RE stripped)
    as [m|] eqn:E; [|exact Hrow].
  destruct (QuartoToMyst.in_table st); [|exact Hrow].
  unfold Re.re_match in E. group_ok E 1 g1. group_ok E 2 name.
  destruct (pop_n_ok _ _ Hf) as (out & ->). simpl.
  do 2 eexists. split; [reflexivity|]. split; [lia|].
  unfold buffer_fits. simpl. lia.
Qed.

Lemma block_or_line_ok (line stripped : string) (rest : list string)
  (st : QuartoToMyst.state) :
  buffer_fits st ->
  advances rest (QuartoToMyst.block_or_line line stripped rest st).
Proof.
  intros Hf. unfold QuartoToMyst.block_or_line.
  destruct (Re.re_match QuartoToMyst._CALLOUT_RE stripped) as [m|] eqn:E.
  { pose proof E as E'. unfold Re.re_match in E'. group_ok E' 2 adm_type.
    apply (colon_block_ok _ _ _ _ _ _ E); [reflexivity | eauto | exact Hf]. }
  destruct (Re.re_match QuartoToMyst._TABSET_RE stripped) as [m|] eqn:E1.
  { apply (colon_block_ok _ _ _ _ _ _ E1);
      [reflexivity | apply build_tab_set_ok | exact Hf]. }
  destruct (Re.re_match QuartoToMyst._MARGIN_RE stripped) as [m|] eqn:E2.
  { apply (colon_block_ok _ _ _ _ _ _ E2); [reflexivity | eauto | exact Hf]. }
  destruct (Re.re_match QuartoToMyst._IMG_ATTRS_RE stripped) as [m|] eqn:E3.
  { unfold Re.re_match in E3.
    group_ok E3 1 alt. group_ok E3 2 url. group_ok E3 3 attr_str.
    destruct (parse_image_attrs_ok attr_str) as (attrs & ->). simpl bind.
    destruct (Py.get attrs "id") as [id|].
    - destruct (Py.startswith id "fig-"); apply emit_advances; auto.
    - destruct attrs as [|a attrs]; [|apply emit_advances; auto].
      destruct (transform_quarto_inline_ok line) as (l & ->). simpl.
      apply emit_advances; auto. }
  destruct (Re.re_match QuartoToMyst._MATH_OPEN_RE stripped) as [m|] eqn:E4.
  { destruct (collect_math_ok rest) as (body & label & after & -> & Hlen).
    simpl. destruct (negb (Py.is_empty label)); apply emit_advances; auto. }
  apply table_or_regular_ok. exact Hf.
Qed.

Lemma step_ok (line : string) (rest : list string) (st : QuartoToMyst.state) :
  buffer_fits st -> advances rest (QuartoToMyst.step line rest st).
Proof.
  intros Hf. unfold QuartoToMyst.step. cbv zeta.
  destruct (Re.re_match QuartoToMyst._EXEC_CODE_RE (Py.strip line))
    as [m|] eqn:E; [|apply block_or_line_ok; exact Hf].
  unfold Re.re_match in E. group_ok E 1 fence_str. group_ok E 2 lang.
  match goal with
  | |- context [if ?b then _ else _] => destruct b
  end; [|apply block_or_line_ok; exact Hf].
  destruct (collect_ok QuartoToMyst._BACKTICK_CLOSE_RE (Py.len fence_str)
              eq_refl rest) as (c & -> & Hlen). simpl bind.
  destruct (parse_cell_options_ok (fst c)) as (p & ->). simpl.
  apply emit_advances; assumption.
Qed.

Lemma loop_ok (fuel : nat) :
  forall input st, length input <= fuel -> buffer_fits st ->
    exists st', QuartoToMyst.loop fuel input st = Ok st'.
Proof.
  induction fuel as [|fuel IH]; intros input st Hlen Hf.
  - destruct input; [simpl; eauto | simpl in Hlen; lia].
  - destruct input as [|line rest]; [simpl; eauto|]. simpl.
    destruct (step_ok line rest st Hf) as (rest' & st' & -> & Hl & Hf').
    simpl. apply IH; [simpl in Hlen; lia | exact Hf'].
Qed.

Lemma convert_quarto_to_myst_ok (t : string) :
  exists out, QuartoToMyst.convert_quarto_to_myst t = Ok out.
Proof.
  unfold QuartoToMyst.convert_quarto_to_myst. cbv zeta.
  destruct (loop_ok (length (Py.split Py.newline t))
              (Py.split Py.newline t) QuartoToMyst.init) as (st & ->).
  - apply le_n.
  - unfold buffer_fits. simpl. apply le_n.
  - simpl. eauto.
Qed.

(** C4: both conversions return a string for every input text: no
    operation of theirs raises, and their loops end. *)
Theorem conversions_total (t : string) :
  (exists out, MystToQuarto.convert_myst_to_quarto t = Ok out)
  /\ (exists out, QuartoToMyst.convert_quarto_to_myst t = Ok out).
Proof.
  split; [apply convert_myst_to_quarto_ok | apply convert_quarto_to_myst_ok].
Qed.

(** ** Unterminated directives *)

(** C3: at the end of the input the open frames are popped from the top
    down and each one's transformed lines are appended to the output,
    also when a frame is left below it: for a tip left open inside a note
    left open, the tip's callout is emitted first and the note's callout
    after it, with an empty body, and not the note's callout around the
    tip's. *)
Theorem unclosed_frames_are_drained_to_the_output :
  (forall (transform_fn : Scanner.DirectiveFrame -> list string)
          (frame : Scanner.DirectiveFrame)
          (below : list Scanner.DirectiveFrame) (out : list string),
      Scanner.drain transform_fn (frame :: below) out
      = Scanner.drain transform_fn below (out ++ transform_fn frame))
  /\ MystToQuarto.convert_myst_to_quarto
       (text ["````{note}"; "```{tip}"; "x"])
     = Ok (text ["::: {.callout-tip}"; "x"; ":::";
                 "::: {.callout-note}"; ":::"])
  /\ MystToQuarto.convert_myst_to_quarto
       (text ["````{note}"; "```{tip}"; "x"])
     <> Ok (text ["::: {.callout-note}"; "::: {.callout-tip}"; "x"; ":::";
                  ":::"]).
Proof.
  split; [reflexivity|]. split; [vm_compute; reflexivity|].
  vm_compute. intros H. discriminate H.
Qed.

(** ** Table rows and their caption *)

(** C7: after two table rows and a blank line the buffer holds the two
    rows while the output ends with the second row and the blank line; the
    caption line then removes those two lines, so the first row stays in
    the output before the table directive and the blank line is lost. *)
Theorem caption_after_blank_line_retracts_wrong_lines :
  QuartoToMyst.loop 3 ["| a |"; "| b |"; ""] QuartoToMyst.init
  = Ok (QuartoToMyst.mkState ["| a |"; "| b |"; ""] ["| a |"; "| b |"] true)
  /\ QuartoToMyst.convert_quarto_to_myst
       (text ["| a |"; "| b |"; ""; ": Cap {#tbl-x}"])
     = Ok (text ["| a |"; "```{table} Cap"; ":name: tbl-x"; "";
                 "| a |"; "| b |"; "```"]).
Proof. split; vm_compute; reflexivity. Qed.

(** ** Lines inside a plain code fence *)

Section PlainFence.

Variable transform_fn : Scanner.DirectiveFrame -> list string.
Variable inline_fn : option (string -> result string).



Lemma scan_lines_app (l1 l2 : list string) :
  forall st st1,
    Scanner.scan_lines transform_fn inline_fn st l1 = Ok st1 ->
    Scanner.scan_lines transform_fn inline_fn st (l1 ++ l2)
    = Scanner.scan_lines transform_fn inline_fn st1 l2.
Proof.
  induction l1 as [|l l1 IH]; intros st st1 H; simpl in *.
  - injection H as <-. reflexivity.
  - bind_inv H. rewrite Ha. simpl. exact (IH _ _ H).
Qed.

End PlainFence.

(** ** The form of a table caption *)

(** A pattern that opens with a run of at least [n] fence characters
    matches no text that has one of them only. *)
Lemma fenced_re_none (x a : ascii) (n : nat) (r : Re.regex) (t : string) :
  Ascii.eqb x a = false -> 2 <= n ->
  Re.re_match (Re.Cat Re.Bos (Re.Cat (Re.Grp 1 (Re.Rep true n (Re.chr x))) r))
    (String x (String a t)) = None.
Proof.
  intros Hx Hn. unfold Re.re_match, Re.match_at. simpl.
  rewrite Ascii.eqb_refl.
  replace (S (String.length t) <? S (S (String.length t))) with true
    by (symmetry; apply Nat.ltb_lt; lia).
  rewrite Hx.
  destruct n as [|[|n]]; [lia | lia | reflexivity].
Qed.

Lemma space_not_colon (a : ascii) :
  Py.is_space a = true -> Ascii.eqb ":" a = false.
Proof.
  intros H. destruct (Ascii.eqb ":" a) eqn:E; [|reflexivity].
  apply Ascii.eqb_eq in E. subst a. vm_compute in H. discriminate H.
Qed.

(** A caption line is a colon, a whitespace character, and more. *)
Lemma caption_shape (s : string) (m : Re.rmatch) :
  Re.re_match QuartoToMyst._TABLE_CAPTION_RE s = Some m ->
  exists a t, s = String ":" (String a t) /\ Py.is_space a = true.
Proof.
  unfold Re.re_match, Re.match_at.
  destruct s as [|c [|a t]].
  - vm_compute. discriminate.
  - cbn -[Ascii.eqb Py.is_space].
    destruct (Ascii.eqb ":" c); cbn; discriminate.
  - cbn -[Ascii.eqb Py.is_space Nat.ltb].
    destruct (Ascii.eqb ":" c) eqn:Ec; [|discriminate].
    apply Ascii.eqb_eq in Ec. subst c.
    destruct (Py.is_space a) eqn:Ea; [eauto | discriminate].
Qed.

(** ** Lines inside a directive *)

Section Inside.

Variable transform_fn : Scanner.DirectiveFrame -> list string.
Variable inline_fn : option (string -> result string).

(** A line that is no opening fence and not the closing fence of the top
    frame is handled by [inside_directive]. *)
Lemma scan_line_inside (st : Scanner.state) (f : Scanner.DirectiveFrame)
  (below : list Scanner.DirectiveFrame) (line : string) :
  Scanner.stack st = f :: below ->
  Scanner.open_match line = None ->
  Scanner._is_close_fence (Py.lstrip line)
    (Py.len line - Py.len (Py.lstrip line)) f = false ->
  Scanner.scan_line transform_fn inline_fn st line
  = Scanner.inside_directive st f below line.
Proof.
  intros Hst Hopen Hclose. unfold Scanner.scan_line.
  rewrite Hopen, Hst, Hclose. reflexivity.
Qed.

(** The closing fence of the top frame, when it is no opening fence. *)
Lemma scan_line_close (st : Scanner.state) (f : Scanner.DirectiveFrame)
  (below : list Scanner.DirectiveFrame) (line : string) :
  Scanner.stack st = f :: below ->
  Scanner.open_match line = None ->
  Scanner._is_close_fence (Py.lstrip line)
    (Py.len line - Py.len (Py.lstrip line)) f = true ->
  Scanner.scan_line transform_fn inline_fn st line
  = Ok (Scanner.close_top transform_fn st f below).
Proof.
  intros Hst Hopen Hclose. unfold Scanner.scan_line.
  rewrite Hopen, Hst, Hclose. reflexivity.
Qed.

End Inside.

(** ** Nested directives *)

(** A note nested in a bibliography leaves nothing in the output, its
    callout neither; a mermaid directive nested in a note reaches the
    output in its own fence syntax. *)
Lemma nested_output_dropped_or_left_raw :
  (MystToQuarto.convert_myst_to_quarto
     (text ["````{bibliography}"; "```{note}"; "Hi"; "```"; "````"])
   = Ok ""
   /\ ~ In "::: {.callout-note}" (Py.split Py.newline ""))
  /\ (MystToQuarto.convert_myst_to_quarto
        (text ["````{note}"; "```{mermaid}"; "graph TD"; "```"; "````"])
      = Ok (text ["::: {.callout-note}"; "```{mermaid}"; "graph TD"; "```";
                  ":::"])
      /\ In "```{mermaid}"
            (Py.split Py.newline
               (text ["::: {.callout-note}"; "```{mermaid}"; "graph TD";
                      "```"; ":::"]))).
Proof.
  split; split; try (vm_compute; reflexivity).
  - vm_compute. intros [H|[]]. discriminate H.
  - vm_compute. right. left. reflexivity.
Qed.

Lemma closes_same_fence (f g : Scanner.DirectiveFrame) (line : string) :
  same_fence f g -> closes g line = closes f line.
Proof.
  intros (_ & Hc & Hn & _ & Hi). unfold closes, Scanner._is_close_fence.
  rewrite Hc, Hn, Hi. reflexivity.
Qed.

Section Nesting.

Variable transform_fn : Scanner.DirectiveFrame -> list string.
Variable inline_fn : option (string -> result string).

(** A line inside the top frame changes that frame's options or body
    lines and nothing else but the options mode. *)
Lemma inside_directive_frame (st : Scanner.state)
  (f : Scanner.DirectiveFrame) (below : list Scanner.DirectiveFrame)
  (line : string) :
  Scanner.stack st = f :: below ->
  exists st' f',
    Scanner.inside_directive st f below line = Ok st'
    /\ Scanner.stack st' = f' :: below
    /\ same_fence f f'
    /\ Scanner.output_lines st' = Scanner.output_lines st
    /\ Scanner.in_regular_code_fence st' = Scanner.in_regular_code_fence st.
Proof.
  intros Hst.
  assert (Hsame : same_fence f f) by (repeat split).
  unfold Scanner.inside_directive.
  destruct (Scanner.in_options st).
  - destruct (Re.re_match Scanner.OPTION_RE _) as [m|] eqn:E.
    + unfold Re.re_match in E. group_ok E 1 key. group_ok E 2 val.
      do 2 eexists. split; [reflexivity|]. simpl. repeat split.
    + destruct (Py.is_empty _).
      * exists (Scanner.with_in_options st false), f.
        split; [reflexivity|]. simpl. auto.
      * do 2 eexists. split; [reflexivity|]. simpl. repeat split.
  - do 2 eexists. split; [reflexivity|]. simpl. repeat split.
Qed.

(** The lines inside the top frame are absorbed by it. *)
Lemma scan_lines_fill_frame (inner : list string) :
  forall st f below,
    Scanner.stack st = f :: below ->
    Forall (inner_line f) inner ->
    exists st' f',
      Scanner.scan_lines transform_fn inline_fn st inner = Ok st'
      /\ Scanner.stack st' = f' :: below
      /\ same_fence f f'
      /\ Scanner.output_lines st' = Scanner.output_lines st
      /\ Scanner.in_regular_code_fence st'
         = Scanner.in_regular_code_fence st.
Proof.
  induction inner as [|l inner IH]; intros st f below Hst Hall.
  - exists st, f. simpl. repeat split; auto.
  - inversion Hall as [|? ? [Hopen Hclose] Hrest]; subst.
    destruct (inside_directive_frame st f below l Hst)
      as (st1 & f1 & H1 & Hst1 & Hsame1 & Hout1 & Hreg1).
    destruct (IH st1 f1 below Hst1) as (st2 & f2 & H2 & Hst2 & Hsame2 & Hout2 & Hreg2).
    { eapply Forall_impl; [|exact Hrest].
      intros x [Ho Hc]. split; [exact Ho|].
      rewrite (closes_same_fence f f1 x Hsame1). exact Hc. }
    exists st2, f2. simpl.
    rewrite (scan_line_inside transform_fn inline_fn st f below l
               Hst Hopen Hclose), H1.
    simpl. split; [exact H2|]. split; [exact Hst2|].
    split; [|split; congruence].
    destruct Hsame1 as (a1 & b1 & c1 & d1 & e1).
    destruct Hsame2 as (a2 & b2 & c2 & d2 & e2).
    repeat split; congruence.
Qed.

(** Out of options mode, the lines inside the top frame become its body
    lines, each stripped of the frame's indentation. *)
Lemma scan_lines_body (after : list string) :
  forall st f below,
    Scanner.stack st = f :: below ->
    Scanner.in_options st = false ->
    Forall (inner_line f) after ->
    Scanner.scan_lines transform_fn inline_fn st after
    = Ok (Scanner.with_stack st
            (Scanner.with_body_lines f
               (Scanner.body_lines f
                ++ map (fun l => Scanner._strip_indent l (Scanner.indent f))
                       after)
             :: below)).
Proof.
  induction after as [|l after IH]; intros st f below Hst Hopt Hall.
  - simpl. rewrite app_nil_r. destruct st, f. simpl in *. subst. reflexivity.
  - inversion Hall as [|? ? [Hopen Hclose] Hrest]; subst.
    simpl.
    rewrite (scan_line_inside transform_fn inline_fn st f below l
               Hst Hopen Hclose).
    unfold Scanner.inside_directive. rewrite Hopt. simpl.
    rewrite (IH _ (Scanner.with_body_lines f
                     (Scanner.body_lines f
                      ++ [Scanner._strip_indent l (Scanner.indent f)]))
                below).
    + simpl. rewrite <- app_assoc. reflexivity.
    + reflexivity.
    + exact Hopt.
    + eapply Forall_impl; [|exact Hrest].
      intros x [Ho Hc]. split; [exact Ho|].
      rewrite <- Hc. apply closes_same_fence. repeat split.
Qed.

(** From the opening fence of a directive [B] nested in the top frame [A]
    to the closing fence of [A], where the lines inside [B] leave the
    scanner with the frame [B'] built from them on top of [A]: [B]'s
    lines are replaced in the body of [A] by what [transform_fn] makes of
    [B'], and [A] is closed with that body. *)
Lemma scan_lines_nested (st st1 : Scanner.state)
  (A B B' : Scanner.DirectiveFrame) (below : list Scanner.DirectiveFrame)
  (openB : string) (m : Re.rmatch) (inner : list string) (closeB : string)
  (after : list string) (closeA : string) :
  Scanner.stack st = A :: below ->
  Scanner.in_regular_code_fence st = false ->
  Scanner.open_match openB = Some m ->
  Scanner.open_frame m = Ok B ->
  Scanner.scan_lines transform_fn inline_fn
    (Scanner.with_in_options (Scanner.with_stack st (B :: A :: below)) true)
    inner
  = Ok st1 ->
  Scanner.stack st1 = B' :: A :: below ->
  Scanner.output_lines st1 = Scanner.output_lines st ->
  Scanner.open_match closeB = None -> closes B' closeB = true ->
  Forall (inner_line A) after ->
  Scanner.open_match closeA = None -> closes A closeA = true ->
  exists st3,
    Scanner.output_lines st3 = Scanner.output_lines st
    /\ Scanner.scan_lines transform_fn inline_fn st
         (openB :: inner ++ closeB :: after ++ [closeA])
       = Ok (Scanner.close_top transform_fn st3
               (with_nested A (transform_fn B') after) below).
Proof.
  intros Hst Hreg HopenB HB H1 Hst1 Hout1 HcloseB0 HcloseB Hafter
         HcloseA0 HcloseA.
  set (st0 := Scanner.with_in_options
                (Scanner.with_stack st (B :: A :: below)) true) in *.
  set (A1 := Scanner.with_body_lines A (Scanner.body_lines A ++ transform_fn B')).
  set (st2 := Scanner.close_top transform_fn st1 B' (A :: below)).
  assert (Hst2 : Scanner.stack st2 = A1 :: below) by reflexivity.
  assert (Hopt2 : Scanner.in_options st2 = false) by reflexivity.
  assert (Hafter1 : Forall (inner_line A1) after).
  { eapply Forall_impl; [|exact Hafter].
    intros x [Ho Hc]. split; [exact Ho|].
    rewrite <- Hc. apply closes_same_fence. repeat split. }
  pose proof (scan_lines_body after st2 A1 below Hst2 Hopt2 Hafter1) as H3.
  assert (HA2 : Scanner.with_body_lines A1
                  (Scanner.body_lines A1
                   ++ map (fun l => Scanner._strip_indent l (Scanner.indent A1))
                          after)
                = with_nested A (transform_fn B') after).
  { unfold with_nested, A1, Scanner.with_body_lines. simpl.
    rewrite <- app_assoc. reflexivity. }
  rewrite HA2 in H3.
  set (A2 := with_nested A (transform_fn B') after) in *.
  set (st3 := Scanner.with_stack st2 (A2 :: below)) in H3.
  exists st3.
  split; [simpl; exact Hout1|].
  change (openB :: inner ++ closeB :: after ++ [closeA])
    with ([openB] ++ inner ++ [closeB] ++ after ++ [closeA]).
  rewrite (scan_lines_app transform_fn inline_fn [openB] _ st st0).
  2: { simpl. unfold Scanner.scan_line. rewrite HopenB, Hreg, HB. simpl.
       rewrite Hst. reflexivity. }
  rewrite (scan_lines_app transform_fn inline_fn inner _ st0 st1 H1).
  rewrite (scan_lines_app transform_fn inline_fn [closeB] _ st1 st2).
  2: { simpl.
       rewrite (scan_line_close transform_fn inline_fn st1 B' (A :: below)
                  closeB Hst1 HcloseB0 HcloseB).
       reflexivity. }
  rewrite (scan_lines_app transform_fn inline_fn after _ st2 st3 H3).
  simpl.
  rewrite (scan_line_close transform_fn inline_fn st3 A2 below closeA
             eq_refl HcloseA0).
  - reflexivity.
  - fold (closes A2 closeA). rewrite <- HcloseA.
    apply closes_same_fence. repeat split.
Qed.

End Nesting.

(** An admonition of one of the five kinds becomes the callout block of
    its kind around its body lines. *)
Lemma admonition_wrapper (f : Scanner.DirectiveFrame) :
  existsb (String.eqb (Scanner.name f)) MystToQuarto._ADMONITION_TYPES = true ->
  MystToQuarto.transform_directive f
  = String.append "::: {.callout-" (String.append (Scanner.name f) "}")
    :: Scanner.body_lines f ++ [":::"].
Proof.
  destruct f as [n c k a o b i]. simpl. intros H.
  repeat (apply orb_prop in H; destruct H as [H|H]);
    try discriminate H;
    apply String.eqb_eq in H; subst n; reflexivity.
Qed.

(** C2, as the code has it: when a directive [B] lies inside the body of
    a directive [A], and the lines inside [B] leave the scanner with the
    frame [B'] built from them on top of [A], the forward scanner
    replaces the lines of [B], from its opening to its closing fence, by
    the transform of [B'], at their place in the body of [A], and hands
    on the transform of [A] with that body: to the output when [A] is at
    the top level, to the body of the enclosing frame otherwise.  For an
    admonition [A] that transform is its callout wrapper around the body
    lines before [B], the transformed lines of [B], and the body lines
    after [B]. *)
Theorem nested_directive_is_flattened
  (st st1 : Scanner.state) (A B B' : Scanner.DirectiveFrame)
  (below : list Scanner.DirectiveFrame)
  (openB : string) (m : Re.rmatch) (inner : list string) (closeB : string)
  (after : list string) (closeA : string) :
  Scanner.stack st = A :: below ->
  Scanner.in_regular_code_fence st = false ->
  Scanner.open_match openB = Some m ->
  Scanner.open_frame m = Ok B ->
  Scanner.scan_lines MystToQuarto.transform_directive
    (Some MystToQuarto.transform_inline)
    (Scanner.with_in_options (Scanner.with_stack st (B :: A :: below)) true)
    inner
  = Ok st1 ->
  Scanner.stack st1 = B' :: A :: below ->
  Scanner.output_lines st1 = Scanner.output_lines st ->
  Scanner.open_match closeB = None -> closes B' closeB = true ->
  Forall (inner_line A) after ->
  Scanner.open_match closeA = None -> closes A closeA = true ->
  exists st',
    Scanner.scan_lines MystToQuarto.transform_directive
      (Some MystToQuarto.transform_inline) st
      (openB :: inner ++ closeB :: after ++ [closeA]) = Ok st'
    /\ (below = [] ->
        Scanner.stack st' = []
        /\ Scanner.output_lines st'
           = Scanner.output_lines st
             ++ MystToQuarto.transform_directive
                  (with_nested A (MystToQuarto.transform_directive B') after))
    /\ (forall parent others, below = parent :: others ->
        Scanner.stack st'
        = Scanner.with_body_lines parent
            (Scanner.body_lines parent
             ++ MystToQuarto.transform_directive
                  (with_nested A (MystToQuarto.transform_directive B') after))
          :: others
        /\ Scanner.output_lines st' = Scanner.output_lines st)
    /\ (existsb (String.eqb (Scanner.name A)) MystToQuarto._ADMONITION_TYPES
        = true ->
        MystToQuarto.transform_directive
          (with_nested A (MystToQuarto.transform_directive B') after)
        = String.append "::: {.callout-" (String.append (Scanner.name A) "}")
          :: (Scanner.body_lines A
              ++ MystToQuarto.transform_directive B'
              ++ map (fun l => Scanner._strip_indent l (Scanner.indent A))
                     after)
          ++ [":::"]).
Proof.
  intros Hst Hreg HopenB HB H1 Hst1 Hout1 HcloseB0 HcloseB Hafter
         HcloseA0 HcloseA.
  destruct (scan_lines_nested MystToQuarto.transform_directive
              (Some MystToQuarto.transform_inline) st st1 A B B' below
              openB m inner closeB after closeA Hst Hreg HopenB HB H1 Hst1
              Hout1 HcloseB0 HcloseB Hafter HcloseA0 HcloseA)
    as (st3 & Hout & H).
  eexists. split; [exact H|]. split; [|split].
  - intros ->. simpl. rewrite Hout. split; reflexivity.
  - intros parent others ->. simpl. rewrite Hout. split; reflexivity.
  - intros Hadm.
    apply (admonition_wrapper
             (with_nested A (MystToQuarto.transform_directive B') after)).
    exact Hadm.
Qed.

(** A tip with an option and a body line inside a top-level note,
    followed by one more body line of the note. *)
Lemma nested_directive_is_flattened_witness :
  exists st',
    Scanner.scan_lines MystToQuarto.transform_directive
      (Some MystToQuarto.transform_inline)
      (Scanner.mkState [Scanner.mkFrame "note" "`" 4 "" [] ["before"] 0]
                       [] false false None 0 0)
      ("```{tip}" :: [":class: dropdown"; "x"] ++ "```" :: ["after"]
       ++ ["````"])
    = Ok st'
    /\ Scanner.stack st' = []
    /\ Scanner.output_lines st'
       = ["::: {.callout-note}"; "before";
          "::: {.callout-tip}"; "x"; ":::";
          "after"; ":::"].
Proof.
  destruct (nested_directive_is_flattened
              (Scanner.mkState [Scanner.mkFrame "note" "`" 4 "" [] ["before"] 0]
                               [] false false None 0 0)
              (Scanner.mkState
                 [Scanner.mkFrame "tip" "`" 3 "" [("class", "dropdown")]
                                  ["x"] 0;
                  Scanner.mkFrame "note" "`" 4 "" [] ["before"] 0]
                 [] false false None 0 0)
              (Scanner.mkFrame "note" "`" 4 "" [] ["before"] 0)
              (Scanner.mkFrame "tip" "`" 3 "" [] [] 0)
              (Scanner.mkFrame "tip" "`" 3 "" [("class", "dropdown")] ["x"] 0)
              []
              "```{tip}"
              (Re.mkMatch "```{tip}" ""
                          [(4, ""); (3, "tip"); (2, "```"); (1, "")])
              [":class: dropdown"; "x"] "```" ["after"] "````"
              eq_refl eq_refl eq_refl eq_refl eq_refl eq_refl eq_refl
              eq_refl eq_refl
              (Forall_cons "after" (conj eq_refl eq_refl) (Forall_nil _))
              eq_refl eq_refl)
    as (st' & Hscan & Htop & _).
  exists st'. destruct (Htop eq_refl) as [Hstack Hout].
  split; [exact Hscan|]. split; [exact Hstack|]. exact Hout.
Defined.

(** * Further properties *)

Lemma all_ascii_In (a : ascii) : In a all_ascii.
Proof.
  unfold all_ascii. rewrite <- (ascii_nat_embedding a).
  apply in_map. apply in_seq. pose proof (nat_ascii_bounded a). lia.
Qed.

Lemma only_spec (p : ascii -> bool) (x a : ascii) :
  only p x = true -> p a = true -> a = x.
Proof.
  unfold only. rewrite forallb_forall. intros H Hp.
  specialize (H a (all_ascii_In a)). rewrite Hp in H. simpl in H.
  now apply Ascii.eqb_eq.
Qed.

Lemma mem_append (x : ascii) (s1 s2 : string) :
  Py.mem x (s1 ++ s2) = Py.mem x s1 || Py.mem x s2.
Proof.
  induction s1 as [|a s1 IH]; simpl; [reflexivity|].
  rewrite IH. now rewrite orb_assoc.
Qed.

(** A repetition of one iteration at least fails where its first
    iteration does. *)
Lemma rep_loop_first_fails
  (iter : option ascii -> string -> Re.caps -> Re.cont
          -> option (string * Re.caps))
  (greedy : bool) (min : nat) (k : Re.cont) (fuel : nat)
  (prev : option ascii) (s : string) (c : Re.caps) :
  (forall k', iter prev s c k' = None) -> 1 <= min ->
  Re.rep_loop iter greedy min k fuel 0 prev s c = None.
Proof.
  intros Hi Hm.
  assert (E : (min <=? 0) = false) by (apply Nat.leb_gt; lia).
  destruct fuel; simpl; rewrite ?Hi, E; destruct greedy; reflexivity.
Qed.

(** A pattern that requires [x] matches nothing in a text without [x]. *)
Lemma rx_absent (x : ascii) (r : Re.regex) :
  requires r x = true ->
  forall prev s c k, Py.mem x s = false -> Re.rx r prev s c k = None.
Proof.
  induction r as [|p|r1 IH1 r2 IH2|r1 IH1 r2 IH2|g min r1 IH1|n r1 IH1| | |p|r1 IH1];
    simpl; intros Hr prev s c k Hs; try discriminate.
  - destruct s as [|a t]; [reflexivity|].
    destruct (p a) eqn:Hp; [|reflexivity].
    rewrite (only_spec _ _ _ Hr Hp) in Hs. simpl in Hs.
    rewrite Ascii.eqb_refl in Hs. discriminate.
  - apply orb_true_iff in Hr. destruct Hr as [Hr|Hr]; [now apply IH1|].
    destruct (Re.rx r1 prev s c _) as [res|] eqn:E; [|reflexivity].
    apply rx_sound in E. destruct E as (w & p1 & s1 & c1 & -> & _ & E & _).
    rewrite mem_append in Hs. apply orb_false_iff in Hs.
    rewrite (IH2 Hr) in E by tauto. discriminate.
  - apply andb_true_iff in Hr. destruct Hr as [Hr1 Hr2].
    now rewrite (IH1 Hr1), (IH2 Hr2).
  - apply andb_true_iff in Hr. destruct Hr as [Hm Hr].
    apply rep_loop_first_fails; [|destruct min; [discriminate | lia]].
    intros k'. now apply IH1.
  - now apply IH1.
Qed.

Lemma match_at_absent (x : ascii) (r : Re.regex) (prev : option ascii)
  (s : string) :
  requires r x = true -> Py.mem x s = false -> Re.match_at r prev s = None.
Proof.
  intros Hr Hs. unfold Re.match_at. now rewrite (rx_absent x r Hr).
Qed.

Lemma unmatched_absent (x : ascii) (r : Re.regex) :
  requires r x = true ->
  forall s prev, Py.mem x s = false -> unmatched r prev s.
Proof.
  intros Hr. induction s as [|a t IH]; intros prev Hs.
  - split; [now apply (match_at_absent x) | exact I].
  - split; [now apply (match_at_absent x)|].
    simpl in Hs. apply orb_false_iff in Hs. apply IH. tauto.
Qed.

(** Where no match starts, the substitution copies. *)
Lemma sub_from_unmatched (r : Re.regex) (repl : Re.rmatch -> result string) :
  forall fuel prev s,
    unmatched r prev s -> String.length s <= fuel ->
    Re.sub_from r repl fuel prev s = Ok s.
Proof.
  induction fuel as [|fuel IH]; intros prev s Hu Hlen.
  - destruct s; [|simpl in Hlen; lia]. destruct Hu as [Hu _].
    simpl. rewrite Hu. reflexivity.
  - destruct s as [|a t]; destruct Hu as [Hu Ht]; simpl; rewrite Hu;
      [reflexivity|].
    rewrite (IH _ _ Ht); [reflexivity | simpl in Hlen; lia].
Qed.

Lemma re_sub_absent (x : ascii) (r : Re.regex)
  (repl : Re.rmatch -> result string) (s : string) :
  requires r x = true -> Py.mem x s = false -> Re.re_sub r repl s = Ok s.
Proof.
  intros Hr Hs. apply sub_from_unmatched; [|apply le_n].
  now apply (unmatched_absent x).
Qed.

Lemma transform_inline_without_brace (line : string) :
  Py.mem "{" line = false -> MystToQuarto.transform_inline line = Ok line.
Proof.
  intros H. unfold MystToQuarto.transform_inline.
  destruct (Py.is_empty line); [reflexivity|].
  repeat (rewrite (re_sub_absent "{"); [simpl bind | reflexivity | exact H]).
  reflexivity.
Qed.

(** ** Texts without markup are fixed points *)

Lemma join_split (s : string) :
  Py.join (Py.chr Py.newline) (Py.split Py.newline s) = s.
Proof.
  induction s as [|a s IH]; [reflexivity|]. simpl Py.split.
  destruct (Ascii.eqb a Py.newline) eqn:E.
  - apply Ascii.eqb_eq in E. subst a.
    destruct (Py.split Py.newline s) as [|h t] eqn:Es;
      [elim (split_not_nil _ _ Es)|].
    change (Py.join (Py.chr Py.newline) ("" :: h :: t))
      with (Py.chr Py.newline ++ Py.join (Py.chr Py.newline) (h :: t))%string.
    rewrite IH. reflexivity.
  - destruct (Py.split Py.newline s) as [|h t] eqn:Es;
      [elim (split_not_nil _ _ Es)|].
    rewrite <- IH. destruct t; reflexivity.
Qed.

Lemma split_mem (x sep : ascii) (s : string) :
  Py.mem x s = false ->
  Forall (fun l => Py.mem x l = false) (Py.split sep s).
Proof.
  induction s as [|a s IH]; simpl; intros H; [repeat constructor|].
  apply orb_false_iff in H. destruct H as [Ha Hs]. specialize (IH Hs).
  destruct (Ascii.eqb a sep); [constructor; [reflexivity | exact IH]|].
  destruct (Py.split sep s) as [|h t]; [repeat constructor; simpl; now rewrite Ha|].
  inversion IH; subst. constructor; [simpl; now rewrite Ha | assumption].
Qed.

Lemma open_match_without_brace (line : string) :
  Py.mem "{" line = false -> Scanner.open_match line = None.
Proof.
  intros H. unfold Scanner.open_match, Re.re_match.
  rewrite (match_at_absent "{" Scanner.BACKTICK_OPEN_RE); [|reflexivity|exact H].
  apply (match_at_absent "{"); [reflexivity | exact H].
Qed.

Section Untouched.

Variable transform_fn : Scanner.DirectiveFrame -> list string.

Lemma scan_line_without_brace (st : Scanner.state) (line : string) :
  Scanner.stack st = [] -> fence_known st -> Py.mem "{" line = false ->
  exists st',
    Scanner.scan_line transform_fn (Some MystToQuarto.transform_inline) st line
    = Ok st'
    /\ Scanner.stack st' = []
    /\ Scanner.output_lines st' = Scanner.output_lines st ++ [line]
    /\ fence_known st'.
Proof.
  intros Hst Hk Hl.
  destruct (scan_line_ok transform_fn (Some MystToQuarto.transform_inline))
    with (st := st) (line := line) as (st' & H & Hk'); [|exact Hk|].
  { intros f Hf l. injection Hf as <-. apply transform_inline_ok. }
  exists st'. split; [exact H|].
  assert (Hopen : forall m, Scanner.open_regular st m line = Ok st' ->
    Scanner.stack st' = []
    /\ Scanner.output_lines st' = Scanner.output_lines st ++ [line]
    /\ fence_known st').
  { intros m Hm. unfold Scanner.open_regular in Hm.
    bind_inv Hm. bind_inv Hm. bind_inv Hm. ok_inv Hm. simpl. auto. }
  unfold Scanner.scan_line in H.
  rewrite (open_match_without_brace _ Hl), Hst in H.
  unfold Scanner.outside_directive in H.
  destruct (Scanner.in_regular_code_fence st) eqn:Ef; simpl in H.
  - bind_inv H. ok_inv H. destruct a; simpl; auto.
  - destruct (Re.re_match Scanner.REGULAR_FENCE_RE line) as [m|];
      [exact (Hopen _ H)|].
    destruct (Re.re_match Scanner.REGULAR_FENCE_LANG_RE line) as [m|];
      [exact (Hopen _ H)|].
    unfold Scanner.regular_line in H.
    rewrite (transform_inline_without_brace _ Hl) in H. simpl in H.
    ok_inv H. simpl. auto.
Qed.

Lemma scan_lines_without_brace (lines : list string) :
  forall st,
    Scanner.stack st = [] -> fence_known st ->
    Forall (fun l => Py.mem "{" l = false) lines ->
    exists st',
      Scanner.scan_lines transform_fn (Some MystToQuarto.transform_inline)
        st lines = Ok st'
      /\ Scanner.stack st' = []
      /\ Scanner.output_lines st' = Scanner.output_lines st ++ lines.
Proof.
  induction lines as [|l lines IH]; intros st Hst Hk Hall; simpl.
  - exists st. rewrite app_nil_r. auto.
  - inversion Hall as [|? ? Hl Hrest]; subst.
    destruct (scan_line_without_brace st l Hst Hk Hl)
      as (st1 & -> & Hst1 & Ho1 & Hk1). simpl.
    destruct (IH st1 Hst1 Hk1 Hrest) as (st' & -> & Hst' & Ho').
    exists st'. rewrite Ho', Ho1, <- app_assoc. auto.
Qed.

End Untouched.

(** X1: a text without an opening brace is a fixed point of the forward
    conversion. *)
Theorem text_without_brace_is_unchanged (t : string) :
  Py.mem "{" t = false -> MystToQuarto.convert_myst_to_quarto t = Ok t.
Proof.
  intros H. unfold MystToQuarto.convert_myst_to_quarto, Scanner.scan.
  destruct (scan_lines_without_brace MystToQuarto.transform_directive
              (Py.split Py.newline t) Scanner.init)
    as (st & -> & Hst & Ho).
  - reflexivity.
  - intros Hf. discriminate Hf.
  - apply split_mem. exact H.
  - simpl. rewrite Hst, Ho. simpl. rewrite join_split. reflexivity.
Qed.

(** ** Indentation *)

Lemma take_drop (k : nat) (s : string) : (Py.take k s ++ Py.drop k s)%string = s.
Proof.
  revert s. induction k as [|k IH]; intros [|a s]; simpl; try reflexivity.
  now rewrite IH.
Qed.

Lemma strip_count_spec (ind : nat) (line : string) :
  forall removed, removed <= ind ->
    exists k,
      Scanner.strip_count ind removed line = removed + k
      /\ removed + k <= ind
      /\ String.length (Py.take k line) = k
      /\ forallb is_indent (list_ascii_of_string (Py.take k line)) = true
      /\ (removed + k < ind ->
          forall a t, Py.drop k line = String a t -> is_indent a = false).
Proof.
  induction line as [|ch rest IH]; intros removed Hle; simpl.
  - exists 0. rewrite Nat.add_0_r. simpl. repeat split; auto. discriminate.
  - destruct (ind <=? removed) eqn:E.
    + apply Nat.leb_le in E. exists 0. rewrite Nat.add_0_r. simpl.
      repeat split; auto. lia.
    + apply Nat.leb_gt in E.
      assert (Hch : is_indent ch = true ->
        exists k,
          Scanner.strip_count ind (S removed) rest = removed + k
          /\ removed + k <= ind
          /\ String.length (Py.take k (String ch rest)) = k
          /\ forallb is_indent
               (list_ascii_of_string (Py.take k (String ch rest))) = true
          /\ (removed + k < ind ->
              forall a t, Py.drop k (String ch rest) = String a t ->
                          is_indent a = false)).
      { intros Hch. destruct (IH (S removed)) as (k & Hk & Hb & Hl & Ha & Hn);
          [lia|].
        exists (S k). simpl. rewrite Hk, Hl, Ha, Hch.
        repeat split; try lia. intros Hlt. apply Hn. lia. }
      destruct (Ascii.eqb ch " ") eqn:E1.
      { apply Hch. unfold is_indent. now rewrite E1. }
      destruct (Ascii.eqb ch (ascii_of_nat 9)) eqn:E2.
      { apply Hch. unfold is_indent. now rewrite E1, E2. }
      exists 0. rewrite Nat.add_0_r. simpl. repeat split; auto; try lia.
      intros _ a t H. injection H as <- _. unfold is_indent.
      rewrite E1, E2. reflexivity.
Qed.

(** X2: [_strip_indent] removes a prefix of at most [ind] spaces and tabs,
    and stops short of [ind] only before another character or at the end
    of the line. *)
Theorem strip_indent_removes_leading_blanks (line : string) (ind : nat) :
  exists k,
    k <= ind
    /\ line = (Py.take k line ++ Scanner._strip_indent line ind)%string
    /\ String.length (Py.take k line) = k
    /\ forallb is_indent (list_ascii_of_string (Py.take k line)) = true
    /\ (k < ind ->
        forall a t, Scanner._strip_indent line ind = String a t ->
                    is_indent a = false).
Proof.
  unfold Scanner._strip_indent. destruct (ind =? 0) eqn:E.
  - apply Nat.eqb_eq in E. subst ind. exists 0.
    destruct line; simpl; repeat split; auto; lia.
  - destruct (strip_count_spec ind line 0) as (k & Hk & Hb & Hl & Ha & Hn);
      [lia|].
    simpl in Hk, Hb, Hn. exists k. rewrite Hk, take_drop. auto.
Qed.

(** ** The closing fence is never an opener *)

Lemma all_char_mem (c x : ascii) (s : string) :
  Py.all_char c s = true -> x <> c -> Py.mem x s = false.
Proof.
  intros H Hx. induction s as [|a s IH]; simpl in *; [reflexivity|].
  apply andb_prop in H as [Ha Hs]. apply Ascii.eqb_eq in Ha. subst a.
  rewrite (IH Hs). destruct (Ascii.eqb x c) eqn:E; [|reflexivity].
  apply Ascii.eqb_eq in E. contradiction.
Qed.

Lemma mem_of_lstrip_by (x : ascii) (p : ascii -> bool) (s : string) :
  p x = false -> Py.mem x (Py.lstrip_by p s) = false -> Py.mem x s = false.
Proof.
  intros Hx. induction s as [|a s IH]; simpl; [reflexivity|].
  destruct (p a) eqn:E; [|exact (fun H => H)].
  intros H. rewrite (IH H).
  destruct (Ascii.eqb x a) eqn:Ea; [|reflexivity].
  apply Ascii.eqb_eq in Ea. subst a. congruence.
Qed.

(** X3: a line of the fence character alone, after its indentation, as
    long as the opening fence at least and indented as much at most,
    closes the frame on top of the stack, whatever the state otherwise. *)
Theorem fence_line_closes_top_frame
  (transform_fn : Scanner.DirectiveFrame -> list string)
  (inline_fn : option (string -> result string))
  (st : Scanner.state) (f : Scanner.DirectiveFrame)
  (below : list Scanner.DirectiveFrame) (line : string) :
  Scanner.stack st = f :: below ->
  Scanner.fence_char f <> "{"%char ->
  Py.lstrip line <> "" ->
  Py.all_char (Scanner.fence_char f) (Py.lstrip line) = true ->
  Scanner.fence_count f <= Py.len (Py.lstrip line) ->
  Py.len line - Py.len (Py.lstrip line) <= Scanner.indent f ->
  Scanner.scan_line transform_fn inline_fn st line
  = Ok (Scanner.close_top transform_fn st f below).
Proof.
  intros Hst Hc Hne Hall Hlen Hind. unfold Scanner.scan_line.
  rewrite open_match_without_brace.
  - rewrite Hst.
    replace (Scanner._is_close_fence _ _ f) with true; [reflexivity|].
    symmetry. apply is_close_fence_spec. auto.
  - apply (mem_of_lstrip_by _ Py.is_space); [reflexivity|].
    apply (all_char_mem (Scanner.fence_char f)); [exact Hall|].
    intros E. apply Hc. now rewrite E.
Qed.

Lemma fence_line_closes_top_frame_witness :
  Scanner.scan_line MystToQuarto.transform_directive
    (Some MystToQuarto.transform_inline)
    (Scanner.mkState [Scanner.mkFrame "note" "`" 3 "" [] ["Hello."] 2]
       [] true false None 0 0)
    " `````"
  = Ok (Scanner.mkState [] ["::: {.callout-note}"; "Hello."; ":::"]
          false false None 0 0).
Proof.
  apply (fence_line_closes_top_frame MystToQuarto.transform_directive
           (Some MystToQuarto.transform_inline)
           (Scanner.mkState [Scanner.mkFrame "note" "`" 3 "" [] ["Hello."] 2]
              [] true false None 0 0)
           (Scanner.mkFrame "note" "`" 3 "" [] ["Hello."] 2) [] " `````").
  - reflexivity.
  - discriminate.
  - discriminate.
  - reflexivity.
  - simpl. lia.
  - simpl. lia.
Defined.

(** ** The modes of the forward scanner *)

Section Modes.

Variable transform_fn : Scanner.DirectiveFrame -> list string.
Variable inline_fn : option (string -> result string).

Lemma inside_directive_modes (st st' : Scanner.state)
  (f : Scanner.DirectiveFrame) (below : list Scanner.DirectiveFrame)
  (line : string) :
  Scanner.inside_directive st f below line = Ok st' ->
  Scanner.stack st = f :: below ->
  Scanner.stack st' <> []
  /\ Scanner.in_regular_code_fence st' = Scanner.in_regular_code_fence st.
Proof.
  unfold Scanner.inside_directive. intros H Hst.
  destruct (Scanner.in_options st).
  - destruct (Re.re_match Scanner.OPTION_RE _).
    + bind_inv H. bind_inv H. ok_inv H. simpl. split; [discriminate|reflexivity].
    + destruct (Py.is_empty _); ok_inv H; simpl; rewrite ?Hst;
        (split; [discriminate|reflexivity]).
  - ok_inv H. simpl. split; [discriminate|reflexivity].
Qed.

Lemma outside_directive_modes (st st' : Scanner.state) (line : string) :
  Scanner.outside_directive inline_fn st line = Ok st' ->
  Scanner.stack st' = Scanner.stack st
  /\ Scanner.in_options st' = Scanner.in_options st.
Proof.
  unfold Scanner.outside_directive. intros H.
  assert (Hopen : forall m, Scanner.open_regular st m line = Ok st' ->
    Scanner.stack st' = Scanner.stack st
    /\ Scanner.in_options st' = Scanner.in_options st).
  { intros m Hm. unfold Scanner.open_regular in Hm.
    bind_inv Hm. bind_inv Hm. bind_inv Hm. ok_inv Hm. simpl. auto. }
  destruct (Scanner.in_regular_code_fence st); simpl in H.
  - bind_inv H. ok_inv H. destruct a; simpl; auto.
  - destruct (Re.re_match Scanner.REGULAR_FENCE_RE line) as [m|];
      [exact (Hopen _ H)|].
    destruct (Re.re_match Scanner.REGULAR_FENCE_LANG_RE line) as [m|];
      [exact (Hopen _ H)|].
    unfold Scanner.regular_line in H. destruct inline_fn as [g|].
    + bind_inv H. ok_inv H. simpl. auto.
    + ok_inv H. simpl. auto.
Qed.

Lemma scan_line_modes (st st' : Scanner.state) (line : string) :
  modes_exclusive st ->
  Scanner.scan_line transform_fn inline_fn st line = Ok st' ->
  modes_exclusive st'.
Proof.
  intros [Hf Ho] H. unfold Scanner.scan_line in H.
  assert (Hrest :
    match Scanner.stack st with
    | current :: below =>
        if Scanner._is_close_fence (Py.lstrip line)
             (Py.len line - Py.len (Py.lstrip line)) current
        then Ok (Scanner.close_top transform_fn st current below)
        else Scanner.inside_directive st current below line
    | [] => Scanner.outside_directive inline_fn st line
    end = Ok st' -> modes_exclusive st').
  { clear H. destruct (Scanner.stack st) as [|current below] eqn:Hst.
    - intros H. apply outside_directive_modes in H. destruct H as [Hs Hi].
      split; [intros _; now rewrite Hs, Hst | intros _; rewrite Hi; auto].
    - assert (Hnf : Scanner.in_regular_code_fence st = false).
      { destruct (Scanner.in_regular_code_fence st); [|reflexivity].
        discriminate (Hf eq_refl). }
      destruct (Scanner._is_close_fence _ _ current).
      + intros H. ok_inv H. unfold Scanner.close_top.
        destruct below; split; simpl; auto; rewrite Hnf; discriminate.
      + intros H. apply inside_directive_modes with (1 := H) in Hst.
        destruct Hst as [Hne Hr]. split; [|tauto].
        rewrite Hr, Hnf. discriminate. }
  destruct (Scanner.open_match line) as [m|]; [|exact (Hrest H)].
  destruct (Scanner.in_regular_code_fence st) eqn:Ef; [exact (Hrest H)|].
  bind_inv H. ok_inv H. split; simpl; [rewrite Ef|]; discriminate.
Qed.

Lemma scan_lines_modes (lines : list string) :
  forall st st',
    modes_exclusive st ->
    Scanner.scan_lines transform_fn inline_fn st lines = Ok st' ->
    modes_exclusive st'.
Proof.
  induction lines as [|l lines IH]; intros st st' Hm H; simpl in H.
  - now ok_inv H.
  - bind_inv H. exact (IH _ _ (scan_line_modes _ _ _ Hm Ha) H).
Qed.

End Modes.

(** X4: at every point of a scan the scanner is inside a plain code fence
    or inside a directive, never both, and it reads options inside a
    directive only. *)
Theorem fence_and_directive_modes_exclude
  (transform_fn : Scanner.DirectiveFrame -> list string)
  (inline_fn : option (string -> result string))
  (lines : list string) (st : Scanner.state) :
  Scanner.scan_lines transform_fn inline_fn Scanner.init lines = Ok st ->
  (Scanner.in_regular_code_fence st = true -> Scanner.stack st = [])
  /\ (Scanner.in_options st = true -> Scanner.stack st <> []).
Proof.
  intros H.
  destruct (scan_lines_modes transform_fn inline_fn lines Scanner.init st)
    as [Hf Ho]; [split; reflexivity | exact H |].
  split; [exact Hf|]. intros Hi Hs. rewrite (Ho Hs) in Hi. discriminate.
Qed.

Lemma fence_and_directive_modes_exclude_witness :
  (true = true -> @nil Scanner.DirectiveFrame = [])
  /\ (false = true -> @nil Scanner.DirectiveFrame <> []).
Proof.
  exact (fence_and_directive_modes_exclude MystToQuarto.transform_directive
           (Some MystToQuarto.transform_inline) ["```python"; "x = 1"]
           (Scanner.mkState [] ["```python"; "x = 1"] false true (Some "`"%char) 3 0)
           eq_refl).
Defined.

Section Composition.

Variable transform_fn : Scanner.DirectiveFrame -> list string.
Variable inline_fn : option (string -> result string).

Ltac shifted_done :=
  eexists; split; [reflexivity|];
  unfold shifted; simpl; (split; [|split; [|split; [|split]]]); auto;
  try (rewrite <- app_assoc; reflexivity); try discriminate.

Lemma scan_line_shifted (pre : list string) (st st' s2 : Scanner.state)
  (line : string) :
  shifted pre st st' ->
  Scanner.scan_line transform_fn inline_fn st line = Ok s2 ->
  exists s2',
    Scanner.scan_line transform_fn inline_fn st' line = Ok s2'
    /\ shifted pre s2 s2'.
Proof.
  destruct st as [stk out io ir fc fn fi], st' as [stk' out' io' ir' fc' fn' fi'].
  unfold shifted. simpl. intros (-> & -> & -> & -> & Hf) H.
  unfold Scanner.scan_line in *. simpl in *.
  assert (Hrest : forall s2,
    match stk with
    | current :: below =>
        if Scanner._is_close_fence (Py.lstrip line)
             (Py.len line - Py.len (Py.lstrip line)) current
        then Ok (Scanner.close_top transform_fn
                   (Scanner.mkState stk out io ir fc fn fi) current below)
        else Scanner.inside_directive
               (Scanner.mkState stk out io ir fc fn fi) current below line
    | [] => Scanner.outside_directive inline_fn
              (Scanner.mkState stk out io ir fc fn fi) line
    end = Ok s2 ->
    exists s2',
      match stk with
      | current :: below =>
          if Scanner._is_close_fence (Py.lstrip line)
               (Py.len line - Py.len (Py.lstrip line)) current
          then Ok (Scanner.close_top transform_fn
                     (Scanner.mkState stk (pre ++ out) io ir fc' fn' fi')
                     current below)
          else Scanner.inside_directive
                 (Scanner.mkState stk (pre ++ out) io ir fc' fn' fi')
                 current below line
      | [] => Scanner.outside_directive inline_fn
                (Scanner.mkState stk (pre ++ out) io ir fc' fn' fi') line
      end = Ok s2'
      /\ shifted pre s2 s2').
  { clear H. intros s3 H. destruct stk as [|current below].
    - unfold Scanner.outside_directive in *. simpl in *.
      destruct ir; simpl in *.
      + destruct (Hf eq_refl) as (-> & -> & ->).
        unfold Scanner.regular_fence_closes in *. simpl in *.
        destruct fc as [c|]; [|discriminate].
        destruct (Re.re_match (Scanner.regular_close_re c) line) as [m|].
        * bind_inv H. bind_inv Ha. bind_inv Ha. ok_inv Ha. ok_inv H.
          rewrite Ha0, Ha1. simpl.
          destruct (_ && _); shifted_done.
        * simpl in *. ok_inv H. shifted_done.
      + assert (Hopen : forall m,
          Scanner.open_regular (Scanner.mkState [] out io false fc fn fi) m line
          = Ok s3 ->
          exists s2',
            Scanner.open_regular
              (Scanner.mkState [] (pre ++ out) io false fc' fn' fi') m line
            = Ok s2'
            /\ shifted pre s3 s2').
        { intros m Hm. unfold Scanner.open_regular in *. simpl in *.
          bind_inv Hm. bind_inv Hm. bind_inv Hm. ok_inv Hm.
          rewrite Ha, Ha0. simpl. rewrite Ha1. simpl. shifted_done. }
        destruct (Re.re_match Scanner.REGULAR_FENCE_RE line) as [m|];
          [exact (Hopen _ H)|].
        destruct (Re.re_match Scanner.REGULAR_FENCE_LANG_RE line) as [m|];
          [exact (Hopen _ H)|].
        unfold Scanner.regular_line in *. simpl in *.
        destruct inline_fn as [g|].
        * bind_inv H. ok_inv H. rewrite Ha. simpl. shifted_done.
        * ok_inv H. shifted_done.
    - destruct (Scanner._is_close_fence _ _ current).
      + ok_inv H. unfold Scanner.close_top. simpl.
        destruct below; shifted_done.
      + unfold Scanner.inside_directive in *. simpl in *.
        destruct io.
        * destruct (Re.re_match Scanner.OPTION_RE _) as [m|].
          -- bind_inv H. bind_inv H. ok_inv H. rewrite Ha, Ha0. simpl.
             shifted_done.
          -- destruct (Py.is_empty _); ok_inv H; shifted_done.
        * ok_inv H. shifted_done. }
  destruct (Scanner.open_match line) as [m|]; [|exact (Hrest _ H)].
  destruct ir; [exact (Hrest _ H)|].
  bind_inv H. ok_inv H. rewrite Ha. simpl. shifted_done.
Qed.

Lemma scan_lines_shifted (pre : list string) (lines : list string) :
  forall st st' s2,
    shifted pre st st' ->
    Scanner.scan_lines transform_fn inline_fn st lines = Ok s2 ->
    exists s2',
      Scanner.scan_lines transform_fn inline_fn st' lines = Ok s2'
      /\ shifted pre s2 s2'.
Proof.
  induction lines as [|l lines IH]; intros st st' s2 Hs H; simpl in *.
  - ok_inv H. eauto.
  - bind_inv H.
    destruct (scan_line_shifted pre st st' a l Hs Ha) as (a' & -> & Hs').
    simpl. exact (IH _ _ _ Hs' H).
Qed.

Lemma drain_app (stk : list Scanner.DirectiveFrame) :
  forall pre out,
    Scanner.drain transform_fn stk (pre ++ out)
    = pre ++ Scanner.drain transform_fn stk out.
Proof.
  induction stk as [|f stk IH]; intros pre out; simpl; [reflexivity|].
  now rewrite <- app_assoc, IH.
Qed.

End Composition.

(** X5: lines that leave the scanner outside every directive and plain
    fence are converted independently of the lines after them: the
    output lines of the whole are theirs followed by those of the rest. *)
Theorem closed_prefix_converts_independently
  (transform_fn : Scanner.DirectiveFrame -> list string)
  (inline_fn : option (string -> result string))
  (l1 l2 : list string) (st1 st2 : Scanner.state) :
  Scanner.scan_lines transform_fn inline_fn Scanner.init l1 = Ok st1 ->
  Scanner.stack st1 = [] ->
  Scanner.in_regular_code_fence st1 = false ->
  Scanner.scan_lines transform_fn inline_fn Scanner.init l2 = Ok st2 ->
  exists st,
    Scanner.scan_lines transform_fn inline_fn Scanner.init (l1 ++ l2) = Ok st
    /\ Scanner.drain transform_fn (Scanner.stack st) (Scanner.output_lines st)
       = Scanner.output_lines st1
         ++ Scanner.drain transform_fn (Scanner.stack st2)
              (Scanner.output_lines st2).
Proof.
  intros H1 Hstk Hreg H2.
  assert (Hs : shifted (Scanner.output_lines st1) Scanner.init st1).
  { destruct (scan_lines_modes transform_fn inline_fn l1 Scanner.init st1)
      as [_ Ho]; [split; reflexivity | exact H1 |].
    unfold shifted. simpl. rewrite app_nil_r, Hstk, Hreg, (Ho Hstk).
    repeat split; discriminate. }
  destruct (scan_lines_shifted transform_fn inline_fn _ l2 _ _ _ Hs H2)
    as (st & H & (Hk & _ & _ & Ho & _)).
  exists st. rewrite (scan_lines_app transform_fn inline_fn l1 l2 _ _ H1).
  split; [exact H|]. rewrite Hk, Ho. apply drain_app.
Qed.

Lemma closed_prefix_converts_independently_witness :
  exists st,
    Scanner.scan_lines MystToQuarto.transform_directive
      (Some MystToQuarto.transform_inline) Scanner.init
      (["```{note}"; "a"; "```"] ++ ["```{tip}"; "b"]) = Ok st
    /\ Scanner.drain MystToQuarto.transform_directive (Scanner.stack st)
         (Scanner.output_lines st)
       = ["::: {.callout-note}"; "a"; ":::"]
         ++ ["::: {.callout-tip}"; "b"; ":::"].
Proof.
  exact (closed_prefix_converts_independently
           MystToQuarto.transform_directive
           (Some MystToQuarto.transform_inline)
           ["```{note}"; "a"; "```"] ["```{tip}"; "b"]
           (Scanner.mkState [] ["::: {.callout-note}"; "a"; ":::"]
              false false None 0 0)
           (Scanner.mkState [Scanner.mkFrame "tip" "`" 3 "" [] ["b"] 0] []
              false false None 0 0)
           eq_refl eq_refl eq_refl eq_refl).
Defined.

(** ** Lines of a text *)

Lemma split_append_sep (sep : ascii) (s t : string) :
  Py.mem sep s = false ->
  Py.split sep (s ++ String sep t) = s :: Py.split sep t.
Proof.
  induction s as [|a s IH]; simpl; intros H.
  - now rewrite Ascii.eqb_refl.
  - apply orb_false_iff in H. destruct H as [Ha Hs].
    rewrite Ascii.eqb_sym, Ha, (IH Hs). reflexivity.
Qed.

Lemma split_no_sep (sep : ascii) (s : string) :
  Py.mem sep s = false -> Py.split sep s = [s].
Proof.
  induction s as [|a s IH]; simpl; intros H; [reflexivity|].
  apply orb_false_iff in H. destruct H as [Ha Hs].
  rewrite Ascii.eqb_sym, Ha, (IH Hs). reflexivity.
Qed.

Lemma split_text (lines : list string) :
  lines <> [] ->
  Forall (fun l => Py.mem Py.newline l = false) lines ->
  Py.split Py.newline (text lines) = lines.
Proof.
  unfold text. induction lines as [|x lines IH]; intros Hne Hall; [congruence|].
  inversion Hall as [|? ? Hx Hrest]; subst.
  destruct lines as [|y lines]; [exact (split_no_sep _ _ Hx)|].
  change (Py.join (Py.chr Py.newline) (x :: y :: lines))
    with (x ++ String Py.newline (Py.join (Py.chr Py.newline) (y :: lines)))%string.
  rewrite (split_append_sep _ _ _ Hx), IH; [reflexivity | discriminate | exact Hrest].
Qed.

(** ** How a line begins *)

(** The texts of a repeated class: characters of the class, [min] of them
    at least; the groups are as before. *)
Lemma rep_cls_sound (p : ascii -> bool) (greedy : bool) (min : nat)
  (k : Re.cont) :
  forall fuel cnt prev s c res,
    Re.rep_loop (fun prev' s' c' k' => Re.rx (Re.Cls p) prev' s' c' k')
      greedy min k fuel cnt prev s c = Some res ->
    exists w prev1 s1,
      s = (w ++ s1)%string
      /\ forallb p (list_ascii_of_string w) = true
      /\ min <= cnt + String.length w
      /\ k prev1 s1 c = Some res.
Proof.
  induction fuel as [|fuel IH]; intros cnt prev s c res H; simpl in H.
  - assert (Hk : (if min <=? cnt then k prev s c else None) = Some res).
    { destruct greedy; [exact H|].
      destruct (if min <=? cnt then k prev s c else None);
        [exact H | discriminate]. }
    destruct (min <=? cnt) eqn:E; [|discriminate]. apply Nat.leb_le in E.
    exists "", prev, s. simpl. repeat split; auto. lia.
  - assert (Hcases :
      (if min <=? cnt then k prev s c else None) = Some res
      \/ match s with
         | String a rest =>
             if p a
             then if String.length rest <? String.length s
                  then Re.rep_loop
                         (fun prev' s' c' k' => Re.rx (Re.Cls p) prev' s' c' k')
                         greedy min k fuel (S cnt) (Some a) rest c
                  else None
             else None
         | EmptyString => None
         end = Some res).
    { destruct greedy.
      - destruct s as [|a rest]; [left; exact H|].
        destruct (p a); [|left; exact H].
        destruct (String.length rest <? String.length (String a rest));
          [|left; exact H].
        destruct (Re.rep_loop _ true min k fuel (S cnt) (Some a) rest c);
          [right; exact H | left; exact H].
      - destruct (if min <=? cnt then k prev s c else None);
          [left; exact H | right; exact H]. }
    destruct Hcases as [Hk|Hk].
    + destruct (min <=? cnt) eqn:E; [|discriminate]. apply Nat.leb_le in E.
      exists "", prev, s. simpl. repeat split; auto. lia.
    + destruct s as [|a rest]; [discriminate|].
      destruct (p a) eqn:Ea; [|discriminate].
      destruct (String.length rest <? String.length (String a rest));
        [|discriminate].
      apply IH in Hk. destruct Hk as (w & p1 & s1 & -> & Hw & Hm & Hk).
      exists (String a w), p1, s1. simpl. rewrite Ea, Hw.
      repeat split; auto. lia.
Qed.

Lemma rx_rep_cls (p : ascii -> bool) (greedy : bool) (min : nat)
  (prev : option ascii) (s : string) (c : Re.caps) (k : Re.cont)
  (res : string * Re.caps) :
  Re.rx (Re.Rep greedy min (Re.Cls p)) prev s c k = Some res ->
  exists w prev1 s1,
    s = (w ++ s1)%string
    /\ forallb p (list_ascii_of_string w) = true
    /\ min <= String.length w
    /\ k prev1 s1 c = Some res.
Proof. intros H. exact (rep_cls_sound p greedy min k _ 0 prev s c res H). Qed.

(** An opening fence is whitespace, then the fence character. *)
Lemma fence_open_shape (x : ascii) (line : string) (m : Re.rmatch) :
  Re.re_match (Scanner.fence_open_re x) line = Some m ->
  exists w t,
    line = (w ++ String x t)%string
    /\ forallb Py.is_space (list_ascii_of_string w) = true.
Proof.
  unfold Re.re_match, Re.match_at. intros H.
  destruct (Re.rx (Scanner.fence_open_re x) None line [] Re.accept)
    as [res|] eqn:E; [|discriminate]. clear H.
  change (Re.rx (Re.Rep true 0 (Re.Cls Py.is_space)) None line []
            (fun prev' s' c' =>
               Re.rx (Re.Rep true 3 (Re.Cls (Ascii.eqb x))) prev' s'
                 ((1, Py.take (String.length line - String.length s') line) :: c')
                 (fun prev2 s2 c2 =>
                    Re.rx (Re.seq [Re.chr "{";
                                   Re.Grp 3 (Re.Cat Re.word (Re.star Re.word_dash));
                                   Re.chr "}"; Re.star Re.ws;
                                   Re.Grp 4 (Re.star Re.dot); Re.Eos])
                      prev2 s2
                      ((2, Py.take (String.length s' - String.length s2) s') :: c2)
                      Re.accept))
          = Some res) in E.
  apply rx_rep_cls in E. destruct E as (w & p1 & s1 & -> & Hw & _ & E).
  apply rx_rep_cls in E. destruct E as (w2 & p2 & s2 & -> & Hw2 & Hl & _).
  destruct w2 as [|a t]; [simpl in Hl; lia|]. simpl in Hw2.
  apply andb_prop in Hw2 as [Ha _]. apply Ascii.eqb_eq in Ha. subst a.
  exists w, (t ++ s2)%string. auto.
Qed.

Lemma lstrip_by_prefix (p : ascii -> bool) (w : string) (a : ascii) (t : string) :
  forallb p (list_ascii_of_string w) = true -> p a = false ->
  Py.lstrip_by p (w ++ String a t) = String a t.
Proof.
  intros Hw Ha. induction w as [|b w IH]; simpl in *.
  - now rewrite Ha.
  - apply andb_prop in Hw as [Hb Hw]. rewrite Hb. auto.
Qed.

Lemma strip_head (p : ascii -> bool) (s : string) (a : ascii) (t : string) :
  Py.lstrip_by p (Py.rstrip_by p s) = String a t ->
  exists t', Py.lstrip_by p s = String a t'.
Proof.
  induction s as [|b s IH]; simpl; [discriminate|].
  destruct (Py.rstrip_by p s) as [|r0 r] eqn:Er.
  - destruct (p b) eqn:Eb; simpl; [discriminate|].
    rewrite Eb. intros H. injection H as <- _. eauto.
  - simpl. destruct (p b); [exact IH|].
    intros H. injection H as <- _. eauto.
Qed.

(** What a line that does not begin with a character [x] of [chars]
    cannot be. *)
Lemma begins_with_strip (chars l : string) (x : ascii) (t : string) :
  begins_with chars l = false -> Py.mem x chars = true ->
  Py.strip l <> String x t.
Proof.
  unfold begins_with, Py.strip, Py.lstrip, Py.rstrip. intros H Hx E.
  apply strip_head in E. destruct E as (t' & E). rewrite E in H. congruence.
Qed.

Lemma begins_with_open_match (l : string) :
  begins_with "`:" l = false -> Scanner.open_match l = None.
Proof.
  intros H. unfold Scanner.open_match.
  assert (Hno : forall x, Py.mem x "`:" = true -> Py.is_space x = false ->
            Re.re_match (Scanner.fence_open_re x) l = None).
  { intros x Hx Hs.
    destruct (Re.re_match (Scanner.fence_open_re x) l) as [m|] eqn:E;
      [|reflexivity].
    apply fence_open_shape in E. destruct E as (w & t & -> & Hw).
    unfold begins_with, Py.lstrip in H.
    rewrite (lstrip_by_prefix _ _ _ _ Hw Hs) in H. congruence. }
  unfold Scanner.BACKTICK_OPEN_RE, Scanner.COLON_OPEN_RE.
  rewrite (Hno "`"%char), (Hno ":"%char); reflexivity.
Qed.

Lemma begins_with_closes (f : Scanner.DirectiveFrame) (l : string) :
  begins_with "`:" l = false -> Py.mem (Scanner.fence_char f) "`:" = true ->
  closes f l = false.
Proof.
  unfold begins_with, closes, Scanner._is_close_fence. intros H Hf.
  destruct (Py.lstrip l) as [|a t]; [reflexivity|].
  destruct (Ascii.eqb a (Scanner.fence_char f)) eqn:E; [|reflexivity].
  apply Ascii.eqb_eq in E. subst a. congruence.
Qed.

(** A pattern that opens with a run of one or more [x] matches no text
    that begins otherwise. *)
Lemma run_start_none (x : ascii) (n : nat) (r : Re.regex) (s : string) :
  1 <= n -> (forall t, s <> String x t) ->
  Re.re_match (Re.Cat Re.Bos (Re.Cat (Re.Grp 1 (Re.Rep true n (Re.chr x))) r)) s
  = None.
Proof.
  intros Hn Hs. unfold Re.re_match, Re.match_at.
  destruct s as [|a t].
  - simpl. destruct n; [lia | reflexivity].
  - assert (Ha : Ascii.eqb x a = false).
    { destruct (Ascii.eqb x a) eqn:E; [|reflexivity].
      apply Ascii.eqb_eq in E. subst a. elim (Hs t). reflexivity. }
    simpl. rewrite Ha. destruct n; [lia | reflexivity].
Qed.

Lemma char_start_none (x : ascii) (r : Re.regex) (s : string) :
  (forall t, s <> String x t) ->
  Re.re_match (Re.Cat Re.Bos (Re.Cat (Re.chr x) r)) s = None.
Proof.
  intros Hs. unfold Re.re_match, Re.match_at.
  destruct s as [|a t]; [reflexivity|].
  assert (Ha : Ascii.eqb x a = false).
  { destruct (Ascii.eqb x a) eqn:E; [|reflexivity].
    apply Ascii.eqb_eq in E. subst a. elim (Hs t). reflexivity. }
  simpl. rewrite Ha. reflexivity.
Qed.

(** ** A directive at the top level, from its opening to its closing
    fence *)

Lemma strip_indent_0 (l : string) : Scanner._strip_indent l 0 = l.
Proof. reflexivity. Qed.

Section TopLevel.

Variable transform_fn : Scanner.DirectiveFrame -> list string.
Variable inline_fn : option (string -> result string).

Lemma scan_top_level_directive (opener closer : string)
  (F : Scanner.DirectiveFrame) (body : list string) :
  (exists m, Scanner.open_match opener = Some m
             /\ Scanner.open_frame m = Ok F) ->
  Scanner.indent F = 0 -> Scanner.body_lines F = [] ->
  Forall (inner_line F) body ->
  (forall b rest, body = b :: rest ->
     Re.re_match Scanner.OPTION_RE (Py.strip b) = None /\ Py.strip b <> "") ->
  Scanner.open_match closer = None -> closes F closer = true ->
  Scanner.scan_lines transform_fn inline_fn Scanner.init
    (opener :: body ++ [closer])
  = Ok (Scanner.mkState []
          (transform_fn (Scanner.with_body_lines F body))
          false false None 0 0).
Proof.
  intros (m & Hopen & HF) Hind Hbody Hall Hfirst Hco Hcl.
  simpl. unfold Scanner.scan_line at 1. rewrite Hopen, HF. simpl.
  set (st0 := Scanner.with_in_options
                (Scanner.with_stack Scanner.init [F]) true).
  assert (Hclose : forall st G,
    Scanner.stack st = [G] -> same_fence F G ->
    Scanner.output_lines st = [] ->
    Scanner.in_regular_code_fence st = false ->
    Scanner.regular_fence_char st = None ->
    Scanner.regular_fence_count st = 0 ->
    Scanner.regular_fence_indent st = 0 ->
    Scanner.scan_lines transform_fn inline_fn st [closer]
    = Ok (Scanner.mkState [] (transform_fn G) false false None 0 0)).
  { intros st G Hst Hs Ho Hr Hc Hn Hi. simpl.
    rewrite (scan_line_close transform_fn inline_fn st G [] closer Hst Hco).
    - destruct st. simpl in *. subst. reflexivity.
    - fold (closes G closer). now rewrite (closes_same_fence F G closer Hs). }
  destruct body as [|b rest].
  - simpl app. rewrite (Hclose st0 F); try reflexivity.
    + destruct F. simpl in *. subst. reflexivity.
    + repeat split.
  - inversion Hall as [|? ? [Hbo Hbc] Hrest]; subst.
    destruct (Hfirst b rest eq_refl) as [Hopt Hne].
    simpl app. simpl Scanner.scan_lines.
    rewrite (scan_line_inside transform_fn inline_fn st0 F [] b
               eq_refl Hbo Hbc).
    unfold Scanner.inside_directive. simpl Scanner.in_options. cbv iota.
    rewrite Hind, strip_indent_0, Hopt.
    destruct (Py.strip b) eqn:Es; [congruence|]. simpl Py.is_empty. cbv iota.
    simpl bind.
    set (F1 := Scanner.with_body_lines F (Scanner.body_lines F
                 ++ [Scanner._strip_indent b (Scanner.indent F)])).
    set (st1 := Scanner.add_body (Scanner.with_in_options st0 false) F [] b).
    assert (Hsame1 : same_fence F F1) by (repeat split).
    set (F2 := Scanner.with_body_lines F1
                 (Scanner.body_lines F1
                  ++ map (fun l => Scanner._strip_indent l (Scanner.indent F1))
                       rest)).
    rewrite (scan_lines_app transform_fn inline_fn rest [closer] st1
               (Scanner.with_stack st1 [F2])).
    + rewrite (Hclose (Scanner.with_stack st1 [F2]) F2); try reflexivity.
      * unfold F2, F1. simpl. rewrite Hbody, Hind, strip_indent_0.
        rewrite (map_ext _ (fun l => l)) by reflexivity.
        rewrite map_id. reflexivity.
      * repeat split.
    + apply scan_lines_body; [reflexivity | reflexivity |].
      eapply Forall_impl; [|exact Hrest].
      intros x [Ho Hc]. split; [exact Ho|].
      rewrite <- Hc. apply closes_same_fence. exact Hsame1.
Qed.

End TopLevel.

(** ** Blocks of the reverse scanner *)

Lemma collect_body (close_re : Re.regex) (n : nat) (closer : string)
  (cm : Re.rmatch) (g : string) (after : list string) (body : list string) :
  Forall (fun l => Re.re_match close_re (Py.strip l) = None) body ->
  Re.re_match close_re (Py.strip closer) = Some cm ->
  Re.group_str cm 1 = Ok g -> n <= Py.len g ->
  QuartoToMyst.collect close_re n (body ++ closer :: after) = Ok (body, after).
Proof.
  intros Hall Hc Hg Hn. induction body as [|l body IH]; simpl.
  - rewrite Hc, Hg. simpl. apply Nat.leb_le in Hn. rewrite Hn. reflexivity.
  - inversion Hall as [|? ? Hl Hrest]; subst. rewrite Hl. simpl.
    rewrite (IH Hrest). reflexivity.
Qed.

Lemma colon_block_body (m : Re.rmatch) (g : string) (body : list string)
  (after : list string) (build : list string -> result (list string))
  (lines : list string) (st : QuartoToMyst.state) :
  Re.group_str m 1 = Ok g -> Py.len g <= 3 ->
  Forall (fun l => Re.re_match QuartoToMyst._COLON_CLOSE_RE (Py.strip l) = None)
    body ->
  build body = Ok lines ->
  QuartoToMyst.colon_block m (body ++ ":::" :: after) build st
  = Ok (after, QuartoToMyst.emit st lines).
Proof.
  intros Hg Hl Hall Hb. unfold QuartoToMyst.colon_block. rewrite Hg. simpl bind.
  rewrite (collect_body QuartoToMyst._COLON_CLOSE_RE (Py.len g) ":::"
             (Re.mkMatch ":::" "" [(1, ":::")]) ":::" after body Hall);
    [| reflexivity | reflexivity | exact Hl].
  simpl. rewrite Hb. reflexivity.
Qed.

Lemma body_line_no_colon_close (l : string) :
  begins_with "`:" l = false ->
  Re.re_match QuartoToMyst._COLON_CLOSE_RE (Py.strip l) = None.
Proof.
  intros H. apply (run_start_none ":" 3); [lia|].
  intros t. apply (begins_with_strip "`:"); [exact H | reflexivity].
Qed.

Lemma body_line_no_backtick_close (l : string) :
  begins_with "`:" l = false ->
  Re.re_match QuartoToMyst._BACKTICK_CLOSE_RE (Py.strip l) = None.
Proof.
  intros H. apply (run_start_none "`" 3); [lia|].
  intros t. apply (begins_with_strip "`:"); [exact H | reflexivity].
Qed.

Lemma body_line_no_option (l : string) :
  begins_with "`:" l = false ->
  Re.re_match Scanner.OPTION_RE (Py.strip l) = None.
Proof.
  intros H. apply (char_start_none ":").
  intros t. apply (begins_with_strip "`:"); [exact H | reflexivity].
Qed.

Lemma body_line_inner (f : Scanner.DirectiveFrame) (l : string) :
  Py.mem (Scanner.fence_char f) "`:" = true ->
  begins_with "`:" l = false -> inner_line f l.
Proof.
  intros Hf H. split;
    [apply begins_with_open_match | apply begins_with_closes]; assumption.
Qed.

(** ** Admonitions *)

Lemma admonition_forward (kind : string) (body : list string) :
  In kind MystToQuarto._ADMONITION_TYPES ->
  Forall body_line body -> first_not_blank body ->
  MystToQuarto.convert_myst_to_quarto
    (text (String.append "```{" (String.append kind "}") :: body ++ ["```"]))
  = Ok (text (String.append "::: {.callout-" (String.append kind "}")
              :: body ++ [":::"])).
Proof.
  intros Hk Hall Hfirst.
  unfold MystToQuarto.convert_myst_to_quarto, Scanner.scan.
  assert (Hnl : Forall (fun l => Py.mem Py.newline l = false) body).
  { eapply Forall_impl; [|exact Hall]. intros l [H _]. exact H. }
  assert (Hin : forall F, Py.mem (Scanner.fence_char F) "`:" = true ->
            Forall (inner_line F) body).
  { intros F HF. eapply Forall_impl; [|exact Hall].
    intros l [_ H]. exact (body_line_inner _ _ HF H). }
  assert (Hopt : forall b rest, body = b :: rest ->
            Re.re_match Scanner.OPTION_RE (Py.strip b) = None
            /\ Py.strip b <> "").
  { intros b rest E. split; [|exact (Hfirst b rest E)].
    subst body. inversion Hall as [|? ? [_ H] _]. exact (body_line_no_option _ H). }
  simpl in Hk.
  repeat (destruct Hk as [<-|Hk]); [| | | | |contradiction];
    (rewrite split_text;
     [| discriminate
      | apply Forall_cons; [reflexivity|];
        apply Forall_app; split; [exact Hnl | repeat constructor] ];
     match goal with
     | |- context [Scanner.scan_lines _ _ _ (String.append _ (String.append ?k _) :: _)] =>
         rewrite (scan_top_level_directive MystToQuarto.transform_directive
                    (Some MystToQuarto.transform_inline) _ "```"
                    (Scanner.mkFrame k "`" 3 "" [] [] 0) body)
     end;
     [ reflexivity
     | eexists; split; vm_compute; reflexivity
     | reflexivity | reflexivity
     | apply Hin; reflexivity
     | exact Hopt
     | reflexivity | reflexivity ]).
Qed.

Lemma step_callout (kind : string) (body after : list string)
  (st : QuartoToMyst.state) :
  In kind MystToQuarto._ADMONITION_TYPES ->
  Forall body_line body ->
  QuartoToMyst.step (String.append "::: {.callout-" (String.append kind "}"))
    (body ++ ":::" :: after) st
  = Ok (after,
        QuartoToMyst.emit st
          (String.append "```{" (String.append kind "}") :: body ++ ["```"])).
Proof.
  intros Hk Hall.
  assert (Hcl : Forall (fun l => Re.re_match QuartoToMyst._COLON_CLOSE_RE
                                   (Py.strip l) = None) body).
  { eapply Forall_impl; [|exact Hall].
    intros l [_ H]. exact (body_line_no_colon_close _ H). }
  simpl in Hk.
  repeat (destruct Hk as [<-|Hk]); [| | | | |contradiction];
    (unfold QuartoToMyst.step, QuartoToMyst.block_or_line; cbv zeta;
     match goal with
     | |- context [Re.re_match QuartoToMyst._EXEC_CODE_RE ?s] =>
         replace (Re.re_match QuartoToMyst._EXEC_CODE_RE s)
           with (@None Re.rmatch) by (vm_compute; reflexivity);
         destruct (Re.re_match QuartoToMyst._CALLOUT_RE s) as [m|] eqn:E;
           vm_compute in E; [|discriminate E]
     end;
     injection E as <-;
     simpl (Re.group_str _ 2); simpl bind; simpl (Re.group _ 3); cbv iota;
     apply (colon_block_body _ ":::");
     [ reflexivity | simpl; lia | exact Hcl | reflexivity ]).
Qed.

Lemma admonition_reverse (kind : string) (body : list string) :
  In kind MystToQuarto._ADMONITION_TYPES ->
  Forall body_line body ->
  QuartoToMyst.convert_quarto_to_myst
    (text (String.append "::: {.callout-" (String.append kind "}")
           :: body ++ [":::"]))
  = Ok (text (String.append "```{" (String.append kind "}") :: body ++ ["```"])).
Proof.
  intros Hk Hall. unfold QuartoToMyst.convert_quarto_to_myst. cbv zeta.
  assert (Hnl : Forall (fun l => Py.mem Py.newline l = false) body).
  { eapply Forall_impl; [|exact Hall]. intros l [H _]. exact H. }
  rewrite split_text.
  - match goal with
    | |- context [QuartoToMyst.loop _ (?h :: ?t) ?st] =>
        change (QuartoToMyst.loop (length (h :: t)) (h :: t) st)
          with (r <- QuartoToMyst.step h t st ;;
                QuartoToMyst.loop (length t) (fst r) (snd r))
    end.
    rewrite (step_callout kind body [] QuartoToMyst.init Hk Hall). simpl bind.
    destruct (length (body ++ [":::"])); reflexivity.
  - discriminate.
  - constructor.
    + simpl in Hk.
      repeat (destruct Hk as [<-|Hk]); try reflexivity; contradiction.
    + apply Forall_app. split; [exact Hnl | repeat constructor].
Qed.

(** X6: an admonition of one of the five kinds whose body lines do not
    begin with a fence character, the first of them not blank, becomes
    the callout block of its kind around the same lines, and that block
    becomes the admonition again. *)
Theorem admonition_round_trip_with_body (kind : string) (body : list string) :
  In kind MystToQuarto._ADMONITION_TYPES ->
  Forall body_line body -> first_not_blank body ->
  MystToQuarto.convert_myst_to_quarto
    (text (String.append "```{" (String.append kind "}") :: body ++ ["```"]))
  = Ok (text (String.append "::: {.callout-" (String.append kind "}")
              :: body ++ [":::"]))
  /\ QuartoToMyst.convert_quarto_to_myst
       (text (String.append "::: {.callout-" (String.append kind "}")
              :: body ++ [":::"]))
     = Ok (text (String.append "```{" (String.append kind "}")
                 :: body ++ ["```"])).
Proof.
  intros Hk Hall Hfirst. split.
  - exact (admonition_forward kind body Hk Hall Hfirst).
  - exact (admonition_reverse kind body Hk Hall).
Qed.

Lemma admonition_round_trip_with_body_witness :
  MystToQuarto.convert_myst_to_quarto
    (text ["```{warning}"; "Mind the {cite}`gap`."; ""; "  - twice"; "```"])
  = Ok (text ["::: {.callout-warning}"; "Mind the {cite}`gap`."; "";
              "  - twice"; ":::"])
  /\ QuartoToMyst.convert_quarto_to_myst
       (text ["::: {.callout-warning}"; "Mind the {cite}`gap`."; "";
              "  - twice"; ":::"])
     = Ok (text ["```{warning}"; "Mind the {cite}`gap`."; ""; "  - twice";
                 "```"]).
Proof.
  apply (admonition_round_trip_with_body "warning"
           ["Mind the {cite}`gap`."; ""; "  - twice"]).
  - simpl. tauto.
  - repeat constructor.
  - intros b rest E. injection E as <- _. discriminate.
Defined.

(** ** Code cells *)

Lemma cell_option_none (s : string) :
  Py.startswith s "#|" = false ->
  Re.re_match QuartoToMyst._CELL_OPTION_RE s = None.
Proof.
  unfold Py.startswith, Re.re_match, Re.match_at. intros H.
  destruct s as [|a [|b t]].
  - reflexivity.
  - cbn -[Ascii.eqb Py.is_space Nat.ltb Nat.leb].
    destruct (Ascii.eqb "#" a); reflexivity.
  - simpl in H. cbn -[Ascii.eqb Py.is_space Nat.ltb Nat.leb].
    destruct (Ascii.eqb "#" a) eqn:Ea; [|reflexivity].
    apply Ascii.eqb_eq in Ea. subst a.
    destruct (Ascii.eqb "|" b) eqn:Eb; [|reflexivity].
    apply Ascii.eqb_eq in Eb. subst b. simpl in H.
    destruct t; discriminate H.
Qed.

Lemma parse_cell_options_code (body : list string) :
  first_is_code body ->
  QuartoToMyst._parse_cell_options body = Ok ([], body).
Proof.
  intros H. unfold QuartoToMyst._parse_cell_options.
  destruct body as [|b rest]; [reflexivity|].
  destruct (H b rest eq_refl) as [Hne Hs]. simpl.
  rewrite (cell_option_none _ Hs). simpl.
  destruct (Py.strip b); [congruence | reflexivity].
Qed.

Lemma code_cell_forward (lang : string) (body : list string) :
  In lang QuartoToMyst._EXEC_LANGUAGES ->
  Forall body_line body -> first_not_blank body ->
  MystToQuarto.convert_myst_to_quarto
    (text (String.append "```{code-cell} " lang :: body ++ ["```"]))
  = Ok (text (String.append "```{" (String.append lang "}")
              :: body ++ ["```"])).
Proof.
  intros Hk Hall Hfirst.
  unfold MystToQuarto.convert_myst_to_quarto, Scanner.scan.
  assert (Hnl : Forall (fun l => Py.mem Py.newline l = false) body).
  { eapply Forall_impl; [|exact Hall]. intros l [H _]. exact H. }
  assert (Hin : forall F, Py.mem (Scanner.fence_char F) "`:" = true ->
            Forall (inner_line F) body).
  { intros F HF. eapply Forall_impl; [|exact Hall].
    intros l [_ H]. exact (body_line_inner _ _ HF H). }
  assert (Hopt : forall b rest, body = b :: rest ->
            Re.re_match Scanner.OPTION_RE (Py.strip b) = None
            /\ Py.strip b <> "").
  { intros b rest E. split; [|exact (Hfirst b rest E)].
    subst body. inversion Hall as [|? ? [_ H] _]. exact (body_line_no_option _ H). }
  simpl in Hk.
  repeat (destruct Hk as [<-|Hk]); try contradiction;
    (rewrite split_text;
     [| discriminate
      | apply Forall_cons; [reflexivity|];
        apply Forall_app; split; [exact Hnl | repeat constructor] ];
     match goal with
     | |- context [Scanner.scan_lines _ _ _ (String.append _ ?k :: _)] =>
         rewrite (scan_top_level_directive MystToQuarto.transform_directive
                    (Some MystToQuarto.transform_inline) _ "```"
                    (Scanner.mkFrame "code-cell" "`" 3 k [] [] 0) body)
     end;
     [ reflexivity
     | eexists; split; vm_compute; reflexivity
     | reflexivity | reflexivity
     | apply Hin; reflexivity
     | exact Hopt
     | reflexivity | reflexivity ]).
Qed.

Lemma step_exec_code (lang : string) (body after : list string)
  (st : QuartoToMyst.state) :
  In lang QuartoToMyst._EXEC_LANGUAGES ->
  Forall body_line body -> first_is_code body ->
  QuartoToMyst.step (String.append "```{" (String.append lang "}"))
    (body ++ "```" :: after) st
  = Ok (after,
        QuartoToMyst.emit st
          (String.append "```{code-cell} " lang :: body ++ ["```"])).
Proof.
  intros Hk Hall Hfirst.
  assert (Hcl : Forall (fun l => Re.re_match QuartoToMyst._BACKTICK_CLOSE_RE
                                   (Py.strip l) = None) body).
  { eapply Forall_impl; [|exact Hall].
    intros l [_ H]. exact (body_line_no_backtick_close _ H). }
  simpl in Hk.
  repeat (destruct Hk as [<-|Hk]); try contradiction;
    (unfold QuartoToMyst.step; cbv zeta;
     match goal with
     | |- context [Re.re_match QuartoToMyst._EXEC_CODE_RE ?s] =>
         destruct (Re.re_match QuartoToMyst._EXEC_CODE_RE s) as [m|] eqn:E;
           vm_compute in E; [|discriminate E]
     end;
     injection E as <-;
     simpl (Re.group_str _ _); simpl bind; simpl (existsb _ _); cbv iota;
     rewrite (collect_body QuartoToMyst._BACKTICK_CLOSE_RE 3 "```"
                (Re.mkMatch "```" "" [(1, "```")]) "```" after body Hcl);
     [| reflexivity | reflexivity | simpl; lia];
     simpl bind; simpl fst; simpl snd;
     rewrite (parse_cell_options_code body Hfirst); reflexivity).
Qed.

Lemma code_cell_reverse (lang : string) (body : list string) :
  In lang QuartoToMyst._EXEC_LANGUAGES ->
  Forall body_line body -> first_is_code body ->
  QuartoToMyst.convert_quarto_to_myst
    (text (String.append "```{" (String.append lang "}") :: body ++ ["```"]))
  = Ok (text (String.append "```{code-cell} " lang :: body ++ ["```"])).
Proof.
  intros Hk Hall Hfirst. unfold QuartoToMyst.convert_quarto_to_myst. cbv zeta.
  assert (Hnl : Forall (fun l => Py.mem Py.newline l = false) body).
  { eapply Forall_impl; [|exact Hall]. intros l [H _]. exact H. }
  rewrite split_text.
  - match goal with
    | |- context [QuartoToMyst.loop _ (?h :: ?t) ?st] =>
        change (QuartoToMyst.loop (length (h :: t)) (h :: t) st)
          with (r <- QuartoToMyst.step h t st ;;
                QuartoToMyst.loop (length t) (fst r) (snd r))
    end.
    rewrite (step_exec_code lang body [] QuartoToMyst.init Hk Hall Hfirst).
    simpl bind. destruct (length (body ++ ["```"])); reflexivity.
  - discriminate.
  - constructor.
    + simpl in Hk.
      repeat (destruct Hk as [<-|Hk]); try reflexivity; contradiction.
    + apply Forall_app. split; [exact Hnl | repeat constructor].
Qed.

(** X7: a code cell in one of the executable languages, without options,
    whose body lines do not begin with a fence character and whose first
    line is code, becomes the executable block of its language around
    the same lines, and that block becomes the code cell again. *)
Theorem code_cell_round_trip (lang : string) (body : list string) :
  In lang QuartoToMyst._EXEC_LANGUAGES ->
  Forall body_line body -> first_is_code body ->
  MystToQuarto.convert_myst_to_quarto
    (text (String.append "```{code-cell} " lang :: body ++ ["```"]))
  = Ok (text (String.append "```{" (String.append lang "}")
              :: body ++ ["```"]))
  /\ QuartoToMyst.convert_quarto_to_myst
       (text (String.append "```{" (String.append lang "}")
              :: body ++ ["```"]))
     = Ok (text (String.append "```{code-cell} " lang :: body ++ ["```"])).
Proof.
  intros Hk Hall Hfirst. split.
  - apply (code_cell_forward lang body Hk Hall).
    intros b rest E. exact (proj1 (Hfirst b rest E)).
  - exact (code_cell_reverse lang body Hk Hall Hfirst).
Qed.

Lemma code_cell_round_trip_witness :
  MystToQuarto.convert_myst_to_quarto
    (text ["```{code-cell} r"; "# mean"; "x <- c(1, 2)"; ""; "mean(x)"; "```"])
  = Ok (text ["```{r}"; "# mean"; "x <- c(1, 2)"; ""; "mean(x)"; "```"])
  /\ QuartoToMyst.convert_quarto_to_myst
       (text ["```{r}"; "# mean"; "x <- c(1, 2)"; ""; "mean(x)"; "```"])
     = Ok (text ["```{code-cell} r"; "# mean"; "x <- c(1, 2)"; ""; "mean(x)";
                 "```"]).
Proof.
  apply (code_cell_round_trip "r" ["# mean"; "x <- c(1, 2)"; ""; "mean(x)"]).
  - simpl. tauto.
  - repeat constructor.
  - intros b rest E. injection E as <- _. split; [discriminate | reflexivity].
Defined.

(** ** At signs inside words *)

Lemma guarded_at_unmatched (r : Re.regex) :
  forall s prev,
    ats_follow_words prev s = true ->
    unmatched (Re.Cat (Re.NotBehind Py.is_word) (Re.Cat (Re.chr "@") r)) prev s.
Proof.
  induction s as [|c t IH]; intros prev H.
  - split; [|exact I]. unfold Re.match_at. simpl.
    destruct prev as [a|]; [destruct (Py.is_word a)|]; reflexivity.
  - simpl in H. apply andb_prop in H as [Hc Ht].
    split; [|exact (IH _ Ht)].
    unfold Re.match_at. cbn -[Ascii.eqb Py.is_word].
    destruct (Ascii.eqb "@" c) eqn:E.
    + apply Ascii.eqb_eq in E. subst c. simpl in Hc.
      destruct prev as [a|]; [|discriminate]. now rewrite Hc.
    + destruct prev as [a|]; [destruct (Py.is_word a)|]; reflexivity.
Qed.

Lemma re_sub_guarded_at (r : Re.regex) (repl : Re.rmatch -> result string)
  (s : string) :
  ats_follow_words None s = true ->
  Re.re_sub (Re.Cat (Re.NotBehind Py.is_word) (Re.Cat (Re.chr "@") r)) repl s
  = Ok s.
Proof.
  intros H. apply sub_from_unmatched; [|apply le_n].
  now apply guarded_at_unmatched.
Qed.

Lemma quarto_inline_guarded (line : string) :
  Py.mem "{" line = false -> Py.mem "[" line = false ->
  ats_follow_words None line = true ->
  QuartoToMyst.transform_quarto_inline line = Ok line.
Proof.
  intros H1 H2 H3. unfold QuartoToMyst.transform_quarto_inline.
  destruct (Py.is_empty line); [reflexivity|].
  rewrite (re_sub_absent "{"); [simpl bind | reflexivity | exact H1].
  rewrite (re_sub_absent "["); [simpl bind | reflexivity | exact H2].
  rewrite (re_sub_absent "["); [simpl bind | reflexivity | exact H2].
  unfold QuartoToMyst._FIG_REF_RE, QuartoToMyst._EQ_REF_RE,
    QuartoToMyst._TBL_REF_RE, QuartoToMyst._SEC_REF_RE,
    QuartoToMyst._BARE_CITE_RE, QuartoToMyst.prefixed_ref_re.
  cbn [Re.seq].
  repeat (rewrite re_sub_guarded_at by exact H3; simpl bind).
  rewrite (re_sub_absent "["); [reflexivity | reflexivity | exact H2].
Qed.

(** X8: a line without a brace or an opening bracket, whose at signs all
    follow a word character as in a mail address, is left as it is by
    the reverse inline rewriter. *)
Theorem at_sign_inside_word_is_kept (line : string) :
  Py.mem "{" line = false -> Py.mem "[" line = false ->
  ats_follow_words None line = true ->
  QuartoToMyst.transform_quarto_inline line = Ok line.
Proof. exact (quarto_inline_guarded line). Qed.

Lemma at_sign_inside_word_is_kept_witness :
  QuartoToMyst.transform_quarto_inline "Write to ann@example.org (or bob@x.io)."
  = Ok "Write to ann@example.org (or bob@x.io).".
Proof.
  apply at_sign_inside_word_is_kept; reflexivity.
Defined.

(** ** A run of a class under a greedy repetition *)

(** A greedy repetition of a class takes a whole run [w] of the class
    when the text goes on with another character, or ends, and the rest
    of the pattern matches from there. *)
Lemma rep_loop_run
  (iter : option ascii -> string -> Re.caps -> Re.cont
          -> option (string * Re.caps))
  (p : ascii -> bool) (min : nat) (k : Re.cont) (s' : string) (c : Re.caps)
  (res : string * Re.caps) :
  (forall prev s c0 k0,
     iter prev s c0 k0
     = match s with
       | String a rest => if p a then k0 (Some a) rest c0 else None
       | EmptyString => None
       end) ->
  (forall a t, s' = String a t -> p a = false) ->
  (forall prev, k prev s' c = Some res) ->
  forall w fuel cnt prev,
    forallb p (list_ascii_of_string w) = true ->
    min <= cnt + String.length w ->
    String.length (w ++ s') <= fuel ->
    Re.rep_loop iter true min k fuel cnt prev (w ++ s')%string c = Some res.
Proof.
  intros Hiter Hstop Hk.
  induction w as [|a w IH]; intros fuel cnt prev Hw Hmin Hfuel.
  - simpl in Hmin. simpl append.
    assert (E : (min <=? cnt) = true) by (apply Nat.leb_le; lia).
    destruct fuel; simpl; rewrite ?Hiter, E.
    + apply Hk.
    + destruct s' as [|b t]; [apply Hk|].
      rewrite (Hstop b t eq_refl). apply Hk.
  - simpl in Hw. apply andb_prop in Hw as [Ha Hw].
    destruct fuel as [|fuel]; [simpl in Hfuel; lia|].
    simpl. rewrite Hiter, Ha.
    replace (String.length (w ++ s') <? S (String.length (w ++ s')))
      with true by (symmetry; apply Nat.ltb_lt; lia).
    rewrite IH; [reflexivity | exact Hw | simpl in Hmin; lia
                 | simpl in Hfuel; lia].
Qed.

Lemma rx_run (p : ascii -> bool) (min : nat) (k : Re.cont) (w s' : string)
  (prev : option ascii) (c : Re.caps) (res : string * Re.caps) :
  forallb p (list_ascii_of_string w) = true ->
  min <= String.length w ->
  (forall a t, s' = String a t -> p a = false) ->
  (forall prev', k prev' s' c = Some res) ->
  Re.rx (Re.Rep true min (Re.Cls p)) prev (w ++ s')%string c k = Some res.
Proof.
  intros Hw Hmin Hstop Hk. simpl.
  apply (rep_loop_run _ p); auto.
Qed.

Lemma forallb_mem (p : ascii -> bool) (x : ascii) (s : string) :
  forallb p (list_ascii_of_string s) = true -> p x = false ->
  Py.mem x s = false.
Proof.
  intros H Hx. induction s as [|a s IH]; simpl in *; [reflexivity|].
  apply andb_prop in H as [Ha Hs]. rewrite (IH Hs).
  destruct (Ascii.eqb x a) eqn:E; [|reflexivity].
  apply Ascii.eqb_eq in E. subst a. congruence.
Qed.

Lemma forallb_weaken (p q : ascii -> bool) (s : string) :
  (forall a, p a = true -> q a = true) ->
  forallb p (list_ascii_of_string s) = true ->
  forallb q (list_ascii_of_string s) = true.
Proof.
  intros Hpq. induction s as [|a s IH]; simpl; [reflexivity|].
  intros H. apply andb_prop in H as [Ha Hs]. now rewrite (Hpq a Ha), IH.
Qed.

Lemma lstrip_by_none (p : ascii -> bool) (s : string) :
  (forall a t, s = String a t -> p a = false) -> Py.lstrip_by p s = s.
Proof.
  intros H. destruct s as [|a t]; [reflexivity|]. simpl.
  now rewrite (H a t eq_refl).
Qed.

Lemma rstrip_by_none (p q : ascii -> bool) (s : string) :
  forallb q (list_ascii_of_string s) = true ->
  (forall a, q a = true -> p a = false) ->
  Py.rstrip_by p s = s.
Proof.
  intros H Hqp. induction s as [|a s IH]; simpl in *; [reflexivity|].
  apply andb_prop in H as [Ha Hs]. rewrite (IH Hs).
  destruct s; [now rewrite (Hqp a Ha) | reflexivity].
Qed.

(** ** The citation of one key *)

Lemma take_full (s : string) : Py.take (String.length s - 0) s = s.
Proof.
  rewrite Nat.sub_0_r. induction s as [|a s IH]; simpl; [reflexivity|].
  now rewrite IH.
Qed.

Lemma key_length (key : string) : is_key key -> 1 <= String.length key.
Proof. intros [Hne _]. destruct key; [congruence | simpl; lia]. Qed.

Lemma key_chars (key : string) (q : ascii -> bool) :
  is_key key ->
  (forall a, Py.is_word a || Ascii.eqb a "-" = true -> q a = true) ->
  forallb q (list_ascii_of_string key) = true.
Proof. intros [_ H] Hq. exact (forallb_weaken _ _ _ Hq H). Qed.

Lemma key_without (key : string) (x : ascii) :
  is_key key -> Py.is_word x || Ascii.eqb x "-" = false ->
  Py.mem x key = false.
Proof. intros [_ H] Hx. exact (forallb_mem _ _ _ H Hx). Qed.

Lemma word_dash_not (x a : ascii) :
  Py.is_word x || Ascii.eqb x "-" = false ->
  Py.is_word a || Ascii.eqb a "-" = true ->
  negb (Ascii.eqb a x) = true.
Proof.
  intros Hx Ha. destruct (Ascii.eqb a x) eqn:E; [|reflexivity].
  apply Ascii.eqb_eq in E. subst a. congruence.
Qed.

(** One match that is the whole text is replaced, and nothing else. *)
Lemma sub_from_whole (r : Re.regex) (repl : Re.rmatch -> result string)
  (fuel : nat) (prev : option ascii) (s : string) (m : Re.rmatch)
  (out : string) :
  Re.match_at r prev s = Some m ->
  Re.rest m = "" -> Re.whole m <> "" ->
  repl m = Ok out ->
  (forall prev', Re.match_at r prev' "" = None) ->
  1 <= fuel ->
  Re.sub_from r repl fuel prev s = Ok out.
Proof.
  intros Hm Hrest Hwhole Hout Hend Hfuel.
  destruct fuel as [|fuel]; [lia|].
  simpl. rewrite Hm, Hout. simpl bind.
  destruct (Re.whole m) as [|a w] eqn:Ew; [congruence|].
  rewrite Hrest.
  destruct fuel; simpl; rewrite Hend; simpl; now rewrite append_nil_r.
Qed.

Lemma cite_match (key : string) :
  is_key key ->
  Re.match_at MystToQuarto._CITE_RE None
    (String.append "{cite}`" (String.append key "`"))
  = Some (Re.mkMatch (String.append "{cite}`" (String.append key "`")) ""
            [(1, key)]).
Proof.
  intros Hk. unfold Re.match_at.
  cbn -[Ascii.eqb Nat.ltb Nat.leb Nat.sub Py.take String.length].
  rewrite (rep_loop_run _ (fun a => negb (Ascii.eqb a "`")) 1 _ "`" []
             ("", [(1, key)])).
  - cbn -[Nat.sub Py.take String.length]. rewrite take_full. reflexivity.
  - reflexivity.
  - intros a t E. injection E as <- _. reflexivity.
  - intros prev. cbn -[Nat.sub Py.take String.length].
    rewrite take_append. reflexivity.
  - apply key_chars; [exact Hk|].
    intros a Ha. apply (word_dash_not "`" a); [reflexivity | exact Ha].
  - apply key_length. exact Hk.
  - apply le_n.
Qed.

Lemma single_cite_match (key : string) :
  is_key key ->
  Re.match_at QuartoToMyst._SINGLE_CITE_RE None
    (String.append "[@" (String.append key "]"))
  = Some (Re.mkMatch (String.append "[@" (String.append key "]")) ""
            [(1, key)]).
Proof.
  intros Hk. unfold Re.match_at.
  cbn -[Ascii.eqb Nat.ltb Nat.leb Nat.sub Py.take String.length Py.is_word].
  rewrite (rep_loop_run _ (fun a => Py.is_word a || Ascii.eqb a "-") 1 _ "]" []
             ("", [(1, key)])).
  - cbn -[Nat.sub Py.take String.length]. rewrite take_full. reflexivity.
  - reflexivity.
  - intros a t E. injection E as <- _. reflexivity.
  - intros prev. cbn -[Nat.sub Py.take String.length].
    rewrite take_append. reflexivity.
  - apply key_chars; [exact Hk|]. auto.
  - apply key_length. exact Hk.
  - apply le_n.
Qed.

Lemma key_strip (key : string) : is_key key -> Py.strip key = key.
Proof.
  intros [Hne H]. unfold Py.strip, Py.lstrip, Py.rstrip.
  assert (Hs : forall a, Py.is_word a || Ascii.eqb a "-" = true ->
                         Py.is_space a = false).
  { intros a Ha. destruct (Py.is_space a) eqn:E; [|reflexivity].
    revert Ha E. clear. destruct a as [[] [] [] [] [] [] [] []];
      vm_compute; congruence. }
  rewrite (rstrip_by_none _ _ _ H Hs). apply lstrip_by_none.
  intros a t E. subst key. simpl in H. apply andb_prop in H as [Ha _]. auto.
Qed.

Ltac mem_key Hk :=
  match goal with
  | |- Py.mem ?x _ = false =>
      simpl; rewrite ?mem_append, (key_without _ x Hk) by reflexivity;
      reflexivity
  end.

Lemma cite_forward (key : string) :
  is_key key ->
  MystToQuarto.transform_inline (String.append "{cite}`" (String.append key "`"))
  = Ok (String.append "[@" (String.append key "]")).
Proof.
  intros Hk. unfold MystToQuarto.transform_inline.
  change (Py.is_empty ("{cite}`" ++ key ++ "`")) with false. cbv iota.
  assert (E1 : Re.re_sub MystToQuarto._EVAL_RE MystToQuarto._replace_eval
                 ("{cite}`" ++ key ++ "`") = Ok ("{cite}`" ++ key ++ "`")%string).
  { apply sub_from_unmatched; [|apply le_n].
    cbn [unmatched String.append].
    repeat (split; [reflexivity|]).
    apply (unmatched_absent "{"); [reflexivity|].
    rewrite mem_append, (key_without key "{" Hk) by reflexivity.
    reflexivity. }
  rewrite E1. simpl bind.
  rewrite (re_sub_absent ":");
    [simpl bind | reflexivity | mem_key Hk].
  rewrite (re_sub_absent ":");
    [simpl bind | reflexivity | mem_key Hk].
  unfold Re.re_sub at 1.
  rewrite (sub_from_whole _ _ _ _ _ _ ("[@" ++ key ++ "]")%string
             (cite_match key Hk)); try reflexivity.
  - simpl bind.
    repeat (rewrite (re_sub_absent "{");
            [simpl bind | reflexivity
             | mem_key Hk]).
    reflexivity.
  - discriminate.
  - unfold MystToQuarto._replace_cite. simpl Re.group_str. simpl bind.
    rewrite (split_no_sep "," key) by (apply (key_without key "," Hk); reflexivity).
    simpl map. rewrite (key_strip key Hk). reflexivity.
  - simpl. lia.
Qed.

Lemma cite_reverse (key : string) :
  is_key key ->
  QuartoToMyst.transform_quarto_inline
    (String.append "[@" (String.append key "]"))
  = Ok (String.append "{cite}`" (String.append key "`")).
Proof.
  intros Hk. unfold QuartoToMyst.transform_quarto_inline.
  change (Py.is_empty ("[@" ++ key ++ "]")) with false. cbv iota.
  rewrite (re_sub_absent "{");
    [simpl bind | reflexivity | mem_key Hk].
  rewrite (re_sub_absent ";");
    [simpl bind | reflexivity | mem_key Hk].
  unfold Re.re_sub at 1.
  rewrite (sub_from_whole _ _ _ _ _ _ ("{cite}`" ++ key ++ "`")%string
             (single_cite_match key Hk)); try reflexivity.
  - simpl bind.
    repeat (rewrite (re_sub_absent "@");
            [simpl bind | reflexivity
             | mem_key Hk]).
    rewrite (re_sub_absent "[");
      [reflexivity | reflexivity
       | mem_key Hk].
  - discriminate.
  - simpl. lia.
Qed.

(** X9: the parenthetical citation of one key becomes the bracketed
    citation of that key, and the bracketed citation becomes the
    parenthetical one again. *)
Theorem single_citation_round_trip (key : string) :
  is_key key ->
  MystToQuarto.transform_inline (String.append "{cite}`" (String.append key "`"))
  = Ok (String.append "[@" (String.append key "]"))
  /\ QuartoToMyst.transform_quarto_inline
       (String.append "[@" (String.append key "]"))
     = Ok (String.append "{cite}`" (String.append key "`")).
Proof.
  intros Hk. split; [exact (cite_forward key Hk) | exact (cite_reverse key Hk)].
Qed.

Lemma single_citation_round_trip_witness :
  MystToQuarto.transform_inline "{cite}`van-der-Waals_1873`"
  = Ok "[@van-der-Waals_1873]"
  /\ QuartoToMyst.transform_quarto_inline "[@van-der-Waals_1873]"
     = Ok "{cite}`van-der-Waals_1873`".
Proof.
  apply (single_citation_round_trip "van-der-Waals_1873").
  split; [discriminate | reflexivity].
Defined.

(** ** The body of a directive *)

(** X10: but for figures, images and the three removed directives, the
    forward transform of a directive keeps its body lines as they are
    and in their order, between the lines it adds. *)
Theorem body_lines_are_kept (f : Scanner.DirectiveFrame) :
  ~ In (Scanner.name f) body_consumers ->
  exists before after,
    MystToQuarto.transform_directive f
    = before ++ Scanner.body_lines f ++ after.
Proof.
  destruct f as [n c k a o b i]. simpl Scanner.name. simpl Scanner.body_lines.
  intros Hn. unfold MystToQuarto.transform_directive. cbv zeta.
  simpl Scanner.name.
  assert (Hno : forall s, In s body_consumers -> String.eqb n s = false).
  { intros s Hs. destruct (String.eqb n s) eqn:E; [|reflexivity].
    apply String.eqb_eq in E. subst s. contradiction. }
  rewrite (Hno "figure"), (Hno "bibliography"), (Hno "abstract"),
    (Hno "image"), (Hno "tableofcontents") by (simpl; tauto).
  destruct (String.eqb n "code-cell").
  { unfold MystToQuarto._transform_code_cell. cbv zeta.
    simpl Scanner.body_lines. eexists _, _. reflexivity. }
  destruct (String.eqb n "math").
  { eexists _, _. reflexivity. }
  destruct (existsb (String.eqb n) MystToQuarto._ADMONITION_TYPES).
  { eexists _, _. reflexivity. }
  destruct (String.eqb n "admonition").
  { eexists _, _. reflexivity. }
  destruct (String.eqb n "tab-set").
  { eexists _, _. reflexivity. }
  destruct (String.eqb n "tab-item").
  { eexists _, []. rewrite app_nil_r. reflexivity. }
  destruct (String.eqb n "margin").
  { eexists _, _. reflexivity. }
  destruct (String.eqb n "table").
  { unfold MystToQuarto._transform_table. cbv zeta. simpl Scanner.body_lines.
    exists [].
    destruct (negb (Py.is_empty _)); [eexists; reflexivity|].
    destruct (negb (Py.is_empty _)); [eexists; reflexivity|].
    exists []. now rewrite app_nil_r. }
  destruct (String.eqb n "mermaid").
  { eexists _, _. reflexivity. }
  unfold MystToQuarto._transform_unknown. cbv zeta. simpl Scanner.body_lines.
  destruct b as [|b0 b].
  - eexists _, _. simpl app at 3. reflexivity.
  - match goal with
    | |- exists before after, (?L ++ [""] ++ ?B) ++ ?F = _ =>
        exists (L ++ [""]), F
    end.
    rewrite <- !app_assoc. reflexivity.
Qed.

Lemma body_lines_are_kept_witness :
  exists before after,
    MystToQuarto.transform_directive
      (Scanner.mkFrame "sidebar" ":" 3 "Note" [("class", "x")] ["a"; "b"] 0)
    = before ++ ["a"; "b"] ++ after.
Proof.
  apply (body_lines_are_kept
           (Scanner.mkFrame "sidebar" ":" 3 "Note" [("class", "x")] ["a"; "b"] 0)).
  simpl. intros H. repeat (destruct H as [H|H]; [discriminate H|]). exact H.
Defined.

(** ** The tables of cell tags *)

(** X11: the option line that the forward table gives for a cell tag is
    read by the reverse scanner as a cell option whose key and value the
    reverse table maps to that tag; and the option of every tag in the
    reverse table is the option line of that tag in the forward table. *)
Theorem cell_tag_tables_agree :
  (forall tag line,
     Py.get MystToQuarto._TAG_MAP tag = Some line ->
     exists m key value,
       Re.re_match QuartoToMyst._CELL_OPTION_RE (Py.strip line) = Some m
       /\ Re.group_str m 1 = Ok key /\ Re.group_str m 2 = Ok value
       /\ QuartoToMyst.option_tag key (Py.strip value) = Some tag)
  /\ (forall key value tag,
        QuartoToMyst.option_tag key value = Some tag ->
        Py.get MystToQuarto._TAG_MAP tag
        = Some (String.append "#| "
                  (String.append key (String.append ": " value)))).
Proof.
  split.
  - intros tag line H. unfold MystToQuarto._TAG_MAP in H. simpl in H.
    repeat match type of H with
           | (if String.eqb tag ?s then _ else _) = _ =>
               destruct (String.eqb tag s) eqn:E;
                 [apply String.eqb_eq in E; subst tag; injection H as <-;
                  eexists _, _, _; (split; [|split; [|split]]);
                  vm_compute; reflexivity
                 | clear E ]
           end.
    discriminate H.
  - intros key value tag H. unfold QuartoToMyst.option_tag in H.
    simpl in H.
    repeat match type of H with
           | match (if String.eqb key ?s then _ else _) with _ => _ end = _ =>
               destruct (String.eqb key s) eqn:E;
                 [apply String.eqb_eq in E; subst key; simpl in H;
                  match type of H with
                  | (if String.eqb value ?v then _ else _) = _ =>
                      destruct (String.eqb value v) eqn:Ev;
                        [apply String.eqb_eq in Ev; subst value;
                         injection H as <-; reflexivity
                        | discriminate H ]
                  end
                 | clear E ]
           end.
    discriminate H.
Qed.

Lemma cell_tag_tables_agree_witness :
  exists m key value,
    Re.re_match QuartoToMyst._CELL_OPTION_RE (Py.strip "#| echo: false")
    = Some m
    /\ Re.group_str m 1 = Ok key /\ Re.group_str m 2 = Ok value
    /\ QuartoToMyst.option_tag key (Py.strip value) = Some "remove-input".
Proof.
  destruct cell_tag_tables_agree as [H _].
  exact (H "remove-input" "#| echo: false" eq_refl).
Defined.

Section BodyAndClose.

Variable transform_fn : Scanner.DirectiveFrame -> list string.
Variable inline_fn : option (string -> result string).

(** From the body of a top-level directive to its closing fence. *)
Lemma scan_body_and_close (F : Scanner.DirectiveFrame) (body : list string)
  (closer : string) :
  Scanner.indent F = 0 ->
  Forall (inner_line F) body ->
  Scanner.open_match closer = None -> closes F closer = true ->
  Scanner.scan_lines transform_fn inline_fn (in_body F) (body ++ [closer])
  = Ok (Scanner.mkState []
          (transform_fn
             (Scanner.with_body_lines F (Scanner.body_lines F ++ body)))
          false false None 0 0).
Proof.
  intros Hind Hall Hco Hcl.
  set (F2 := Scanner.with_body_lines F
               (Scanner.body_lines F
                ++ map (fun l => Scanner._strip_indent l (Scanner.indent F))
                     body)).
  rewrite (scan_lines_app transform_fn inline_fn body [closer] (in_body F)
             (Scanner.with_stack (in_body F) [F2])).
  - simpl.
    rewrite (scan_line_close transform_fn inline_fn
               (Scanner.with_stack (in_body F) [F2]) F2 [] closer
               eq_refl Hco).
    + unfold F2. simpl. rewrite Hind.
      rewrite (map_ext _ (fun l => l)) by reflexivity.
      rewrite map_id. reflexivity.
    + fold (closes F2 closer). rewrite <- Hcl.
      apply closes_same_fence. repeat split.
  - apply scan_lines_body; [reflexivity | reflexivity | exact Hall].
Qed.

End BodyAndClose.

(** ** Code cells with a tag *)

Lemma tagged_cell_forward (tag opt : string) (body : list string) :
  Py.get MystToQuarto._TAG_MAP tag = Some opt ->
  Forall body_line body ->
  MystToQuarto.convert_myst_to_quarto
    (text ("```{code-cell} python"
           :: String.append ":tags: [" (String.append tag "]")
           :: "" :: body ++ ["```"]))
  = Ok (text ("```{python}" :: opt :: "" :: body ++ ["```"])).
Proof.
  intros Ht Hall.
  unfold MystToQuarto.convert_myst_to_quarto, Scanner.scan.
  assert (Hnl : Forall (fun l => Py.mem Py.newline l = false) body).
  { eapply Forall_impl; [|exact Hall]. intros l [H _]. exact H. }
  assert (Hin : forall F, Py.mem (Scanner.fence_char F) "`:" = true ->
            Forall (inner_line F) body).
  { intros F HF. eapply Forall_impl; [|exact Hall].
    intros l [_ H]. exact (body_line_inner _ _ HF H). }
  unfold MystToQuarto._TAG_MAP in Ht. simpl in Ht.
  repeat match type of Ht with
         | (if String.eqb tag ?s then _ else _) = _ =>
             destruct (String.eqb tag s) eqn:E;
               [apply String.eqb_eq in E; subst tag; injection Ht as <-
               | clear E ]
         end; try discriminate Ht;
    (rewrite split_text;
     [| discriminate
      | do 3 (apply Forall_cons; [reflexivity|]);
        apply Forall_app; split; [exact Hnl | repeat constructor] ];
     match goal with
     | |- context [Scanner.scan_lines ?tf ?inl _ (?o :: ?t :: "" :: _)] =>
         change (o :: t :: "" :: body ++ ["```"])
           with ([o; t; ""] ++ body ++ ["```"]);
         rewrite (scan_lines_app tf inl [o; t; ""] (body ++ ["```"])
                    Scanner.init
                    (in_body (Scanner.mkFrame "code-cell" "`" 3 "python"
                                [("tags", Py.strip (Py.drop 7 t))] [] 0)))
           by (vm_compute; reflexivity)
     end;
     rewrite scan_body_and_close;
     [ reflexivity | reflexivity | apply Hin; reflexivity
     | reflexivity | reflexivity ]).
Qed.

Lemma tagged_cell_step (tag opt : string) (body after : list string)
  (st : QuartoToMyst.state) :
  Py.get MystToQuarto._TAG_MAP tag = Some opt ->
  Forall body_line body ->
  QuartoToMyst.step "```{python}" (opt :: "" :: body ++ "```" :: after) st
  = Ok (after,
        QuartoToMyst.emit st
          ("```{code-cell} python"
           :: String.append ":tags: [" (String.append tag "]")
           :: "" :: body ++ ["```"])).
Proof.
  intros Ht Hall.
  assert (Hcl : Forall (fun l => Re.re_match QuartoToMyst._BACKTICK_CLOSE_RE
                                   (Py.strip l) = None) body).
  { eapply Forall_impl; [|exact Hall].
    intros l [_ H]. exact (body_line_no_backtick_close _ H). }
  unfold QuartoToMyst.step. cbv zeta.
  change (Re.re_match QuartoToMyst._EXEC_CODE_RE (Py.strip "```{python}"))
    with (Some (Re.mkMatch "```{python}" "" [(2, "python"); (1, "```")])).
  cbv beta iota.
  cbn [bind Re.group_str Re.group Re.lookup Re.groups Nat.eqb].
  change (existsb (String.eqb (Py.lower "python")) QuartoToMyst._EXEC_LANGUAGES)
    with true. cbv iota.
  unfold MystToQuarto._TAG_MAP in Ht. simpl in Ht.
  repeat match type of Ht with
         | (if String.eqb tag ?s then _ else _) = _ =>
             destruct (String.eqb tag s) eqn:E;
               [apply String.eqb_eq in E; subst tag; injection Ht as <-
               | clear E ]
         end; try discriminate Ht;
    (match goal with
     | |- context [QuartoToMyst.collect _ _ (?o :: "" :: _)] =>
         change (o :: "" :: body ++ "```" :: after)
           with ((o :: "" :: body) ++ "```" :: after);
         rewrite (collect_body QuartoToMyst._BACKTICK_CLOSE_RE _ "```"
                    (Re.mkMatch "```" "" [(1, "```")]) "```" after
                    (o :: "" :: body));
         [| do 2 (apply Forall_cons; [reflexivity|]); exact Hcl
          | reflexivity | reflexivity | simpl; lia]
     end;
     reflexivity).
Qed.

Lemma tagged_cell_reverse (tag opt : string) (body : list string) :
  Py.get MystToQuarto._TAG_MAP tag = Some opt ->
  Forall body_line body ->
  QuartoToMyst.convert_quarto_to_myst
    (text ("```{python}" :: opt :: "" :: body ++ ["```"]))
  = Ok (text ("```{code-cell} python"
              :: String.append ":tags: [" (String.append tag "]")
              :: "" :: body ++ ["```"])).
Proof.
  intros Ht Hall. unfold QuartoToMyst.convert_quarto_to_myst. cbv zeta.
  assert (Hnl : Forall (fun l => Py.mem Py.newline l = false) body).
  { eapply Forall_impl; [|exact Hall]. intros l [H _]. exact H. }
  rewrite split_text.
  - match goal with
    | |- context [QuartoToMyst.loop _ (?h :: ?t) ?st] =>
        change (QuartoToMyst.loop (length (h :: t)) (h :: t) st)
          with (r <- QuartoToMyst.step h t st ;;
                QuartoToMyst.loop (length t) (fst r) (snd r))
    end.
    rewrite (tagged_cell_step tag opt body [] QuartoToMyst.init Ht Hall).
    reflexivity.
  - discriminate.
  - apply Forall_cons; [reflexivity|]. apply Forall_cons.
    + unfold MystToQuarto._TAG_MAP in Ht. simpl in Ht.
      repeat match type of Ht with
             | (if String.eqb tag ?s then _ else _) = _ =>
                 destruct (String.eqb tag s);
                   [injection Ht as <-; reflexivity|]
             end.
      discriminate Ht.
    + apply Forall_cons; [reflexivity|].
      apply Forall_app. split; [exact Hnl | repeat constructor].
Qed.

(** X12: a Python code cell with one of the four cell tags, a blank line
    and a body whose lines do not begin with a fence character becomes
    the executable block with the option line of that tag, and that
    block becomes the tagged code cell again. *)
Theorem tagged_code_cell_round_trip (tag opt : string) (body : list string) :
  Py.get MystToQuarto._TAG_MAP tag = Some opt ->
  Forall body_line body ->
  MystToQuarto.convert_myst_to_quarto
    (text ("```{code-cell} python"
           :: String.append ":tags: [" (String.append tag "]")
           :: "" :: body ++ ["```"]))
  = Ok (text ("```{python}" :: opt :: "" :: body ++ ["```"]))
  /\ QuartoToMyst.convert_quarto_to_myst
       (text ("```{python}" :: opt :: "" :: body ++ ["```"]))
     = Ok (text ("```{code-cell} python"
                 :: String.append ":tags: [" (String.append tag "]")
                 :: "" :: body ++ ["```"])).
Proof.
  intros Ht Hall. split.
  - exact (tagged_cell_forward tag opt body Ht Hall).
  - exact (tagged_cell_reverse tag opt body Ht Hall).
Qed.

Lemma tagged_code_cell_round_trip_witness :
  MystToQuarto.convert_myst_to_quarto
    (text ["```{code-cell} python"; ":tags: [hide-input]"; ""; "";
           "print(1)"; "```"])
  = Ok (text ["```{python}"; "#| code-fold: true"; ""; ""; "print(1)"; "```"])
  /\ QuartoToMyst.convert_quarto_to_myst
       (text ["```{python}"; "#| code-fold: true"; ""; ""; "print(1)"; "```"])
     = Ok (text ["```{code-cell} python"; ":tags: [hide-input]"; ""; "";
                 "print(1)"; "```"]).
Proof.
  apply (tagged_code_cell_round_trip "hide-input" "#| code-fold: true"
           [""; "print(1)"]).
  - reflexivity.
  - repeat constructor.
Defined.

(** ** Labelled equations *)

Lemma rstrip_by_append (p : ascii -> bool) (pre t : string) :
  Py.rstrip_by p t = t -> t <> "" ->
  Py.rstrip_by p (pre ++ t) = (pre ++ t)%string.
Proof.
  intros Ht Hne. induction pre as [|a pre IH]; simpl; [exact Ht|].
  rewrite IH. destruct (pre ++ t)%string eqn:E; [|reflexivity].
  destruct pre; simpl in E; [congruence | discriminate].
Qed.

Lemma key_rstrip (key : string) : is_key key -> Py.rstrip key = key.
Proof.
  intros Hk. unfold Py.rstrip.
  apply (rstrip_by_none _ (fun a => Py.is_word a || Ascii.eqb a "-"));
    [exact (proj2 Hk)|].
  intros a Ha. destruct (Py.is_space a) eqn:E; [|reflexivity].
  revert Ha E. clear. destruct a as [[] [] [] [] [] [] [] []];
    vm_compute; congruence.
Qed.

Lemma label_option_strip (label : string) :
  is_key label ->
  Py.strip (String.append ":label: " label) = String.append ":label: " label.
Proof.
  intros Hk. unfold Py.strip.
  unfold Py.rstrip. rewrite rstrip_by_append;
    [reflexivity | exact (key_rstrip label Hk) | exact (proj1 Hk)].
Qed.

(** The equations of the matcher, one pattern construct at a time. *)
Lemma rx_cat (r1 r2 : Re.regex) (prev : option ascii) (s : string)
  (c : Re.caps) (k : Re.cont) :
  Re.rx (Re.Cat r1 r2) prev s c k
  = Re.rx r1 prev s c (fun prev' s' c' => Re.rx r2 prev' s' c' k).
Proof. reflexivity. Qed.

Lemma rx_grp (n : nat) (r : Re.regex) (prev : option ascii) (s : string)
  (c : Re.caps) (k : Re.cont) :
  Re.rx (Re.Grp n r) prev s c k
  = Re.rx r prev s c (fun prev' s' c' =>
      k prev' s' ((n, Py.take (String.length s - String.length s') s) :: c')).
Proof. reflexivity. Qed.

Lemma rx_cls (p : ascii -> bool) (a : ascii) (prev : option ascii)
  (t : string) (c : Re.caps) (k : Re.cont) :
  p a = true -> Re.rx (Re.Cls p) prev (String a t) c k = k (Some a) t c.
Proof. intros H. simpl. now rewrite H. Qed.

Lemma rx_bos (s : string) (c : Re.caps) (k : Re.cont) :
  Re.rx Re.Bos None s c k = k None s c.
Proof. reflexivity. Qed.

Lemma rx_eos (prev : option ascii) (c : Re.caps) (k : Re.cont) :
  Re.rx Re.Eos prev "" c k = k prev "" c.
Proof. reflexivity. Qed.

(** A match that consumes the whole text. *)
Lemma match_at_whole (r : Re.regex) (prev : option ascii) (s : string)
  (c : Re.caps) :
  Re.rx r prev s [] Re.accept = Some ("", c) ->
  Re.match_at r prev s = Some (Re.mkMatch s "" c).
Proof.
  intros H. unfold Re.match_at. rewrite H. simpl String.length.
  now rewrite take_full.
Qed.

Lemma rx_run_end (p : ascii -> bool) (min : nat) (k : Re.cont) (w : string)
  (prev : option ascii) (c : Re.caps) (res : string * Re.caps) :
  forallb p (list_ascii_of_string w) = true ->
  min <= String.length w ->
  (forall prev', k prev' "" c = Some res) ->
  Re.rx (Re.Rep true min (Re.Cls p)) prev w c k = Some res.
Proof.
  intros Hw Hmin Hk. rewrite <- (append_nil_r w).
  apply rx_run; auto. discriminate.
Qed.

Lemma label_option_match (label : string) :
  is_key label ->
  Re.re_match Scanner.OPTION_RE (String.append ":label: " label)
  = Some (Re.mkMatch (String.append ":label: " label) ""
            [(2, label); (1, "label")]).
Proof.
  intros Hk. apply match_at_whole.
  unfold Scanner.OPTION_RE. cbn [Re.seq].
  rewrite rx_cat, rx_bos, rx_cat.
  change (":label: " ++ label)%string with (String ":" ("label: " ++ label)).
  unfold Re.chr at 1. rewrite rx_cls by reflexivity.
  rewrite rx_cat, rx_grp, rx_cat.
  change ("label: " ++ label)%string with (String "l" ("abel: " ++ label)).
  unfold Re.word at 1. rewrite rx_cls by reflexivity.
  apply (rx_run _ 0 _ "abel" (": " ++ label));
    [reflexivity | lia | intros a t E; injection E as <- _; reflexivity |].
  intros prev1. cbv beta.
  rewrite rx_cat.
  change (": " ++ label)%string with (String ":" (" " ++ label)).
  unfold Re.chr at 1. rewrite rx_cls by reflexivity.
  rewrite rx_cat.
  apply (rx_run _ 0 _ " " label); [reflexivity | lia | |].
  { intros a t E. destruct Hk as [_ Hk]. subst label. simpl in Hk.
    apply andb_prop in Hk as [Ha _].
    destruct (Py.is_space a) eqn:Es; [|reflexivity].
    revert Ha Es. clear. destruct a as [[] [] [] [] [] [] [] []];
      vm_compute; congruence. }
  intros prev2. cbv beta.
  rewrite rx_cat, rx_grp.
  apply rx_run_end;
    [ apply key_chars; [exact Hk|];
      intros a Ha; apply (word_dash_not Py.newline a); [reflexivity | exact Ha]
    | lia |].
  intros prev3. cbv beta. rewrite rx_eos. unfold Re.accept.
  rewrite take_full.
  change (String "l" ("abel: " ++ label)) with ("label" ++ (": " ++ label))%string.
  rewrite take_append. reflexivity.
Qed.

Lemma math_close_strip (label : string) :
  Py.strip (String.append "$$ {#" (String.append label "}"))
  = String.append "$$ {#" (String.append label "}").
Proof.
  unfold Py.strip, Py.rstrip.
  change ("$$ {#" ++ label ++ "}")%string
    with ("$$ {#" ++ (label ++ "}"))%string.
  rewrite <- (append_assoc "$$ {#" label "}").
  rewrite rstrip_by_append; [reflexivity | reflexivity | discriminate].
Qed.

Lemma math_close_match (label : string) :
  is_key label ->
  Re.re_match QuartoToMyst._MATH_CLOSE_LABEL_RE
    (String.append "$$ {#" (String.append label "}"))
  = Some (Re.mkMatch (String.append "$$ {#" (String.append label "}")) ""
            [(1, label)]).
Proof.
  intros Hk. apply match_at_whole.
  unfold QuartoToMyst._MATH_CLOSE_LABEL_RE. cbn [Re.seq Re.lit].
  rewrite rx_cat, rx_bos, rx_cat, rx_cat.
  change ("$$ {#" ++ label ++ "}")%string
    with (String "$" (String "$" (" " ++ "{#" ++ label ++ "}"))).
  unfold Re.chr at 1 2. rewrite !rx_cls by reflexivity.
  rewrite rx_cat.
  apply (rx_run _ 0 _ " " ("{#" ++ label ++ "}"));
    [reflexivity | lia | intros a t E; injection E as <- _; reflexivity |].
  intros prev1. cbv beta.
  rewrite rx_cat, rx_cat.
  change ("{#" ++ label ++ "}")%string
    with (String "{" (String "#" (label ++ "}"))).
  unfold Re.chr at 1 2. rewrite !rx_cls by reflexivity.
  rewrite rx_cat, rx_grp.
  apply (rx_run _ 1 _ label "}");
    [ exact (proj2 Hk) | exact (key_length label Hk)
    | intros a t E; injection E as <- _; reflexivity |].
  intros prev2. cbv beta.
  rewrite rx_cat. unfold Re.chr at 1. rewrite rx_cls by reflexivity.
  rewrite rx_cat.
  apply rx_run_end; [reflexivity | apply le_n |].
  intros prev3. cbv beta. rewrite rx_eos. unfold Re.accept.
  rewrite take_append. reflexivity.
Qed.

Lemma pair_start_none (x : ascii) (r1 r2 : Re.regex) (s : string) :
  (forall t, s <> String x t) ->
  Re.re_match (Re.Cat Re.Bos (Re.Cat (Re.Cat (Re.chr x) r1) r2)) s = None.
Proof.
  intros Hs. unfold Re.re_match, Re.match_at.
  destruct s as [|a t]; [reflexivity|].
  assert (Ha : Ascii.eqb x a = false).
  { destruct (Ascii.eqb x a) eqn:E; [|reflexivity].
    apply Ascii.eqb_eq in E. subst a. elim (Hs t). reflexivity. }
  simpl. rewrite Ha. reflexivity.
Qed.

Lemma collect_math_body (label closing : string) (after body : list string) :
  Forall math_line body ->
  Re.re_match QuartoToMyst._MATH_CLOSE_LABEL_RE (Py.strip closing)
  = Some (Re.mkMatch closing "" [(1, label)]) ->
  QuartoToMyst.collect_math (body ++ closing :: after)
  = Ok (body, label, after).
Proof.
  intros Hall Hc. induction body as [|l body IH]; simpl.
  - rewrite Hc. reflexivity.
  - inversion Hall as [|? ? [_ Hl] Hrest]; subst.
    assert (Hno : forall t, Py.strip l <> String "$" t).
    { intros t. apply (begins_with_strip "$"); [exact Hl | reflexivity]. }
    rewrite (pair_start_none "$" _ _ _ Hno : Re.re_match
               QuartoToMyst._MATH_CLOSE_LABEL_RE (Py.strip l) = None).
    rewrite (pair_start_none "$" _ _ _ Hno : Re.re_match
               QuartoToMyst._MATH_OPEN_RE (Py.strip l) = None).
    rewrite (IH Hrest). reflexivity.
Qed.

Lemma math_header_scanned (label : string) :
  is_key label ->
  Scanner.scan_lines MystToQuarto.transform_directive
    (Some MystToQuarto.transform_inline) Scanner.init
    ["```{math}"; String.append ":label: " label; ""]
  = Ok (in_body (Scanner.mkFrame "math" "`" 3 "" [("label", label)] [] 0)).
Proof.
  intros Hk.
  set (F0 := Scanner.mkFrame "math" "`" 3 "" [] [] 0).
  set (st0 := Scanner.mkState [F0] [] true false None 0 0).
  change (Scanner.scan_lines MystToQuarto.transform_directive
            (Some MystToQuarto.transform_inline) Scanner.init
            ["```{math}"; (":label: " ++ label)%string; ""])
    with (st1 <- Scanner.scan_line MystToQuarto.transform_directive
                   (Some MystToQuarto.transform_inline) st0
                   (":label: " ++ label)%string ;;
          Scanner.scan_lines MystToQuarto.transform_directive
            (Some MystToQuarto.transform_inline) st1 [""]).
  rewrite (scan_line_inside _ _ st0 F0 [] _ eq_refl).
  - unfold Scanner.inside_directive. simpl Scanner.in_options. cbv iota zeta.
    simpl Scanner.indent. rewrite strip_indent_0.
    rewrite (label_option_strip label Hk), (label_option_match label Hk).
    simpl (Re.group_str _ _). simpl bind. rewrite (key_strip label Hk).
    reflexivity.
  - apply open_match_without_brace.
    simpl. rewrite (key_without label "{" Hk); reflexivity.
  - reflexivity.
Qed.

Lemma math_forward (label : string) (body : list string) :
  is_key label -> Forall math_line body ->
  MystToQuarto.convert_myst_to_quarto
    (text ("```{math}" :: String.append ":label: " label :: ""
           :: body ++ ["```"]))
  = Ok (text ("$$" :: body
              ++ [String.append "$$ {#" (String.append label "}")])).
Proof.
  intros Hk Hall.
  unfold MystToQuarto.convert_myst_to_quarto, Scanner.scan.
  rewrite split_text.
  - change ("```{math}" :: (":label: " ++ label)%string :: ""
            :: body ++ ["```"])
      with (["```{math}"; (":label: " ++ label)%string; ""]
            ++ body ++ ["```"]).
    rewrite (scan_lines_app _ _ _ _ _ _ (math_header_scanned label Hk)).
    rewrite scan_body_and_close.
    + simpl bind. simpl Scanner.drain.
      unfold MystToQuarto.transform_directive. simpl.
      destruct label as [|a label]; [elim (proj1 Hk); reflexivity|].
      reflexivity.
    + reflexivity.
    + eapply Forall_impl; [|exact Hall].
      intros l [[_ H] _]. apply body_line_inner; [reflexivity | exact H].
    + reflexivity.
    + reflexivity.
  - discriminate.
  - apply Forall_cons; [reflexivity|]. apply Forall_cons.
    + simpl. rewrite (key_without label Py.newline Hk); reflexivity.
    + apply Forall_cons; [reflexivity|].
      apply Forall_app. split; [|repeat constructor].
      eapply Forall_impl; [|exact Hall]. intros l [[H _] _]. exact H.
Qed.

Lemma math_step (label : string) (body after : list string)
  (st : QuartoToMyst.state) :
  is_key label -> Forall math_line body ->
  QuartoToMyst.step "$$"
    (body ++ String.append "$$ {#" (String.append label "}") :: after) st
  = Ok (after,
        QuartoToMyst.emit st
          ("```{math}" :: String.append ":label: " label :: ""
           :: body ++ ["```"])).
Proof.
  intros Hk Hall.
  unfold QuartoToMyst.step, QuartoToMyst.block_or_line. cbv zeta.
  change (Re.re_match QuartoToMyst._EXEC_CODE_RE (Py.strip "$$"))
    with (@None Re.rmatch).
  change (Re.re_match QuartoToMyst._CALLOUT_RE (Py.strip "$$"))
    with (@None Re.rmatch).
  change (Re.re_match QuartoToMyst._TABSET_RE (Py.strip "$$"))
    with (@None Re.rmatch).
  change (Re.re_match QuartoToMyst._MARGIN_RE (Py.strip "$$"))
    with (@None Re.rmatch).
  change (Re.re_match QuartoToMyst._IMG_ATTRS_RE (Py.strip "$$"))
    with (@None Re.rmatch).
  change (Re.re_match QuartoToMyst._MATH_OPEN_RE (Py.strip "$$"))
    with (Some (Re.mkMatch "$$" "" [])).
  cbv beta iota.
  rewrite (collect_math_body label _ after body Hall).
  - simpl bind. cbv beta iota.
    destruct label as [|a label]; [elim (proj1 Hk); reflexivity|].
    reflexivity.
  - rewrite math_close_strip. exact (math_close_match label Hk).
Qed.

Lemma math_reverse (label : string) (body : list string) :
  is_key label -> Forall math_line body ->
  QuartoToMyst.convert_quarto_to_myst
    (text ("$$" :: body ++ [String.append "$$ {#" (String.append label "}")]))
  = Ok (text ("```{math}" :: String.append ":label: " label :: ""
              :: body ++ ["```"])).
Proof.
  intros Hk Hall. unfold QuartoToMyst.convert_quarto_to_myst. cbv zeta.
  rewrite split_text.
  - match goal with
    | |- context [QuartoToMyst.loop _ (?h :: ?t) ?st] =>
        change (QuartoToMyst.loop (length (h :: t)) (h :: t) st)
          with (r <- QuartoToMyst.step h t st ;;
                QuartoToMyst.loop (length t) (fst r) (snd r))
    end.
    rewrite (math_step label body [] QuartoToMyst.init Hk Hall).
    simpl bind.
    match goal with
    | |- context [QuartoToMyst.loop ?n [] _] => destruct n
    end; reflexivity.
  - discriminate.
  - apply Forall_cons; [reflexivity|].
    apply Forall_app. split.
    + eapply Forall_impl; [|exact Hall]. intros l [[H _] _]. exact H.
    + repeat constructor. simpl.
      rewrite mem_append, (key_without label Py.newline Hk); reflexivity.
Qed.

(** X13: a math directive with a label, a blank line and a body whose
    lines begin with no fence character and no dollar sign becomes the
    display equation that ends with the label, and that equation becomes
    the labelled math directive again. *)
Theorem labelled_math_round_trip (label : string) (body : list string) :
  is_key label -> Forall math_line body ->
  MystToQuarto.convert_myst_to_quarto
    (text ("```{math}" :: String.append ":label: " label :: ""
           :: body ++ ["```"]))
  = Ok (text ("$$" :: body
              ++ [String.append "$$ {#" (String.append label "}")]))
  /\ QuartoToMyst.convert_quarto_to_myst
       (text ("$$" :: body
              ++ [String.append "$$ {#" (String.append label "}")]))
     = Ok (text ("```{math}" :: String.append ":label: " label :: ""
                 :: body ++ ["```"])).
Proof.
  intros Hk Hall. split.
  - exact (math_forward label body Hk Hall).
  - exact (math_reverse label body Hk Hall).
Qed.

Lemma labelled_math_round_trip_witness :
  MystToQuarto.convert_myst_to_quarto
    (text ["```{math}"; ":label: eq-energy"; ""; "E = mc^2"; "```"])
  = Ok (text ["$$"; "E = mc^2"; "$$ {#eq-energy}"])
  /\ QuartoToMyst.convert_quarto_to_myst
       (text ["$$"; "E = mc^2"; "$$ {#eq-energy}"])
     = Ok (text ["```{math}"; ":label: eq-energy"; ""; "E = mc^2"; "```"]).
Proof.
  apply (labelled_math_round_trip "eq-energy" ["E = mc^2"]).
  - split; [discriminate | reflexivity].
  - repeat constructor.
Defined.

(** ** Texts without markup, in the reverse direction *)

Lemma mem_lstrip_by (x : ascii) (p : ascii -> bool) (s : string) :
  Py.mem x s = false -> Py.mem x (Py.lstrip_by p s) = false.
Proof.
  induction s as [|a s IH]; simpl; intros H; [reflexivity|].
  apply orb_false_iff in H. destruct H as [Ha Hs].
  destruct (p a); [auto|]. simpl. now rewrite Ha, Hs.
Qed.

Lemma mem_rstrip_by (x : ascii) (p : ascii -> bool) (s : string) :
  Py.mem x s = false -> Py.mem x (Py.rstrip_by p s) = false.
Proof.
  induction s as [|a s IH]; simpl; intros H; [reflexivity|].
  apply orb_false_iff in H. destruct H as [Ha Hs]. specialize (IH Hs).
  destruct (Py.rstrip_by p s) as [|b r].
  - destruct (p a); simpl; [reflexivity | now rewrite Ha].
  - simpl in *. now rewrite Ha, IH.
Qed.

Lemma mem_strip (x : ascii) (s : string) :
  Py.mem x s = false -> Py.mem x (Py.strip s) = false.
Proof.
  intros H. unfold Py.strip, Py.lstrip, Py.rstrip.
  apply mem_lstrip_by, mem_rstrip_by, H.
Qed.

(** A line with none of the characters that the reverse scanner's
    patterns require is copied: the input left is the input after it. *)
Lemma step_without_marks (line : string) (rest : list string)
  (st : QuartoToMyst.state) :
  plain_line None line ->
  exists st',
    QuartoToMyst.step line rest st = Ok (rest, st')
    /\ QuartoToMyst.output_lines st'
       = QuartoToMyst.output_lines st ++ [line].
Proof.
  unfold plain_line, has_any. simpl. intros [H Hat].
  repeat (apply orb_false_iff in H;
          let H1 := fresh "Hm" in destruct H as [H1 H]).
  pose proof (mem_strip _ _ Hm) as Hs1. pose proof (mem_strip _ _ Hm0) as Hs2.
  pose proof (mem_strip _ _ Hm1) as Hs3.
  unfold QuartoToMyst.step, QuartoToMyst.block_or_line,
    QuartoToMyst.table_or_regular, Re.re_match. cbv zeta.
  rewrite (match_at_absent "{" QuartoToMyst._EXEC_CODE_RE); [|reflexivity|exact Hs1].
  rewrite (match_at_absent "{" QuartoToMyst._CALLOUT_RE); [|reflexivity|exact Hs1].
  rewrite (match_at_absent "{" QuartoToMyst._TABSET_RE); [|reflexivity|exact Hs1].
  rewrite (match_at_absent "{" QuartoToMyst._MARGIN_RE); [|reflexivity|exact Hs1].
  rewrite (match_at_absent "{" QuartoToMyst._IMG_ATTRS_RE); [|reflexivity|exact Hs1].
  rewrite (match_at_absent "$" QuartoToMyst._MATH_OPEN_RE); [|reflexivity|exact Hs2].
  rewrite (match_at_absent "{" QuartoToMyst._TABLE_CAPTION_RE); [|reflexivity|exact Hs1].
  rewrite (match_at_absent "|" QuartoToMyst._TABLE_ROW_RE); [|reflexivity|exact Hs3].
  rewrite (quarto_inline_guarded line Hm Hm2 Hat). simpl.
  eexists. split; [reflexivity|].
  destruct (QuartoToMyst.in_table st && negb (Py.is_empty (Py.strip line)));
    reflexivity.
Qed.

Lemma loop_without_marks (fuel : nat) :
  forall lines st,
    length lines <= fuel ->
    Forall (plain_line None) lines ->
    exists st',
      QuartoToMyst.loop fuel lines st = Ok st'
      /\ QuartoToMyst.output_lines st'
         = QuartoToMyst.output_lines st ++ lines.
Proof.
  induction fuel as [|fuel IH]; intros lines st Hlen Hall.
  - destruct lines; [|simpl in Hlen; lia]. exists st. simpl.
    now rewrite app_nil_r.
  - destruct lines as [|l lines]; [exists st; simpl; now rewrite app_nil_r|].
    inversion Hall as [|? ? Hl Hrest]; subst. simpl.
    destruct (step_without_marks l lines st Hl) as (st1 & -> & Ho1). simpl.
    destruct (IH lines st1) as (st' & -> & Ho'); [simpl in Hlen; lia | exact Hrest|].
    exists st'. rewrite Ho', Ho1, <- app_assoc. auto.
Qed.

Lemma ats_after_newline (s : string) :
  ats_follow_words (Some Py.newline) s = ats_follow_words None s.
Proof. destruct s as [|c t]; [reflexivity|]. simpl. destruct (Ascii.eqb c "@"); reflexivity. Qed.

Lemma split_ats (s : string) :
  forall prev,
    ats_follow_words prev s = true ->
    exists h tl,
      Py.split Py.newline s = h :: tl
      /\ ats_follow_words prev h = true
      /\ Forall (fun l => ats_follow_words None l = true) tl.
Proof.
  induction s as [|c s IH]; intros prev H.
  - exists "", []. simpl. auto.
  - simpl in H. apply andb_prop in H as [Hc Hs].
    destruct (IH _ Hs) as (h & tl & E & Hh & Htl). simpl. rewrite E.
    destruct (Ascii.eqb c Py.newline) eqn:En.
    + apply Ascii.eqb_eq in En. subst c. rewrite ats_after_newline in Hh.
      exists "", (h :: tl). repeat split; auto.
    + exists (String c h), tl. simpl. rewrite Hc, Hh. auto.
Qed.

Lemma split_has_any (chars : string) (sep : ascii) (s : string) :
  has_any chars s = false ->
  Forall (fun l => has_any chars l = false) (Py.split sep s).
Proof.
  unfold has_any. induction (list_ascii_of_string chars) as [|x l IH]; simpl.
  - intros _. apply Forall_forall. reflexivity.
  - intros H. apply orb_false_iff in H. destruct H as [Hx Hl].
    specialize (IH Hl). pose proof (split_mem x sep s Hx) as Hs.
    rewrite Forall_forall in *. intros ln Hin.
    rewrite (Hs ln Hin), (IH ln Hin). reflexivity.
Qed.

(** X14: a text with none of the characters brace, dollar, bar and opening
    bracket, whose at signs all follow a word character, is a fixed point
    of the reverse conversion. *)
Theorem text_without_marks_is_unchanged (t : string) :
  has_any "{$|[" t = false -> ats_follow_words None t = true ->
  QuartoToMyst.convert_quarto_to_myst t = Ok t.
Proof.
  intros H Hat. unfold QuartoToMyst.convert_quarto_to_myst. cbv zeta.
  destruct (loop_without_marks (length (Py.split Py.newline t))
              (Py.split Py.newline t) QuartoToMyst.init)
    as (st & -> & Ho).
  - apply le_n.
  - pose proof (split_has_any "{$|[" Py.newline t H) as Hh.
    destruct (split_ats t None Hat) as (h & tl & E & Hh1 & Htl).
    rewrite E in *. inversion Hh as [|? ? Hh0 Hhtl]; subst.
    constructor; [split; assumption|].
    rewrite Forall_forall in *. intros l Hl. split; auto.
  - simpl. rewrite Ho. simpl. rewrite join_split. reflexivity.
Qed.

Lemma text_without_marks_is_unchanged_witness :
  QuartoToMyst.convert_quarto_to_myst
    (text ["# Contact"; ""; "Mail ann@example.org, or call."; "```python";
           "x = 1"; "```"])
  = Ok (text ["# Contact"; ""; "Mail ann@example.org, or call."; "```python";
              "x = 1"; "```"]).
Proof.
  apply text_without_marks_is_unchanged; reflexivity.
Defined.

(** ** Margin notes *)

Lemma margin_forward (body : list string) :
  Forall body_line body -> first_not_blank body ->
  MystToQuarto.convert_myst_to_quarto (text ("```{margin}" :: body ++ ["```"]))
  = Ok (text ("::: {.column-margin}" :: body ++ [":::"])).
Proof.
  intros Hall Hfirst.
  unfold MystToQuarto.convert_myst_to_quarto, Scanner.scan.
  rewrite split_text.
  - rewrite (scan_top_level_directive MystToQuarto.transform_directive
               (Some MystToQuarto.transform_inline) _ "```"
               (Scanner.mkFrame "margin" "`" 3 "" [] [] 0) body).
    + reflexivity.
    + eexists; split; vm_compute; reflexivity.
    + reflexivity.
    + reflexivity.
    + eapply Forall_impl; [|exact Hall].
      intros l [_ H]. apply body_line_inner; [reflexivity | exact H].
    + intros b rest E. split; [|exact (Hfirst b rest E)].
      subst body. inversion Hall as [|? ? [_ H] _].
      exact (body_line_no_option _ H).
    + reflexivity.
    + reflexivity.
  - discriminate.
  - apply Forall_cons; [reflexivity|].
    apply Forall_app. split; [|repeat constructor].
    eapply Forall_impl; [|exact Hall]. intros l [H _]. exact H.
Qed.

Lemma margin_step (body after : list string) (st : QuartoToMyst.state) :
  Forall body_line body ->
  QuartoToMyst.step "::: {.column-margin}" (body ++ ":::" :: after) st
  = Ok (after, QuartoToMyst.emit st ("```{margin}" :: body ++ ["```"])).
Proof.
  intros Hall.
  unfold QuartoToMyst.step, QuartoToMyst.block_or_line. cbv zeta.
  change (Re.re_match QuartoToMyst._EXEC_CODE_RE (Py.strip "::: {.column-margin}"))
    with (@None Re.rmatch).
  change (Re.re_match QuartoToMyst._CALLOUT_RE (Py.strip "::: {.column-margin}"))
    with (@None Re.rmatch).
  change (Re.re_match QuartoToMyst._TABSET_RE (Py.strip "::: {.column-margin}"))
    with (@None Re.rmatch).
  change (Re.re_match QuartoToMyst._MARGIN_RE (Py.strip "::: {.column-margin}"))
    with (Some (Re.mkMatch "::: {.column-margin}" "" [(1, ":::")])).
  cbv beta iota.
  apply (colon_block_body _ ":::"); [reflexivity | simpl; lia | | reflexivity].
  eapply Forall_impl; [|exact Hall].
  intros l [_ H]. exact (body_line_no_colon_close _ H).
Qed.

Lemma margin_reverse (body : list string) :
  Forall body_line body ->
  QuartoToMyst.convert_quarto_to_myst
    (text ("::: {.column-margin}" :: body ++ [":::"]))
  = Ok (text ("```{margin}" :: body ++ ["```"])).
Proof.
  intros Hall. unfold QuartoToMyst.convert_quarto_to_myst. cbv zeta.
  rewrite split_text.
  - match goal with
    | |- context [QuartoToMyst.loop _ (?h :: ?t) ?st] =>
        change (QuartoToMyst.loop (length (h :: t)) (h :: t) st)
          with (r <- QuartoToMyst.step h t st ;;
                QuartoToMyst.loop (length t) (fst r) (snd r))
    end.
    rewrite (margin_step body [] QuartoToMyst.init Hall). simpl bind.
    destruct (length (body ++ [":::"])); reflexivity.
  - discriminate.
  - apply Forall_cons; [reflexivity|].
    apply Forall_app. split; [|repeat constructor].
    eapply Forall_impl; [|exact Hall]. intros l [H _]. exact H.
Qed.

(** X15: a margin directive whose body lines do not begin with a fence
    character, the first of them not blank, becomes the margin column
    block around the same lines, and that block becomes the margin
    directive again. *)
Theorem margin_round_trip (body : list string) :
  Forall body_line body -> first_not_blank body ->
  MystToQuarto.convert_myst_to_quarto (text ("```{margin}" :: body ++ ["```"]))
  = Ok (text ("::: {.column-margin}" :: body ++ [":::"]))
  /\ QuartoToMyst.convert_quarto_to_myst
       (text ("::: {.column-margin}" :: body ++ [":::"]))
     = Ok (text ("```{margin}" :: body ++ ["```"])).
Proof.
  intros Hall Hfirst. split.
  - exact (margin_forward body Hall Hfirst).
  - exact (margin_reverse body Hall).
Qed.

Lemma margin_round_trip_witness :
  MystToQuarto.convert_myst_to_quarto
    (text ["```{margin}"; "See @fig-1."; "```"])
  = Ok (text ["::: {.column-margin}"; "See @fig-1."; ":::"])
  /\ QuartoToMyst.convert_quarto_to_myst
       (text ["::: {.column-margin}"; "See @fig-1."; ":::"])
     = Ok (text ["```{margin}"; "See @fig-1."; "```"]).
Proof.
  apply (margin_round_trip ["See @fig-1."]).
  - repeat constructor.
  - intros b rest E. injection E as <- _. discriminate.
Defined.

(** ** The forward fixed point at a document *)

Lemma text_without_brace_is_unchanged_witness :
  MystToQuarto.convert_myst_to_quarto
    (text ["# Title"; ""; "Plain `code` and *text*."; "```python"; "x = 1";
           "```"])
  = Ok (text ["# Title"; ""; "Plain `code` and *text*."; "```python"; "x = 1";
              "```"]).
Proof.
  apply text_without_brace_is_unchanged. reflexivity.
Defined.

(** ** Labels *)

Lemma label_strip (l : string) : is_label l -> Py.strip l = l.
Proof. intros (_ & _ & Hr & Hl). unfold Py.strip. now rewrite Hr. Qed.

Lemma label_head (l : string) (a : ascii) (t : string) :
  is_label l -> l = String a t -> Py.is_space a = false.
Proof.
  intros (_ & _ & _ & Hl) E. unfold Py.lstrip in Hl.
  apply (lstrip_by_head Py.is_space l a t). congruence.
Qed.

Lemma mem_forallb (x : ascii) (s : string) :
  Py.mem x s = false ->
  forallb (fun a => negb (Ascii.eqb a x)) (list_ascii_of_string s) = true.
Proof.
  induction s as [|a s IH]; simpl; [reflexivity|].
  intros H. apply orb_false_iff in H. destruct H as [Ha Hs].
  rewrite Ascii.eqb_sym, Ha. simpl. exact (IH Hs).
Qed.

Lemma label_length (l : string) : is_label l -> 1 <= String.length l.
Proof. intros (Hne & _). destruct l; [congruence | simpl; lia]. Qed.

Lemma label_dots (l : string) :
  is_label l ->
  forallb (fun a => negb (Ascii.eqb a Py.newline)) (list_ascii_of_string l)
  = true.
Proof. intros (_ & Hn & _). exact (mem_forallb _ _ Hn). Qed.

Lemma after_label_strip (pre l : string) :
  is_label l -> Py.rstrip (pre ++ l) = (pre ++ l)%string.
Proof.
  intros (Hne & _ & Hr & _). unfold Py.rstrip in *.
  apply rstrip_by_append; assumption.
Qed.

Lemma take_prefix (w s s' : string) :
  s = (w ++ s')%string ->
  Py.take (String.length s - String.length s') s = w.
Proof. intros ->. apply take_append. Qed.

(** ** The opening fence of a tab *)

Lemma tab_item_backtick_none (l : string) :
  Re.re_match Scanner.BACKTICK_OPEN_RE (String.append ":::{tab-item} " l)
  = None.
Proof.
  destruct (Re.re_match Scanner.BACKTICK_OPEN_RE _) as [m|] eqn:E;
    [|reflexivity].
  apply fence_open_shape in E. destruct E as (w & t & E & Hw).
  destruct w as [|a w]; simpl in E; [discriminate E|].
  injection E as <- _. discriminate Hw.
Qed.

Lemma tab_item_open (l : string) :
  is_label l ->
  Scanner.open_match (String.append ":::{tab-item} " l)
  = Some (Re.mkMatch (String.append ":::{tab-item} " l) ""
            [(4, l); (3, "tab-item"); (2, ":::"); (1, "")]).
Proof.
  intros Hl. unfold Scanner.open_match. rewrite tab_item_backtick_none.
  apply match_at_whole.
  unfold Scanner.COLON_OPEN_RE, Scanner.fence_open_re. cbn [Re.seq].
  rewrite rx_cat, rx_bos, rx_cat, rx_grp.
  apply (rx_run _ 0 _ "" (":::{tab-item} " ++ l));
    [reflexivity | lia | intros a t E; injection E as <- _; reflexivity |].
  intros prev1. cbv beta. rewrite rx_cat, rx_grp.
  apply (rx_run _ 3 _ ":::" ("{tab-item} " ++ l));
    [reflexivity | simpl; lia
     | intros a t E; injection E as <- _; reflexivity |].
  intros prev2. cbv beta. rewrite rx_cat.
  change ("{tab-item} " ++ l)%string with (String "{" ("tab-item} " ++ l)).
  unfold Re.chr at 1. rewrite rx_cls by reflexivity.
  rewrite rx_cat, rx_grp, rx_cat.
  change ("tab-item} " ++ l)%string with (String "t" ("ab-item} " ++ l)).
  unfold Re.word at 1. rewrite rx_cls by reflexivity.
  apply (rx_run _ 0 _ "ab-item" ("} " ++ l));
    [reflexivity | lia | intros a t E; injection E as <- _; reflexivity |].
  intros prev3. cbv beta. rewrite rx_cat.
  change ("} " ++ l)%string with (String "}" (" " ++ l)).
  unfold Re.chr at 1. rewrite rx_cls by reflexivity.
  rewrite rx_cat.
  apply (rx_run _ 0 _ " " l);
    [reflexivity | lia | intros a t E; exact (label_head l a t Hl E) |].
  intros prev4. cbv beta. rewrite rx_cat, rx_grp.
  apply rx_run_end; [exact (label_dots l Hl) | lia |].
  intros prev5. cbv beta. rewrite rx_eos. unfold Re.accept.
  rewrite take_full.
  repeat f_equal; apply take_prefix; reflexivity.
Qed.

Lemma heading_match (l : string) :
  is_label l ->
  Re.re_match QuartoToMyst.HEADING_RE (String.append "## " l)
  = Some (Re.mkMatch (String.append "## " l) "" [(1, l)]).
Proof.
  intros Hl. apply match_at_whole.
  unfold QuartoToMyst.HEADING_RE. cbn [Re.seq Re.lit].
  rewrite rx_cat, rx_bos, rx_cat, rx_cat.
  change ("## " ++ l)%string with (String "#" (String "#" (" " ++ l))).
  unfold Re.chr at 1 2. rewrite !rx_cls by reflexivity.
  rewrite rx_cat.
  apply (rx_run _ 1 _ " " l);
    [reflexivity | simpl; lia | intros a t E; exact (label_head l a t Hl E) |].
  intros prev1. cbv beta. rewrite rx_cat, rx_grp.
  apply rx_run_end; [exact (label_dots l Hl) | exact (label_length l Hl) |].
  intros prev2. cbv beta. rewrite rx_eos. unfold Re.accept.
  rewrite take_full. reflexivity.
Qed.

(** ** A directive from its body to its closing fence, at any depth *)

Section Frames.

Variable transform_fn : Scanner.DirectiveFrame -> list string.
Variable inline_fn : option (string -> result string).

Lemma close_top_with_stack (st : Scanner.state) (stk : list Scanner.DirectiveFrame)
  (io : bool) (F : Scanner.DirectiveFrame) (below : list Scanner.DirectiveFrame) :
  Scanner.close_top transform_fn
    (Scanner.with_stack (Scanner.with_in_options st io) stk) F below
  = Scanner.close_top transform_fn st F below.
Proof. destruct st, below; reflexivity. Qed.

Lemma map_strip_indent_0 (F : Scanner.DirectiveFrame) (body : list string) :
  Scanner.indent F = 0 ->
  map (fun l => Scanner._strip_indent l (Scanner.indent F)) body = body.
Proof.
  intros ->. rewrite (map_ext _ (fun l => l)) by reflexivity. apply map_id.
Qed.

Lemma scan_body_out_of_options (st : Scanner.state)
  (F : Scanner.DirectiveFrame) (below : list Scanner.DirectiveFrame)
  (body : list string) (closer : string) :
  Scanner.stack st = F :: below -> Scanner.in_options st = false ->
  Scanner.indent F = 0 ->
  Forall (inner_line F) body ->
  Scanner.open_match closer = None -> closes F closer = true ->
  Scanner.scan_lines transform_fn inline_fn st (body ++ [closer])
  = Ok (Scanner.close_top transform_fn st
          (Scanner.with_body_lines F (Scanner.body_lines F ++ body)) below).
Proof.
  intros Hst Hopt Hind Hall Hco Hcl.
  rewrite (scan_lines_app transform_fn inline_fn body [closer] st _
             (scan_lines_body transform_fn inline_fn body st F below
                Hst Hopt Hall)).
  rewrite (map_strip_indent_0 F body Hind).
  set (F2 := Scanner.with_body_lines F (Scanner.body_lines F ++ body)).
  simpl.
  rewrite (scan_line_close transform_fn inline_fn
             (Scanner.with_stack st (F2 :: below)) F2 below closer
             eq_refl Hco).
  - destruct st, below; reflexivity.
  - fold (closes F2 closer). rewrite <- Hcl.
    apply closes_same_fence. repeat split.
Qed.

Lemma scan_frame (st : Scanner.state) (F : Scanner.DirectiveFrame)
  (below : list Scanner.DirectiveFrame) (body : list string)
  (closer : string) :
  Scanner.stack st = F :: below -> Scanner.indent F = 0 ->
  Forall (inner_line F) body ->
  (forall b rest, body = b :: rest ->
     Re.re_match Scanner.OPTION_RE (Py.strip b) = None /\ Py.strip b <> "") ->
  Scanner.open_match closer = None -> closes F closer = true ->
  Scanner.scan_lines transform_fn inline_fn st (body ++ [closer])
  = Ok (Scanner.close_top transform_fn st
          (Scanner.with_body_lines F (Scanner.body_lines F ++ body)) below).
Proof.
  intros Hst Hind Hall Hfirst Hco Hcl.
  destruct (Scanner.in_options st) eqn:Hopt;
    [|exact (scan_body_out_of_options st F below body closer
               Hst Hopt Hind Hall Hco Hcl)].
  destruct body as [|b rest].
  - simpl.
    rewrite (scan_line_close transform_fn inline_fn st F below closer
               Hst Hco Hcl).
    rewrite app_nil_r. destruct F; reflexivity.
  - inversion Hall as [|? ? [Hbo Hbc] Hrest]; subst.
    destruct (Hfirst b rest eq_refl) as [Hno Hne].
    simpl app. simpl Scanner.scan_lines.
    rewrite (scan_line_inside transform_fn inline_fn st F below b
               Hst Hbo Hbc).
    unfold Scanner.inside_directive. rewrite Hopt, Hind, strip_indent_0, Hno.
    destruct (Py.strip b) eqn:Es; [congruence|]. simpl Py.is_empty. cbv iota.
    simpl bind.
    set (F1 := Scanner.with_body_lines F (Scanner.body_lines F
                 ++ [Scanner._strip_indent b (Scanner.indent F)])).
    rewrite (scan_body_out_of_options _ F1 below rest closer);
      try reflexivity.
    + unfold Scanner.add_body. rewrite close_top_with_stack.
      unfold F1. simpl. rewrite Hind, strip_indent_0, <- app_assoc.
      reflexivity.
    + exact Hind.
    + eapply Forall_impl; [|exact Hrest].
      intros x [Ho Hc]. split; [exact Ho|].
      rewrite <- Hc. apply closes_same_fence. repeat split.
    + exact Hco.
    + rewrite <- Hcl. apply closes_same_fence. repeat split.
Qed.

End Frames.

(** ** Tab sets *)

Lemma tab_line_inner (F : Scanner.DirectiveFrame) (body : list string) :
  Py.mem (Scanner.fence_char F) "`:" = true ->
  Forall tab_line body -> Forall (inner_line F) body.
Proof.
  intros HF Hall. eapply Forall_impl; [|exact Hall].
  intros l [[_ H] _]. exact (body_line_inner _ _ HF H).
Qed.

Lemma scan_tab (A : Scanner.DirectiveFrame) (io : bool)
  (tab : string * list string) :
  is_tab tab ->
  Scanner.scan_lines MystToQuarto.transform_directive
    (Some MystToQuarto.transform_inline) (inside A io) (myst_tab tab)
  = Ok (inside (Scanner.with_body_lines A
                  (Scanner.body_lines A ++ quarto_tab tab)) false).
Proof.
  destruct tab as [l body]. unfold is_tab, myst_tab, quarto_tab.
  simpl fst. simpl snd. intros (Hl & Hall & Hfirst & _).
  set (B := Scanner.mkFrame "tab-item" ":" 3 l [] [] 0).
  change ((":::{tab-item} " ++ l)%string :: body ++ [":::"])
    with ([(":::{tab-item} " ++ l)%string] ++ body ++ [":::"]).
  rewrite (scan_lines_app _ _ _ _ (inside A io)
             (Scanner.with_in_options
                (Scanner.with_stack (inside A io) [B; A]) true)).
  - rewrite (scan_frame _ _ _ B [A] body ":::"); try reflexivity.
    + unfold Scanner.close_top.
      change (MystToQuarto.transform_directive
                (Scanner.with_body_lines B (Scanner.body_lines B ++ body)))
        with ([("## " ++ Py.strip l)%string] ++ body).
      rewrite (label_strip l Hl). reflexivity.
    + apply tab_line_inner; [reflexivity | exact Hall].
    + intros b rest E. split; [|exact (Hfirst b rest E)].
      subst body. inversion Hall as [|? ? [[_ H] _] _].
      exact (body_line_no_option _ H).
  - cbn [Scanner.scan_lines]. unfold Scanner.scan_line.
    rewrite (tab_item_open l Hl).
    simpl Scanner.in_regular_code_fence. cbv iota.
    unfold Scanner.open_frame. simpl (Re.group_str _ _). simpl bind.
    rewrite (label_strip l Hl). reflexivity.
Qed.

Lemma scan_tabs (tabs : list (string * list string)) :
  forall A io,
    Forall is_tab tabs ->
    exists io',
      Scanner.scan_lines MystToQuarto.transform_directive
        (Some MystToQuarto.transform_inline) (inside A io)
        (concat (map myst_tab tabs))
      = Ok (inside (Scanner.with_body_lines A
                      (Scanner.body_lines A ++ concat (map quarto_tab tabs)))
              io').
Proof.
  induction tabs as [|tab tabs IH]; intros A io Hall.
  - exists io. simpl. rewrite app_nil_r. destruct A; reflexivity.
  - inversion Hall as [|? ? Htab Hrest]; subst.
    change (concat (map myst_tab (tab :: tabs)))
      with (myst_tab tab ++ concat (map myst_tab tabs)).
    change (concat (map quarto_tab (tab :: tabs)))
      with (quarto_tab tab ++ concat (map quarto_tab tabs)).
    rewrite (scan_lines_app _ _ _ _ _ _ (scan_tab A io tab Htab)).
    destruct (IH (Scanner.with_body_lines A
                    (Scanner.body_lines A ++ quarto_tab tab)) false Hrest)
      as (io' & ->).
    exists io'. simpl. rewrite <- app_assoc. reflexivity.
Qed.

Lemma tab_lines_newline_free (tabs : list (string * list string)) :
  Forall is_tab tabs ->
  Forall (fun l => Py.mem Py.newline l = false) (concat (map myst_tab tabs))
  /\ Forall (fun l => Py.mem Py.newline l = false)
       (concat (map quarto_tab tabs)).
Proof.
  induction 1 as [|[l body] tabs (Hl & Hall & _) _ [IH1 IH2]]; simpl;
    [split; constructor|].
  assert (Hb : Forall (fun l => Py.mem Py.newline l = false) body).
  { eapply Forall_impl; [|exact Hall]. intros x [[H _] _]. exact H. }
  destruct Hl as (_ & Hn & _). simpl in *.
  split; constructor; try (simpl; exact Hn).
  - rewrite <- app_assoc. apply Forall_app. split; [exact Hb|].
    constructor; [reflexivity | exact IH1].
  - apply Forall_app. split; assumption.
Qed.

Lemma tab_set_forward (tabs : list (string * list string)) :
  Forall is_tab tabs ->
  MystToQuarto.convert_myst_to_quarto
    (text ("::::{tab-set}" :: concat (map myst_tab tabs) ++ ["::::"]))
  = Ok (text ("::: {.panel-tabset}"
              :: concat (map quarto_tab tabs) ++ [":::"])).
Proof.
  intros Hall. unfold MystToQuarto.convert_myst_to_quarto, Scanner.scan.
  rewrite split_text.
  - set (A := Scanner.mkFrame "tab-set" ":" 4 "" [] [] 0).
    destruct (scan_tabs tabs A true Hall) as (io' & H).
    change ("::::{tab-set}" :: concat (map myst_tab tabs) ++ ["::::"])
      with (["::::{tab-set}"] ++ concat (map myst_tab tabs) ++ ["::::"]).
    rewrite (scan_lines_app _ _ _ _ Scanner.init (inside A true))
      by reflexivity.
    rewrite (scan_lines_app _ _ _ _ _ _ H).
    cbn [Scanner.scan_lines].
    rewrite (scan_line_close _ _
               (inside (Scanner.with_body_lines A
                          (Scanner.body_lines A
                           ++ concat (map quarto_tab tabs))) io')
               (Scanner.with_body_lines A
                  (Scanner.body_lines A ++ concat (map quarto_tab tabs)))
               [] "::::" eq_refl); reflexivity.
  - discriminate.
  - apply Forall_cons; [reflexivity|]. apply Forall_app.
    split; [exact (proj1 (tab_lines_newline_free tabs Hall))
           | repeat constructor].
Qed.

Lemma drop_trailing_blank_none (body : list string) :
  last_not_blank body -> QuartoToMyst.drop_trailing_blank body = body.
Proof.
  induction body as [|l body IH]; intros H; [reflexivity|]. simpl.
  rewrite IH.
  - destruct body as [|l2 body]; [|reflexivity].
    destruct (Py.strip l) eqn:E; [|reflexivity].
    elim (H [] l eq_refl). exact E.
  - intros front b E. apply (H (l :: front) b). rewrite E. reflexivity.
Qed.

Lemma tab_items_body (body rest : list string) :
  forall res label current,
    Forall tab_line body ->
    QuartoToMyst.tab_items (body ++ rest) res label current
    = QuartoToMyst.tab_items rest res label (current ++ body).
Proof.
  induction body as [|l body IH]; intros res label current Hall.
  - simpl. now rewrite app_nil_r.
  - inversion Hall as [|? ? [_ Hl] Hrest]; subst. simpl.
    rewrite Hl, (IH _ _ _ Hrest), <- app_assoc. reflexivity.
Qed.

Lemma tab_items_tabs (tabs : list (string * list string)) :
  forall res label current,
    Forall is_tab tabs ->
    QuartoToMyst.tab_items (concat (map quarto_tab tabs)) res label current
    = Ok (QuartoToMyst.flush_tab res label current
          ++ concat (map myst_tab tabs)).
Proof.
  induction tabs as [|[l body] tabs IH]; intros res label current Hall.
  - simpl. now rewrite app_nil_r.
  - inversion Hall as [|? ? (Hl & Hbody & _ & Hlast) Hrest]; subst.
    simpl fst in *. simpl snd in *.
    change (concat (map quarto_tab ((l, body) :: tabs)))
      with ((("## " ++ l)%string :: body) ++ concat (map quarto_tab tabs)).
    change (concat (map myst_tab ((l, body) :: tabs)))
      with (((":::{tab-item} " ++ l)%string :: body ++ [":::"])
            ++ concat (map myst_tab tabs)).
    cbn [app QuartoToMyst.tab_items].
    rewrite (heading_match l Hl). simpl (Re.group_str _ _). simpl bind.
    rewrite (label_strip l Hl).
    rewrite (tab_items_body body _ _ _ _ Hbody), (IH _ _ _ Hrest).
    change (QuartoToMyst.flush_tab
              (QuartoToMyst.flush_tab res label current) (Some l) ([] ++ body))
      with (QuartoToMyst.flush_tab res label current
            ++ [(":::{tab-item} " ++ l)%string]
            ++ QuartoToMyst.drop_trailing_blank body ++ [":::"]).
    rewrite (drop_trailing_blank_none body Hlast).
    cbn [app]. rewrite <- !app_assoc. cbn [app]. rewrite <- ?app_assoc.
    reflexivity.
Qed.

Lemma tab_lines_no_colon_close (tabs : list (string * list string)) :
  Forall is_tab tabs ->
  Forall (fun l => Re.re_match QuartoToMyst._COLON_CLOSE_RE (Py.strip l) = None)
    (concat (map quarto_tab tabs)).
Proof.
  induction 1 as [|[l body] tabs (Hl & Hall & _) _ IH]; simpl; [constructor|].
  constructor.
  - apply body_line_no_colon_close. reflexivity.
  - apply Forall_app. split; [|exact IH].
    eapply Forall_impl; [|exact Hall].
    intros x [[_ H] _]. exact (body_line_no_colon_close _ H).
Qed.

Lemma tab_set_step (tabs : list (string * list string)) (after : list string)
  (st : QuartoToMyst.state) :
  Forall is_tab tabs ->
  QuartoToMyst.step "::: {.panel-tabset}"
    (concat (map quarto_tab tabs) ++ ":::" :: after) st
  = Ok (after,
        QuartoToMyst.emit st
          ("::::{tab-set}" :: concat (map myst_tab tabs) ++ ["::::"])).
Proof.
  intros Hall.
  unfold QuartoToMyst.step, QuartoToMyst.block_or_line. cbv zeta.
  change (Re.re_match QuartoToMyst._EXEC_CODE_RE (Py.strip "::: {.panel-tabset}"))
    with (@None Re.rmatch).
  change (Re.re_match QuartoToMyst._CALLOUT_RE (Py.strip "::: {.panel-tabset}"))
    with (@None Re.rmatch).
  change (Re.re_match QuartoToMyst._TABSET_RE (Py.strip "::: {.panel-tabset}"))
    with (Some (Re.mkMatch "::: {.panel-tabset}" "" [(1, ":::")])).
  cbv beta iota.
  apply (colon_block_body _ ":::");
    [reflexivity | simpl; lia | exact (tab_lines_no_colon_close tabs Hall) |].
  unfold QuartoToMyst._build_tab_set.
  rewrite (tab_items_tabs tabs _ _ _ Hall). reflexivity.
Qed.

Lemma tab_set_reverse (tabs : list (string * list string)) :
  Forall is_tab tabs ->
  QuartoToMyst.convert_quarto_to_myst
    (text ("::: {.panel-tabset}" :: concat (map quarto_tab tabs) ++ [":::"]))
  = Ok (text ("::::{tab-set}" :: concat (map myst_tab tabs) ++ ["::::"])).
Proof.
  intros Hall. unfold QuartoToMyst.convert_quarto_to_myst. cbv zeta.
  rewrite split_text.
  - match goal with
    | |- context [QuartoToMyst.loop _ (?h :: ?t) ?st] =>
        change (QuartoToMyst.loop (length (h :: t)) (h :: t) st)
          with (r <- QuartoToMyst.step h t st ;;
                QuartoToMyst.loop (length t) (fst r) (snd r))
    end.
    rewrite (tab_set_step tabs [] QuartoToMyst.init Hall). simpl bind.
    match goal with
    | |- context [QuartoToMyst.loop ?n [] _] => destruct n
    end; reflexivity.
  - discriminate.
  - apply Forall_cons; [reflexivity|]. apply Forall_app.
    split; [exact (proj2 (tab_lines_newline_free tabs Hall))
           | repeat constructor].
Qed.

(** X16: a tab set of any number of tabs, each with a label on one line
    and a body whose lines begin with no fence character and are no
    headings of level two, the first and the last of them not blank,
    becomes the panel tab set with a heading of level two for each tab,
    and that block becomes the tab set again. *)
Theorem tab_set_round_trip (tabs : list (string * list string)) :
  Forall is_tab tabs ->
  MystToQuarto.convert_myst_to_quarto
    (text ("::::{tab-set}" :: concat (map myst_tab tabs) ++ ["::::"]))
  = Ok (text ("::: {.panel-tabset}"
              :: concat (map quarto_tab tabs) ++ [":::"]))
  /\ QuartoToMyst.convert_quarto_to_myst
       (text ("::: {.panel-tabset}"
              :: concat (map quarto_tab tabs) ++ [":::"]))
     = Ok (text ("::::{tab-set}" :: concat (map myst_tab tabs) ++ ["::::"])).
Proof.
  intros Hall. split.
  - exact (tab_set_forward tabs Hall).
  - exact (tab_set_reverse tabs Hall).
Qed.

Lemma tab_set_round_trip_witness :
  MystToQuarto.convert_myst_to_quarto
    (text ["::::{tab-set}"; ":::{tab-item} Python 3"; "print(1)"; ":::";
           ":::{tab-item} R"; "print(1)"; ""; "# done"; ":::"; "::::"])
  = Ok (text ["::: {.panel-tabset}"; "## Python 3"; "print(1)"; "## R";
              "print(1)"; ""; "# done"; ":::"])
  /\ QuartoToMyst.convert_quarto_to_myst
       (text ["::: {.panel-tabset}"; "## Python 3"; "print(1)"; "## R";
              "print(1)"; ""; "# done"; ":::"])
     = Ok (text ["::::{tab-set}"; ":::{tab-item} Python 3"; "print(1)"; ":::";
                 ":::{tab-item} R"; "print(1)"; ""; "# done"; ":::"; "::::"]).
Proof.
  apply (tab_set_round_trip
           [("Python 3", ["print(1)"]); ("R", ["print(1)"; ""; "# done"])]).
  repeat constructor; try discriminate; try reflexivity.
  - intros b rest E. injection E as <- _. discriminate.
  - intros front b E. destruct front as [|x [|y front]];
      [injection E as <-; discriminate | discriminate E | discriminate E].
  - intros b rest E. injection E as <- _. discriminate.
  - intros front b E.
    destruct front as [|x [|y [|z [|u front]]]]; try discriminate E.
    injection E as _ _ <-. discriminate.
Defined.

(** ** Figures *)

Lemma key_is_label (key : string) : is_key key -> is_label key.
Proof.
  intros Hk. split; [exact (proj1 Hk)|]. split; [|split].
  - apply (key_without key Py.newline Hk). reflexivity.
  - exact (key_rstrip key Hk).
  - pose proof (key_strip key Hk) as Hs. unfold Py.strip in Hs.
    now rewrite (key_rstrip key Hk) in Hs.
Qed.

Lemma fig_name_key (k : string) : is_key k -> is_key (String.append "fig-" k).
Proof.
  intros [_ Hk]. split; [discriminate|]. simpl. exact Hk.
Qed.

Lemma name_option_match (name : string) :
  is_label name ->
  Re.re_match Scanner.OPTION_RE (String.append ":name: " name)
  = Some (Re.mkMatch (String.append ":name: " name) ""
            [(2, name); (1, "name")]).
Proof.
  intros Hl. apply match_at_whole.
  unfold Scanner.OPTION_RE. cbn [Re.seq].
  rewrite rx_cat, rx_bos, rx_cat.
  change (":name: " ++ name)%string with (String ":" ("name: " ++ name)).
  unfold Re.chr at 1. rewrite rx_cls by reflexivity.
  rewrite rx_cat, rx_grp, rx_cat.
  change ("name: " ++ name)%string with (String "n" ("ame: " ++ name)).
  unfold Re.word at 1. rewrite rx_cls by reflexivity.
  apply (rx_run _ 0 _ "ame" (": " ++ name));
    [reflexivity | lia | intros a t E; injection E as <- _; reflexivity |].
  intros prev1. cbv beta. rewrite rx_cat.
  change (": " ++ name)%string with (String ":" (" " ++ name)).
  unfold Re.chr at 1. rewrite rx_cls by reflexivity.
  rewrite rx_cat.
  apply (rx_run _ 0 _ " " name);
    [reflexivity | lia | intros a t E; exact (label_head name a t Hl E) |].
  intros prev2. cbv beta. rewrite rx_cat, rx_grp.
  apply rx_run_end; [exact (label_dots name Hl) | lia |].
  intros prev3. cbv beta. rewrite rx_eos. unfold Re.accept.
  rewrite take_full.
  repeat f_equal. apply take_prefix. reflexivity.
Qed.

Lemma figure_open (path : string) :
  is_label path ->
  Scanner.open_match (String.append "```{figure} " path)
  = Some (Re.mkMatch (String.append "```{figure} " path) ""
            [(4, path); (3, "figure"); (2, "```"); (1, "")]).
Proof.
  intros Hl. unfold Scanner.open_match.
  assert (H : Re.re_match Scanner.BACKTICK_OPEN_RE ("```{figure} " ++ path)
              = Some (Re.mkMatch ("```{figure} " ++ path) ""
                        [(4, path); (3, "figure"); (2, "```"); (1, "")]));
    [|now rewrite H].
  apply match_at_whole.
  unfold Scanner.BACKTICK_OPEN_RE, Scanner.fence_open_re. cbn [Re.seq].
  rewrite rx_cat, rx_bos, rx_cat, rx_grp.
  apply (rx_run _ 0 _ "" ("```{figure} " ++ path));
    [reflexivity | lia | intros a t E; injection E as <- _; reflexivity |].
  intros prev1. cbv beta. rewrite rx_cat, rx_grp.
  apply (rx_run _ 3 _ "```" ("{figure} " ++ path));
    [reflexivity | simpl; lia
     | intros a t E; injection E as <- _; reflexivity |].
  intros prev2. cbv beta. rewrite rx_cat.
  change ("{figure} " ++ path)%string with (String "{" ("figure} " ++ path)).
  unfold Re.chr at 1. rewrite rx_cls by reflexivity.
  rewrite rx_cat, rx_grp, rx_cat.
  change ("figure} " ++ path)%string with (String "f" ("igure} " ++ path)).
  unfold Re.word at 1. rewrite rx_cls by reflexivity.
  apply (rx_run _ 0 _ "igure" ("} " ++ path));
    [reflexivity | lia | intros a t E; injection E as <- _; reflexivity |].
  intros prev3. cbv beta. rewrite rx_cat.
  change ("} " ++ path)%string with (String "}" (" " ++ path)).
  unfold Re.chr at 1. rewrite rx_cls by reflexivity.
  rewrite rx_cat.
  apply (rx_run _ 0 _ " " path);
    [reflexivity | lia | intros a t E; exact (label_head path a t Hl E) |].
  intros prev4. cbv beta. rewrite rx_cat, rx_grp.
  apply rx_run_end; [exact (label_dots path Hl) | lia |].
  intros prev5. cbv beta. rewrite rx_eos. unfold Re.accept.
  rewrite take_full.
  repeat f_equal; apply take_prefix; reflexivity.
Qed.

Lemma figure_header_scanned (path name : string) :
  is_label path -> is_key name ->
  Scanner.scan_lines MystToQuarto.transform_directive
    (Some MystToQuarto.transform_inline) Scanner.init
    [String.append "```{figure} " path; String.append ":name: " name; ""]
  = Ok (in_body (Scanner.mkFrame "figure" "`" 3 path [("name", name)] [] 0)).
Proof.
  intros Hp Hk. pose proof (key_is_label name Hk) as Hn.
  set (F0 := Scanner.mkFrame "figure" "`" 3 path [] [] 0).
  set (st0 := Scanner.mkState [F0] [] true false None 0 0).
  change ([("```{figure} " ++ path)%string; (":name: " ++ name)%string; ""])
    with ([("```{figure} " ++ path)%string]
          ++ [(":name: " ++ name)%string; ""]).
  rewrite (scan_lines_app _ _ _ _ Scanner.init st0).
  - cbn [Scanner.scan_lines].
    rewrite (scan_line_inside _ _ st0 F0 [] _ eq_refl).
    + unfold Scanner.inside_directive. simpl Scanner.in_options.
      cbv iota zeta. simpl Scanner.indent. rewrite strip_indent_0.
      unfold Py.strip at 1. rewrite (after_label_strip ":name: " name Hn).
      change (Py.lstrip (":name: " ++ name)) with (":name: " ++ name)%string.
      rewrite (name_option_match name Hn).
      simpl (Re.group_str _ _). simpl bind. rewrite (label_strip name Hn).
      reflexivity.
    + apply open_match_without_brace.
      simpl. rewrite (key_without name "{" Hk); reflexivity.
    + reflexivity.
  - cbn [Scanner.scan_lines]. unfold Scanner.scan_line.
    rewrite (figure_open path Hp).
    simpl Scanner.in_regular_code_fence. cbv iota.
    unfold Scanner.open_frame. simpl (Re.group_str _ _). simpl bind.
    rewrite (label_strip path Hp). reflexivity.
Qed.

Lemma figure_forward (caption path k : string) :
  is_label caption -> begins_with "`:" caption = false ->
  is_label path -> is_key k ->
  MystToQuarto.convert_myst_to_quarto
    (text [String.append "```{figure} " path;
           String.append ":name: " (String.append "fig-" k); ""; caption;
           "```"])
  = Ok (image_line caption path (String.append "fig-" k)).
Proof.
  intros Hc Hb Hp Hk. pose proof (fig_name_key k Hk) as Hn.
  unfold MystToQuarto.convert_myst_to_quarto, Scanner.scan.
  rewrite split_text.
  - change [("```{figure} " ++ path)%string; (":name: " ++ "fig-" ++ k)%string;
            ""; caption; "```"]
      with ([("```{figure} " ++ path)%string; (":name: " ++ "fig-" ++ k)%string;
             ""] ++ [caption] ++ ["```"]).
    rewrite (scan_lines_app _ _ _ _ _ _ (figure_header_scanned path _ Hp Hn)).
    rewrite scan_body_and_close.
    + simpl bind. simpl Scanner.drain.
      rewrite (label_strip caption Hc), (label_strip path Hp).
      replace (negb (Py.is_empty caption)) with true
        by (destruct caption; [elim (proj1 Hc); reflexivity | reflexivity]).
      cbn [map Py.join]. rewrite (label_strip caption Hc).
      unfold image_line. f_equal. simpl.
      rewrite !append_assoc. simpl. rewrite !append_assoc. reflexivity.
    + reflexivity.
    + constructor; [|constructor].
      apply body_line_inner; [reflexivity | exact Hb].
    + reflexivity.
    + reflexivity.
  - discriminate.
  - destruct Hc as (_ & Hcn & _). destruct Hp as (_ & Hpn & _).
    repeat constructor; simpl; try assumption.
    apply (key_without k Py.newline Hk). reflexivity.
Qed.

Lemma search_from_unmatched (r : Re.regex) :
  forall s prev, unmatched r prev s -> Re.search_from r prev s = None.
Proof.
  induction s as [|a t IH]; intros prev [H Ht]; simpl; rewrite H;
    [reflexivity | exact (IH _ Ht)].
Qed.

Lemma image_line_strip (caption path name : string) :
  Py.strip (image_line caption path name) = image_line caption path name.
Proof.
  unfold Py.strip, Py.rstrip, image_line.
  rewrite <- !append_assoc.
  rewrite rstrip_by_append; [|reflexivity|discriminate].
  rewrite !append_assoc. reflexivity.
Qed.

Lemma image_line_match (caption path name : string) :
  is_label caption -> Py.mem "]" caption = false ->
  is_label path -> Py.mem ")" path = false ->
  is_key name ->
  Re.re_match QuartoToMyst._IMG_ATTRS_RE (image_line caption path name)
  = Some (Re.mkMatch (image_line caption path name) ""
            [(3, String.append "#" name); (2, path); (1, caption)]).
Proof.
  intros Hc Hcb Hp Hpb Hk. apply match_at_whole.
  unfold QuartoToMyst._IMG_ATTRS_RE, image_line. cbn [Re.seq Re.lit].
  rewrite rx_cat, rx_bos, rx_cat, rx_cat.
  change ("![" ++ caption ++ "](" ++ path ++ "){#" ++ name ++ "}")%string
    with (String "!" (String "["
            (caption ++ ("](" ++ path ++ "){#" ++ name ++ "}")))).
  unfold Re.chr at 1 2. rewrite !rx_cls by reflexivity.
  rewrite rx_cat, rx_grp.
  apply (rx_run _ 0 _ caption ("](" ++ path ++ "){#" ++ name ++ "}"));
    [ exact (mem_forallb _ _ Hcb) | lia
    | intros a t E; injection E as <- _; reflexivity |].
  intros prev1. cbv beta. rewrite rx_cat, rx_cat.
  change ("](" ++ path ++ "){#" ++ name ++ "}")%string
    with (String "]" (String "(" (path ++ ("){#" ++ name ++ "}")))).
  unfold Re.chr at 1 2. rewrite !rx_cls by reflexivity.
  rewrite rx_cat, rx_grp.
  apply (rx_run _ 1 _ path ("){#" ++ name ++ "}"));
    [ exact (mem_forallb _ _ Hpb) | exact (label_length path Hp)
    | intros a t E; injection E as <- _; reflexivity |].
  intros prev2. cbv beta. rewrite rx_cat, rx_cat.
  change ("){#" ++ name ++ "}")%string
    with (String ")" (String "{" (("#" ++ name) ++ "}"))).
  unfold Re.chr at 1 2. rewrite !rx_cls by reflexivity.
  rewrite rx_cat, rx_grp.
  apply (rx_run _ 1 _ ("#" ++ name) "}");
    [ simpl; apply key_chars; [exact Hk|];
      intros a Ha; apply (word_dash_not "}" a); [reflexivity | exact Ha]
    | simpl; lia
    | intros a t E; injection E as <- _; reflexivity |].
  intros prev3. cbv beta.
  rewrite rx_cat. unfold Re.chr at 1. rewrite rx_cls by reflexivity.
  rewrite rx_cat.
  apply rx_run_end; [reflexivity | apply le_n |].
  intros prev4. cbv beta. rewrite rx_eos. unfold Re.accept.
  repeat f_equal; apply take_prefix; reflexivity.
Qed.

Lemma id_attr_search (name : string) :
  is_key name ->
  Re.re_search QuartoToMyst.ID_ATTR_RE (String.append "#" name)
  = Some (Re.mkMatch (String.append "#" name) "" [(1, name)]).
Proof.
  intros Hk. unfold Re.re_search.
  change ("#" ++ name)%string with (String "#" name).
  assert (H : Re.match_at QuartoToMyst.ID_ATTR_RE None (String "#" name)
              = Some (Re.mkMatch (String "#" name) "" [(1, name)])).
  { apply match_at_whole. unfold QuartoToMyst.ID_ATTR_RE. cbn [Re.seq].
    rewrite rx_cat.
    unfold Re.chr at 1. rewrite rx_cls by reflexivity.
    rewrite rx_grp.
    apply rx_run_end; [exact (proj2 Hk) | exact (key_length name Hk)|].
    intros prev1. cbv beta. unfold Re.accept. rewrite take_full.
    reflexivity. }
  change (Re.search_from QuartoToMyst.ID_ATTR_RE None (String "#" name))
    with (match Re.match_at QuartoToMyst.ID_ATTR_RE None (String "#" name) with
          | Some m => Some m
          | None => Re.search_from QuartoToMyst.ID_ATTR_RE (Some "#"%char) name
          end).
  rewrite H. reflexivity.
Qed.

Lemma width_attr_search (name : string) :
  is_key name ->
  Re.re_search QuartoToMyst.WIDTH_ATTR_RE (String.append "#" name) = None.
Proof.
  intros Hk. apply search_from_unmatched.
  apply (unmatched_absent "="); [reflexivity|].
  simpl. apply (key_without name "=" Hk). reflexivity.
Qed.

Lemma figure_step (caption path k : string) (after : list string)
  (st : QuartoToMyst.state) :
  is_label caption -> Py.mem "]" caption = false ->
  is_label path -> Py.mem ")" path = false ->
  is_key k ->
  QuartoToMyst.step (image_line caption path (String.append "fig-" k)) after st
  = Ok (after,
        QuartoToMyst.emit st
          [String.append "```{figure} " path;
           String.append ":name: " (String.append "fig-" k); ""; caption;
           "```"]).
Proof.
  intros Hc Hcb Hp Hpb Hk. pose proof (fig_name_key k Hk) as Hn.
  unfold QuartoToMyst.step, QuartoToMyst.block_or_line. cbv zeta.
  rewrite image_line_strip.
  assert (Hstart : forall x t, Ascii.eqb x "!" = false ->
            image_line caption path ("fig-" ++ k) <> String x t).
  { intros x t Hx E. unfold image_line in E. injection E as <- _.
    discriminate Hx. }
  rewrite (run_start_none "`" 3 _ _ ltac:(lia)
             (fun t => Hstart "`"%char t eq_refl)
           : Re.re_match QuartoToMyst._EXEC_CODE_RE _ = None).
  rewrite (run_start_none ":" 3 _ _ ltac:(lia)
             (fun t => Hstart ":"%char t eq_refl)
           : Re.re_match QuartoToMyst._CALLOUT_RE _ = None).
  rewrite (run_start_none ":" 3 _ _ ltac:(lia)
             (fun t => Hstart ":"%char t eq_refl)
           : Re.re_match QuartoToMyst._TABSET_RE _ = None).
  rewrite (run_start_none ":" 3 _ _ ltac:(lia)
             (fun t => Hstart ":"%char t eq_refl)
           : Re.re_match QuartoToMyst._MARGIN_RE _ = None).
  rewrite (image_line_match caption path _ Hc Hcb Hp Hpb Hn).
  simpl (Re.group_str _ _). simpl bind.
  unfold QuartoToMyst._parse_image_attrs.
  pose proof (id_attr_search _ Hn) as Hid.
  pose proof (width_attr_search _ Hn) as Hw.
  cbn [String.append] in Hid, Hw. rewrite Hid, Hw.
  simpl (Re.group_str _ _). simpl bind.
  unfold QuartoToMyst._build_figure_directive.
  replace (negb (Py.is_empty caption)) with true
    by (destruct caption; [elim (proj1 Hc); reflexivity | reflexivity]).
  replace (Py.startswith k "") with true by (destruct k; reflexivity).
  reflexivity.
Qed.

(** X17: a figure directive with a path, a name that begins with fig-, a
    blank line and a caption of one line becomes the image line with the
    caption, the path and the name, and that line becomes the figure
    directive again. *)
Theorem figure_round_trip (caption path k : string) :
  is_label caption -> begins_with "`:" caption = false ->
  Py.mem "]" caption = false ->
  is_label path -> Py.mem ")" path = false ->
  is_key k ->
  MystToQuarto.convert_myst_to_quarto
    (text [String.append "```{figure} " path;
           String.append ":name: " (String.append "fig-" k); ""; caption;
           "```"])
  = Ok (image_line caption path (String.append "fig-" k))
  /\ QuartoToMyst.convert_quarto_to_myst
       (image_line caption path (String.append "fig-" k))
     = Ok (text [String.append "```{figure} " path;
                 String.append ":name: " (String.append "fig-" k); "";
                 caption; "```"]).
Proof.
  intros Hc Hb Hcb Hp Hpb Hk. split.
  - exact (figure_forward caption path k Hc Hb Hp Hk).
  - unfold QuartoToMyst.convert_quarto_to_myst. cbv zeta.
    rewrite (split_no_sep Py.newline).
    + cbn [length QuartoToMyst.loop].
      rewrite (figure_step caption path k [] QuartoToMyst.init
                 Hc Hcb Hp Hpb Hk).
      reflexivity.
    + destruct Hc as (_ & Hcn & _). destruct Hp as (_ & Hpn & _).
      unfold image_line.
      rewrite !mem_append, Hcn, Hpn.
      rewrite (key_without k Py.newline Hk) by reflexivity. reflexivity.
Qed.

Lemma figure_round_trip_witness :
  MystToQuarto.convert_myst_to_quarto
    (text ["```{figure} img/plot one.png"; ":name: fig-plot"; "";
           "A plot, twice."; "```"])
  = Ok "![A plot, twice.](img/plot one.png){#fig-plot}"
  /\ QuartoToMyst.convert_quarto_to_myst
       "![A plot, twice.](img/plot one.png){#fig-plot}"
     = Ok (text ["```{figure} img/plot one.png"; ":name: fig-plot"; "";
                 "A plot, twice."; "```"]).
Proof.
  apply (figure_round_trip "A plot, twice." "img/plot one.png" "plot");
    try reflexivity;
    repeat split; try discriminate; reflexivity.
Defined.

(** * Options, plain fences and table captions *)

(** ** The options section of a frame *)

(** A text that matches the option pattern is a colon, a word character,
    and more. *)
Lemma option_re_shape (s : string) (m : Re.rmatch) :
  Re.re_match Scanner.OPTION_RE s = Some m ->
  exists a t, s = String ":" (String a t) /\ Py.is_word a = true.
Proof.
  unfold Re.re_match, Re.match_at.
  destruct s as [|c [|a t]].
  - vm_compute. discriminate.
  - cbn -[Ascii.eqb Py.is_word].
    destruct (Ascii.eqb ":" c); cbn; discriminate.
  - cbn -[Ascii.eqb Py.is_word Py.is_space Nat.ltb Nat.leb].
    destruct (Ascii.eqb ":" c) eqn:Ec; [|discriminate].
    apply Ascii.eqb_eq in Ec. subst c.
    destruct (Py.is_word a) eqn:Ea; [eauto | discriminate].
Qed.

(** What [rstrip] removes is a run of the class at the end, what
    [lstrip] removes a run at the start. *)
Lemma rstrip_by_split (p : ascii -> bool) (s : string) :
  exists u,
    s = (Py.rstrip_by p s ++ u)%string
    /\ forallb p (list_ascii_of_string u) = true.
Proof.
  induction s as [|a s (u & IH & Hu)]; simpl; [exists ""; auto|].
  destruct (Py.rstrip_by p s) as [|b r] eqn:E.
  - destruct (p a) eqn:Ea.
    + exists (String a s). split; [reflexivity|].
      simpl in IH. subst u. simpl. now rewrite Ea, Hu.
    + exists u. simpl in IH. subst u. split; [reflexivity | exact Hu].
  - exists u. simpl. split; [f_equal; exact IH | exact Hu].
Qed.


Lemma lstrip_by_app (p : ascii -> bool) (r u : string) :
  Py.lstrip_by p r <> "" ->
  Py.lstrip_by p (r ++ u) = (Py.lstrip_by p r ++ u)%string.
Proof.
  induction r as [|a r IH]; simpl; [congruence|].
  destruct (p a); [exact IH | reflexivity].
Qed.

(** The first two characters of a stripped text are the first two after
    the leading whitespace. *)
Lemma strip_begins (x : string) (c a : ascii) (t : string) :
  Py.strip x = String c (String a t) ->
  exists t', Py.lstrip x = String c (String a t').
Proof.
  unfold Py.strip, Py.lstrip, Py.rstrip. intros H.
  destruct (rstrip_by_split Py.is_space x) as (u & Hu & _).
  assert (E : Py.lstrip_by Py.is_space x
              = Py.lstrip_by Py.is_space (Py.rstrip_by Py.is_space x ++ u))
    by (f_equal; exact Hu).
  rewrite E, lstrip_by_app, H by (rewrite H; discriminate).
  simpl. eauto.
Qed.

Lemma lstrip_by_run (p : ascii -> bool) (w s : string) :
  forallb p (list_ascii_of_string w) = true ->
  Py.lstrip_by p (w ++ s) = Py.lstrip_by p s.
Proof.
  induction w as [|a w IH]; simpl; [reflexivity|].
  intros H. apply andb_prop in H as [Ha Hw]. rewrite Ha. exact (IH Hw).
Qed.

Lemma indent_is_space (a : ascii) : is_indent a = true -> Py.is_space a = true.
Proof.
  unfold is_indent. intros H. apply orb_prop in H as [H|H];
    apply Ascii.eqb_eq in H; subst a; reflexivity.
Qed.

(** Stripping the indentation of a frame removes leading whitespace
    only. *)
Lemma lstrip_strip_indent (l : string) (ind : nat) :
  Py.lstrip (Scanner._strip_indent l ind) = Py.lstrip l.
Proof.
  unfold Scanner._strip_indent. destruct (ind =? 0); [reflexivity|].
  destruct (strip_count_spec ind l 0) as (k & Hk & _ & _ & Ha & _); [lia|].
  rewrite Hk. simpl. rewrite <- (take_drop k l) at 2.
  unfold Py.lstrip. rewrite lstrip_by_run; [reflexivity|].
  exact (forallb_weaken _ _ _ indent_is_space Ha).
Qed.

(** An option line begins, after its whitespace, with a colon and a word
    character. *)
Lemma option_line_begins (f : Scanner.DirectiveFrame) (l : string) :
  is_option_line f l = true ->
  exists a t, Py.lstrip l = String ":" (String a t) /\ Py.is_word a = true.
Proof.
  unfold is_option_line, option_content.
  destruct (Re.re_match Scanner.OPTION_RE _) as [m|] eqn:E; [|discriminate].
  intros _. apply option_re_shape in E. destruct E as (a & t & E & Ha).
  apply strip_begins in E. destruct E as (t' & E).
  rewrite lstrip_strip_indent in E. eauto.
Qed.

(** An opening fence is whitespace, then the fence character twice. *)
Lemma fence_open_begins (x : ascii) (line : string) (m : Re.rmatch) :
  Py.is_space x = false ->
  Re.re_match (Scanner.fence_open_re x) line = Some m ->
  exists t, Py.lstrip line = String x (String x t).
Proof.
  unfold Re.re_match, Re.match_at. intros Hx H.
  destruct (Re.rx (Scanner.fence_open_re x) None line [] Re.accept)
    as [res|] eqn:E; [|discriminate]. clear H.
  change (Re.rx (Re.Rep true 0 (Re.Cls Py.is_space)) None line []
            (fun prev' s' c' =>
               Re.rx (Re.Rep true 3 (Re.Cls (Ascii.eqb x))) prev' s'
                 ((1, Py.take (String.length line - String.length s') line) :: c')
                 (fun prev2 s2 c2 =>
                    Re.rx (Re.seq [Re.chr "{";
                                   Re.Grp 3 (Re.Cat Re.word (Re.star Re.word_dash));
                                   Re.chr "}"; Re.star Re.ws;
                                   Re.Grp 4 (Re.star Re.dot); Re.Eos])
                      prev2 s2
                      ((2, Py.take (String.length s' - String.length s2) s') :: c2)
                      Re.accept))
          = Some res) in E.
  apply rx_rep_cls in E. destruct E as (w & p1 & s1 & -> & Hw & _ & E).
  apply rx_rep_cls in E. destruct E as (w2 & p2 & s2 & -> & Hw2 & Hl & _).
  destruct w2 as [|a [|b t]]; [simpl in Hl; lia | simpl in Hl; lia |].
  simpl in Hw2.
  apply andb_prop in Hw2 as [Ha Hw2]. apply andb_prop in Hw2 as [Hb _].
  apply Ascii.eqb_eq in Ha, Hb. subst a b.
  exists (t ++ s2)%string. unfold Py.lstrip.
  simpl. apply (lstrip_by_prefix Py.is_space w x _ Hw Hx).
Qed.

Lemma option_line_no_opener (f : Scanner.DirectiveFrame) (l : string) :
  is_option_line f l = true -> Scanner.open_match l = None.
Proof.
  intros H. destruct (option_line_begins f l H) as (a & t & E & Ha).
  unfold Scanner.open_match.
  destruct (Re.re_match Scanner.BACKTICK_OPEN_RE l) as [m|] eqn:E1.
  { apply fence_open_begins in E1; [|reflexivity].
    destruct E1 as (t' & E1). rewrite E in E1. discriminate. }
  destruct (Re.re_match Scanner.COLON_OPEN_RE l) as [m|] eqn:E2; [|reflexivity].
  apply fence_open_begins in E2; [|reflexivity].
  destruct E2 as (t' & E2). rewrite E in E2. injection E2 as -> _.
  discriminate Ha.
Qed.

Lemma option_line_no_closer (f g : Scanner.DirectiveFrame) (l : string) :
  is_option_line f l = true -> closes g l = false.
Proof.
  intros H. destruct (option_line_begins f l H) as (a & t & E & Ha).
  destruct (closes g l) eqn:Ec; [|reflexivity].
  unfold closes in Ec. apply is_close_fence_spec in Ec as (_ & Hall & _).
  rewrite E in Hall. cbn [Py.all_char] in Hall.
  apply andb_prop in Hall as [H1 Hall]. apply andb_prop in Hall as [H2 _].
  apply Ascii.eqb_eq in H1, H2. subst a. rewrite <- H1 in Ha. discriminate Ha.
Qed.

Lemma recorded_same_fence (f g : Scanner.DirectiveFrame) (lines : list string)
  (d : Py.dict) :
  Scanner.indent g = Scanner.indent f -> recorded g lines d = recorded f lines d.
Proof.
  intros Hi. revert d.
  induction lines as [|l lines IH]; intros d; cbn [recorded]; [reflexivity|].
  unfold option_content. rewrite Hi.
  destruct (Re.re_match Scanner.OPTION_RE _) as [m|]; [|apply IH].
  destruct (Re.group m 1); [|apply IH].
  destruct (Re.group m 2); apply IH.
Qed.

Section Options.

Variable transform_fn : Scanner.DirectiveFrame -> list string.
Variable inline_fn : option (string -> result string).

(** In options mode, the option lines are recorded one after the other
    in the frame on top of the stack, and the mode stays. *)
Lemma scan_option_lines (opts : list string) :
  forall st f below,
    Scanner.stack st = f :: below ->
    Scanner.in_options st = true ->
    Forall (fun l => is_option_line f l = true) opts ->
    Scanner.scan_lines transform_fn inline_fn st opts
    = Ok (Scanner.with_stack st
            (Scanner.with_options f (recorded f opts (Scanner.options f))
             :: below)).
Proof.
  induction opts as [|l opts IH]; intros st f below Hst Hopt Hall.
  - simpl. destruct st, f. simpl in *. subst. reflexivity.
  - inversion Hall as [|? ? Hl Hrest]; subst.
    cbn [Scanner.scan_lines].
    rewrite (scan_line_inside transform_fn inline_fn st f below l Hst
               (option_line_no_opener f l Hl) (option_line_no_closer f f l Hl)).
    unfold Scanner.inside_directive. rewrite Hopt.
    cbn [recorded]. unfold is_option_line in Hl.
    fold (option_content f l).
    destruct (Re.re_match Scanner.OPTION_RE (option_content f l)) as [m|] eqn:E;
      [|discriminate].
    pose proof E as E'. unfold Re.re_match in E'.
    destruct (group_present _ _ _ _ 0 E' eq_refl) as (key & Hk).
    destruct (group_present _ _ _ _ 1 E' eq_refl) as (val & Hv).
    rewrite Hk, Hv. unfold Re.group_str in Hk, Hv.
    destruct (Re.group m 1) as [k1|]; [|discriminate].
    destruct (Re.group m 2) as [v1|]; [|discriminate].
    injection Hk as ->. injection Hv as ->.
    cbn [bind].
    rewrite (IH _ (Scanner.with_options f
                     (Py.set (Scanner.options f) key (Py.strip val))) below).
    + cbn. rewrite (recorded_same_fence f _ opts); reflexivity.
    + reflexivity.
    + exact Hopt.
    + eapply Forall_impl; [|exact Hrest]. intros x Hx. exact Hx.
Qed.

End Options.

Lemma flat_first (p : ascii -> bool) (ws : list string) (a : ascii)
  (t : string) :
  Forall (Re.lang (Re.Cls p)) ws -> Re.flat ws = String a t -> p a = true.
Proof.
  intros H. destruct H as [|w ws (b & -> & Hb) _]; simpl; [discriminate|].
  intros E. injection E as <- _. exact Hb.
Qed.

(** The frame of an opening fence has a backtick or a colon as its fence
    character, and no option and no body line yet. *)
Lemma open_frame_fresh (opener : string) (m : Re.rmatch)
  (F : Scanner.DirectiveFrame) :
  Scanner.open_match opener = Some m ->
  Scanner.open_frame m = Ok F ->
  Py.mem (Scanner.fence_char F) "`:" = true
  /\ Scanner.options F = [] /\ Scanner.body_lines F = [].
Proof.
  unfold Scanner.open_match, Re.re_match.
  assert (H : forall c,
            Re.match_at (Scanner.fence_open_re c) None opener = Some m ->
            Scanner.open_frame m = Ok F ->
            Scanner.fence_char F = c
            /\ Scanner.options F = [] /\ Scanner.body_lines F = []).
  { intros c Hm HF. unfold Scanner.open_frame in HF.
    destruct (group_lang _ _ _ _ 1 (Re.at_least 3 (Re.chr c)) Hm)
      as (v & Hv & ws & -> & Hws); [simpl; tauto|].
    bind_inv HF. bind_inv HF. bind_inv HF. bind_inv HF. bind_inv HF.
    ok_inv HF. simpl. repeat split.
    unfold Re.group_str in Ha0. rewrite Hv in Ha0. injection Ha0 as <-.
    destruct (Re.flat ws) as [|b t] eqn:E; [discriminate|].
    simpl in Ha3. injection Ha3 as <-.
    apply (flat_first _ _ _ _ Hws) in E. apply Ascii.eqb_eq in E. now subst. }
  destruct (Re.match_at Scanner.BACKTICK_OPEN_RE None opener) eqn:E.
  - intros Hm HF. injection Hm as ->.
    destruct (H _ E HF) as (-> & Ho & Hb). auto.
  - intros Hm HF. destruct (H _ Hm HF) as (-> & Ho & Hb). auto.
Qed.

(** The closing fence of a frame whose fence character is no brace is no
    opening fence. *)
Lemma closer_no_opener (f : Scanner.DirectiveFrame) (l : string) :
  Scanner.fence_char f <> "{"%char -> closes f l = true ->
  Scanner.open_match l = None.
Proof.
  intros Hc H. unfold closes in H.
  apply is_close_fence_spec in H as (_ & Hall & _).
  apply open_match_without_brace.
  apply (mem_of_lstrip_by _ Py.is_space); [reflexivity|].
  apply (all_char_mem (Scanner.fence_char f)); [exact Hall|].
  intros E. apply Hc. now rewrite E.
Qed.

Section OptionsSection.

Variable transform_fn : Scanner.DirectiveFrame -> list string.
Variable inline_fn : option (string -> result string).

(** The opening fence pushes its frame and enters options mode. *)
Lemma scan_line_opens (st : Scanner.state) (opener : string) (m : Re.rmatch)
  (F : Scanner.DirectiveFrame) :
  Scanner.in_regular_code_fence st = false ->
  Scanner.open_match opener = Some m ->
  Scanner.open_frame m = Ok F ->
  Scanner.scan_line transform_fn inline_fn st opener = Ok (pushed st F true).
Proof.
  intros Hreg Hm HF. unfold Scanner.scan_line. rewrite Hm, Hreg, HF.
  reflexivity.
Qed.

(** In options mode, the first line that is no option ends the mode: a
    blank one is dropped, another one is the first body line. *)
Lemma scan_line_ends_options (st : Scanner.state)
  (f : Scanner.DirectiveFrame) (stop : string) :
  is_option_line f stop = false -> inner_line f stop ->
  Scanner.scan_line transform_fn inline_fn (pushed st f true) stop
  = Ok (pushed st
          (Scanner.with_body_lines f (Scanner.body_lines f ++ kept f stop []))
          false).
Proof.
  intros Hno [Hopen Hclose].
  rewrite (scan_line_inside transform_fn inline_fn (pushed st f true) f
             (Scanner.stack st) stop eq_refl Hopen Hclose).
  unfold Scanner.inside_directive. cbn [pushed Scanner.in_options
    Scanner.with_in_options Scanner.with_stack].
  unfold is_option_line in Hno. unfold kept.
  fold (option_content f stop).
  destruct (Re.re_match Scanner.OPTION_RE (option_content f stop));
    [discriminate|].
  destruct (Py.is_empty (option_content f stop)).
  - cbn. rewrite app_nil_r. destruct f; reflexivity.
  - reflexivity.
Qed.

End OptionsSection.

(** After the option [:name: x] and a blank line, the line [:width: 5] is
    a body line of the frame, not an option: the frame has no [width]
    option, and the figure's caption is that line. *)
Lemma option_after_blank_line_is_body :
  Scanner.scan_lines MystToQuarto.transform_directive
    (Some MystToQuarto.transform_inline) Scanner.init
    ["```{figure} a.png"; ":name: x"; ""; ":width: 5"]
  = Ok (Scanner.mkState
          [Scanner.mkFrame "figure" "`" 3 "a.png" [("name", "x")]
                           [":width: 5"] 0]
          [] false false None 0 0)
  /\ Py.get [("name", "x")] "width" = None
  /\ MystToQuarto.convert_myst_to_quarto
       (text ["```{figure} a.png"; ":name: x"; ""; ":width: 5"; "```"])
     = Ok "![:width: 5](a.png){#x}".
Proof. repeat split; vm_compute; reflexivity. Qed.

(** C5, as the code has it: the opening fence of a directive pushes
    its frame in options mode; the lines that follow it and match the
    option pattern are recorded, in their order, as the options of the
    frame, each key with its stripped value, and nothing else changes.
    The options section ends with the next line.  The closing fence
    hands the frame with these options to the transform; an opening
    fence pushes a nested frame, which the options mode then belongs to;
    any other line that does not match the pattern ends the mode, a
    blank one being dropped and another one becoming the first body
    line.  Every later line up to the closing fence that is no opening
    fence, also one that matches the option pattern, is a body line, and
    the frame handed to the transform has the options recorded before
    the end of the section only. *)
Theorem options_end_at_first_non_option_line
  (transform_fn : Scanner.DirectiveFrame -> list string)
  (inline_fn : option (string -> result string))
  (st : Scanner.state) (opener : string) (m : Re.rmatch)
  (F : Scanner.DirectiveFrame) (opts : list string) (stop : string)
  (body : list string) (closer : string) :
  Scanner.in_regular_code_fence st = false ->
  Scanner.open_match opener = Some m ->
  Scanner.open_frame m = Ok F ->
  Forall (fun l => is_option_line F l = true) opts ->
  is_option_line F stop = false ->
  inner_line F stop ->
  Forall (inner_line F) body ->
  closes F closer = true ->
  Scanner.scan_lines transform_fn inline_fn st (opener :: opts)
  = Ok (pushed st (Scanner.with_options F (recorded F opts [])) true)
  /\ Scanner.scan_lines transform_fn inline_fn st (opener :: opts ++ [closer])
     = Ok (Scanner.close_top transform_fn st
             (Scanner.with_options F (recorded F opts [])) (Scanner.stack st))
  /\ (forall nested m' G,
        Scanner.open_match nested = Some m' ->
        Scanner.open_frame m' = Ok G ->
        Scanner.scan_lines transform_fn inline_fn st
          (opener :: opts ++ [nested])
        = Ok (pushed
                (pushed st (Scanner.with_options F (recorded F opts [])) true)
                G true))
  /\ Scanner.scan_lines transform_fn inline_fn st
       (opener :: opts ++ stop :: body)
     = Ok (pushed st
             (Scanner.with_body_lines
                (Scanner.with_options F (recorded F opts []))
                (kept F stop body))
             false)
  /\ Scanner.scan_lines transform_fn inline_fn st
       (opener :: opts ++ stop :: body ++ [closer])
     = Ok (Scanner.close_top transform_fn st
             (Scanner.with_body_lines
                (Scanner.with_options F (recorded F opts []))
                (kept F stop body))
             (Scanner.stack st)).
Proof.
  intros Hreg Hm HF Hopts Hstop Hinner Hbody Hcloser.
  destruct (open_frame_fresh opener m F Hm HF) as (Hc & Ho & Hb).
  set (Fo := Scanner.with_options F (recorded F opts [])).
  set (Fb := Scanner.with_body_lines Fo (kept F stop body)).
  assert (Hbrace : Scanner.fence_char F <> "{"%char).
  { intros E. rewrite E in Hc. discriminate Hc. }
  assert (Hnop : Scanner.open_match closer = None)
    by exact (closer_no_opener F closer Hbrace Hcloser).
  assert (H1 : Scanner.scan_lines transform_fn inline_fn st (opener :: opts)
               = Ok (pushed st Fo true)).
  { cbn [Scanner.scan_lines].
    rewrite (scan_line_opens transform_fn inline_fn st opener m F Hreg Hm HF).
    cbn [bind].
    rewrite (scan_option_lines transform_fn inline_fn opts (pushed st F true)
               F (Scanner.stack st) eq_refl eq_refl Hopts).
    rewrite Ho. reflexivity. }
  assert (H2 : Scanner.scan_lines transform_fn inline_fn (pushed st Fo true)
                 (stop :: body)
               = Ok (pushed st Fb false)).
  { cbn [Scanner.scan_lines].
    rewrite (scan_line_ends_options transform_fn inline_fn st Fo stop).
    - cbn [bind].
      rewrite (scan_lines_body transform_fn inline_fn body
                 (pushed st
                    (Scanner.with_body_lines Fo
                       (Scanner.body_lines Fo ++ kept Fo stop []))
                    false)
                 (Scanner.with_body_lines Fo
                    (Scanner.body_lines Fo ++ kept Fo stop []))
                 (Scanner.stack st) eq_refl eq_refl).
      + unfold Fb, kept, Fo, option_content. cbn. rewrite Hb, app_nil_r.
        reflexivity.
      + eapply Forall_impl; [|exact Hbody].
        intros x [Hx1 Hx2]. split; [exact Hx1|].
        rewrite <- Hx2. apply closes_same_fence. repeat split.
    - exact Hstop.
    - destruct Hinner as [Hi1 Hi2]. split; [exact Hi1|].
      rewrite <- Hi2. apply closes_same_fence. repeat split. }
  split; [exact H1|]. split; [|split; [|split]].
  - change (opener :: opts ++ [closer]) with ((opener :: opts) ++ [closer]).
    rewrite (scan_lines_app transform_fn inline_fn _ [closer] st _ H1).
    cbn [Scanner.scan_lines].
    rewrite (scan_line_close transform_fn inline_fn (pushed st Fo true) Fo
               (Scanner.stack st) closer eq_refl Hnop).
    + reflexivity.
    + fold (closes Fo closer). rewrite <- Hcloser.
      apply closes_same_fence. repeat split.
  - intros nested m' G Hm' HG.
    change (opener :: opts ++ [nested]) with ((opener :: opts) ++ [nested]).
    rewrite (scan_lines_app transform_fn inline_fn _ [nested] st _ H1).
    cbn [Scanner.scan_lines].
    rewrite (scan_line_opens transform_fn inline_fn (pushed st Fo true)
               nested m' G Hreg Hm' HG).
    reflexivity.
  - change (opener :: opts ++ stop :: body)
      with ((opener :: opts) ++ stop :: body).
    rewrite (scan_lines_app transform_fn inline_fn _ (stop :: body) st _ H1).
    exact H2.
  - change (opener :: opts ++ stop :: body ++ [closer])
      with ((opener :: opts) ++ (stop :: body) ++ [closer]).
    rewrite (scan_lines_app transform_fn inline_fn _ _ st _ H1).
    rewrite (scan_lines_app transform_fn inline_fn _ [closer] _ _ H2).
    cbn [Scanner.scan_lines].
    rewrite (scan_line_close transform_fn inline_fn (pushed st Fb false) Fb
               (Scanner.stack st) closer eq_refl Hnop).
    + reflexivity.
    + fold (closes Fb closer). rewrite <- Hcloser.
      apply closes_same_fence. repeat split.
Qed.

(** A note with two options, a blank line, and a body whose first line
    has the form of an option. *)
Lemma options_end_at_first_non_option_line_witness :
  Scanner.scan_lines MystToQuarto.transform_directive
    (Some MystToQuarto.transform_inline) Scanner.init
    ["```{note}"; ":class: dropdown"; "  :name: n"]
  = Ok (Scanner.mkState
          [Scanner.mkFrame "note" "`" 3 ""
             [("class", "dropdown"); ("name", "n")] [] 0]
          [] true false None 0 0)
  /\ Scanner.scan_lines MystToQuarto.transform_directive
       (Some MystToQuarto.transform_inline) Scanner.init
       ["```{note}"; ":class: dropdown"; "  :name: n"; "";
        ":width: 5"; "Text"; "```"]
     = Ok (Scanner.mkState []
             ["::: {.callout-note}"; ":width: 5"; "Text"; ":::"]
             false false None 0 0).
Proof.
  destruct (options_end_at_first_non_option_line
              MystToQuarto.transform_directive
              (Some MystToQuarto.transform_inline)
              Scanner.init "```{note}"
              (Re.mkMatch "```{note}" ""
                 [(4, ""); (3, "note"); (2, "```"); (1, "")])
              (Scanner.mkFrame "note" "`" 3 "" [] [] 0)
              [":class: dropdown"; "  :name: n"] ""
              [":width: 5"; "Text"] "```"
              eq_refl eq_refl eq_refl)
    as (H1 & _ & _ & _ & H4).
  - repeat constructor.
  - reflexivity.
  - split; reflexivity.
  - repeat constructor.
  - reflexivity.
  - split; [exact H1 | exact H4].
Defined.

(** ** Plain code fences, by the form of their lines *)


















Section PlainFenceLines.

Variable transform_fn : Scanner.DirectiveFrame -> list string.
Variable inline_fn : option (string -> result string).


End PlainFenceLines.




(** ** Lines that are no table caption *)

(** A line that is, stripped, a colon, a whitespace character, and more
    reaches the caption test: no block pattern before it in the dispatch
    matches. *)
Lemma colon_space_reaches_table_test (line : string) (rest : list string)
  (st : QuartoToMyst.state) (a : ascii) (t : string) :
  Py.strip line = String ":" (String a t) -> Py.is_space a = true ->
  QuartoToMyst.step line rest st
  = QuartoToMyst.table_or_regular line (Py.strip line) rest st.
Proof.
  intros Hs Ha.
  unfold QuartoToMyst.step, QuartoToMyst.block_or_line. cbv zeta.
  rewrite Hs.
  replace (Re.re_match QuartoToMyst._EXEC_CODE_RE (String ":" (String a t)))
    with (@None Re.rmatch) by (vm_compute; reflexivity).
  replace (Re.re_match QuartoToMyst._CALLOUT_RE (String ":" (String a t)))
    with (@None Re.rmatch)
    by (symmetry; apply fenced_re_none; [apply space_not_colon; exact Ha | lia]).
  replace (Re.re_match QuartoToMyst._TABSET_RE (String ":" (String a t)))
    with (@None Re.rmatch)
    by (symmetry; apply fenced_re_none; [apply space_not_colon; exact Ha | lia]).
  replace (Re.re_match QuartoToMyst._MARGIN_RE (String ":" (String a t)))
    with (@None Re.rmatch)
    by (symmetry; apply fenced_re_none; [apply space_not_colon; exact Ha | lia]).
  replace (Re.re_match QuartoToMyst._IMG_ATTRS_RE (String ":" (String a t)))
    with (@None Re.rmatch) by (vm_compute; reflexivity).
  replace (Re.re_match QuartoToMyst._MATH_OPEN_RE (String ":" (String a t)))
    with (@None Re.rmatch) by (vm_compute; reflexivity).
  reflexivity.
Qed.

Lemma alike_emit (st1 st2 : QuartoToMyst.state) (rest' lines : list string) :
  alike st1 st2 (Ok (rest', QuartoToMyst.emit st1 lines))
    (Ok (rest', QuartoToMyst.emit st2 lines)).
Proof.
  intros r s H. injection H as <- <-. exists lines. eexists.
  split; [reflexivity|]. split; reflexivity.
Qed.

Lemma alike_bind (A : Type) (st1 st2 : QuartoToMyst.state) (m : result A)
  (k1 k2 : A -> result (list string * QuartoToMyst.state)) :
  (forall a, alike st1 st2 (k1 a) (k2 a)) ->
  alike st1 st2 (bind m k1) (bind m k2).
Proof.
  intros H r s Hb. apply bind_Ok in Hb. destruct Hb as (a & -> & Hb).
  exact (H a r s Hb).
Qed.

Lemma alike_colon_block (m : Re.rmatch) (rest : list string)
  (build : list string -> result (list string))
  (st1 st2 : QuartoToMyst.state) :
  alike st1 st2 (QuartoToMyst.colon_block m rest build st1)
    (QuartoToMyst.colon_block m rest build st2).
Proof.
  unfold QuartoToMyst.colon_block.
  repeat (apply alike_bind; intros ?). apply alike_emit.
Qed.

(** What a line that is no table caption adds to the output, and the
    input it leaves, are the same in every state. *)
Lemma uncaptioned_line_alike (line : string) (rest : list string)
  (st1 st2 : QuartoToMyst.state) :
  Re.re_match QuartoToMyst._TABLE_CAPTION_RE (Py.strip line) = None ->
  alike st1 st2 (QuartoToMyst.step line rest st1)
    (QuartoToMyst.step line rest st2).
Proof.
  intros Hno.
  assert (Htab : alike st1 st2
            (QuartoToMyst.table_or_regular line (Py.strip line) rest st1)
            (QuartoToMyst.table_or_regular line (Py.strip line) rest st2)).
  { unfold QuartoToMyst.table_or_regular. rewrite Hno.
    destruct (Re.re_match QuartoToMyst._TABLE_ROW_RE (Py.strip line)).
    - intros r' s' H. injection H as <- <-. exists [line]. eexists.
      split; [reflexivity|]. split; reflexivity.
    - cbv zeta. apply alike_bind. intros l r' s' H. injection H as <- <-.
      exists [l]. eexists. split; [|split; [reflexivity|]].
      + destruct (_ && _); reflexivity.
      + destruct (_ && _); reflexivity. }
  assert (Hblock : alike st1 st2
            (QuartoToMyst.block_or_line line (Py.strip line) rest st1)
            (QuartoToMyst.block_or_line line (Py.strip line) rest st2)).
  { unfold QuartoToMyst.block_or_line.
    destruct (Re.re_match QuartoToMyst._CALLOUT_RE _).
    { apply alike_bind. intros ?. apply alike_colon_block. }
    destruct (Re.re_match QuartoToMyst._TABSET_RE _);
      [apply alike_colon_block|].
    destruct (Re.re_match QuartoToMyst._MARGIN_RE _);
      [apply alike_colon_block|].
    destruct (Re.re_match QuartoToMyst._IMG_ATTRS_RE _).
    { repeat (apply alike_bind; intros ?).
      destruct (Py.get _ "id") as [id|].
      - destruct (Py.startswith id "fig-"); apply alike_emit.
      - match goal with
        | |- alike _ _ (match ?x with _ => _ end) _ => destruct x
        end; [|apply alike_emit].
        apply alike_bind. intros ?. apply alike_emit. }
    destruct (Re.re_match QuartoToMyst._MATH_OPEN_RE _); [|exact Htab].
    apply alike_bind. intros [[body label] after].
    destruct (negb (Py.is_empty label)); apply alike_emit. }
  unfold QuartoToMyst.step. cbv zeta.
  destruct (Re.re_match QuartoToMyst._EXEC_CODE_RE _); [|exact Hblock].
  repeat (apply alike_bind; intros ?).
  match goal with
  | |- alike _ _ (if ?b then _ else _) _ => destruct b
  end; [|exact Hblock].
  repeat (apply alike_bind; intros ?). apply alike_emit.
Qed.

(** A caption with an id that lacks the table prefix, and a caption
    without an id, leave the row as it was emitted and are copied
    through: the output has no table directive. *)
Lemma caption_without_table_id_does_not_wrap :
  (QuartoToMyst.convert_quarto_to_myst (text ["| a |"; ": Cap {#foo}"])
   = Ok (text ["| a |"; ": Cap {#foo}"])
   /\ ~ In "```{table} Cap"
          (Py.split Py.newline (text ["| a |"; ": Cap {#foo}"])))
  /\ (QuartoToMyst.convert_quarto_to_myst (text ["| a |"; ": Cap"])
      = Ok (text ["| a |"; ": Cap"])
      /\ ~ In "```{table} Cap" (Py.split Py.newline (text ["| a |"; ": Cap"]))).
Proof.
  split; split; try (vm_compute; reflexivity);
    vm_compute; intros [H|[H|[]]]; discriminate H.
Qed.

(** C8, as the code has it: while table rows are buffered, a line that
    matches the caption pattern has a caption and an id with the table
    prefix, and replaces the last lines of the output, as many as rows
    are buffered, by the table directive with the caption, the id as
    name option, and the buffered rows.  A line of the form of a caption
    (a colon, whitespace, and more) that does not match the pattern is an
    ordinary line: it is appended to the output after the inline
    rewriter, the lines before it stay, and the row buffer is given up.
    Whatever line does not match the pattern adds to the output, and
    leaves of the input, the same in every state, with rows buffered or
    without: it wraps no rows and retracts no line. *)
Theorem caption_with_table_id_wraps_rows
  (line : string) (rest : list string) (st : QuartoToMyst.state) :
  (forall m out tail,
      QuartoToMyst.in_table st = true ->
      QuartoToMyst.output_lines st = out ++ tail ->
      length tail = length (QuartoToMyst.table_lines_buffer st) ->
      Re.re_match QuartoToMyst._TABLE_CAPTION_RE (Py.strip line) = Some m ->
      exists caption name,
        Re.group m 1 = Some caption /\ Re.group m 2 = Some name
        /\ Py.startswith name "tbl-" = true
        /\ QuartoToMyst.step line rest st
           = Ok (rest,
                 QuartoToMyst.mkState
                   (out ++ [String.append "```{table} " (Py.strip caption);
                            String.append ":name: " name; ""]
                        ++ QuartoToMyst.table_lines_buffer st ++ ["```"])
                   [] false))
  /\ (forall a t,
        Re.re_match QuartoToMyst._TABLE_CAPTION_RE (Py.strip line) = None ->
        Py.strip line = String ":" (String a t) ->
        Py.is_space a = true ->
        exists l,
          QuartoToMyst.transform_quarto_inline line = Ok l
          /\ QuartoToMyst.step line rest st
             = Ok (rest,
                   QuartoToMyst.mkState
                     (QuartoToMyst.output_lines st ++ [l])
                     (if QuartoToMyst.in_table st then []
                      else QuartoToMyst.table_lines_buffer st)
                     false))
  /\ (forall st2 rest' st',
        Re.re_match QuartoToMyst._TABLE_CAPTION_RE (Py.strip line) = None ->
        QuartoToMyst.step line rest st = Ok (rest', st') ->
        exists added st2',
          QuartoToMyst.output_lines st'
          = QuartoToMyst.output_lines st ++ added
          /\ QuartoToMyst.step line rest st2 = Ok (rest', st2')
          /\ QuartoToMyst.output_lines st2'
             = QuartoToMyst.output_lines st2 ++ added).
Proof.
  split; [|split].
  - intros m out tail Hin Hout Hlen Hm.
    destruct (caption_shape _ _ Hm) as (a & t & Hs & Ha).
    rewrite (colon_space_reaches_table_test line rest st a t Hs Ha).
    unfold QuartoToMyst.table_or_regular. rewrite Hm, Hin.
    pose proof Hm as Hm'. unfold Re.re_match in Hm'.
    destruct (group_present _ _ _ _ 0 Hm' eq_refl) as (caption & Hc).
    destruct (group_lang _ _ _ _ 1
                (Re.Cat (Re.lit "tbl-") (Re.plus Re.word_dash)) Hm')
      as (name & Hn & w1 & w2 & -> & Hw1 & _); [simpl; tauto|].
    apply lang_lit in Hw1. subst w1.
    exists caption, (String.append "tbl-" w2).
    assert (Hg : Re.group m 1 = Some caption).
    { unfold Re.group_str in Hc.
      destruct (Re.group m 1); [congruence | discriminate]. }
    split; [exact Hg|]. split; [exact Hn|].
    split; [unfold Py.startswith; simpl; destruct w2; reflexivity|].
    unfold Re.group_str. rewrite Hg, Hn. simpl bind.
    rewrite Hout, <- Hlen, pop_n_app. reflexivity.
  - intros a t Hno Hs Ha.
    destruct (transform_quarto_inline_ok line) as (l & Hl).
    exists l. split; [exact Hl|].
    rewrite (colon_space_reaches_table_test line rest st a t Hs Ha).
    unfold QuartoToMyst.table_or_regular. rewrite Hno, Hs.
    replace (Re.re_match QuartoToMyst._TABLE_ROW_RE (String ":" (String a t)))
      with (@None Re.rmatch) by (vm_compute; reflexivity).
    cbv zeta. rewrite Hl. cbn [bind Py.is_empty negb].
    rewrite andb_true_r.
    destruct st as [out buf [|]]; reflexivity.
  - intros st2 rest' st' Hno Hstep.
    destruct (uncaptioned_line_alike line rest st st2 Hno rest' st' Hstep)
      as (added & s2 & H1 & H2 & H3).
    exists added, s2. auto.
Qed.

(** One buffered row and its caption; one buffered row and a caption
    whose id lacks the table prefix. *)
Lemma caption_with_table_id_wraps_rows_witness :
  (exists caption name,
     Re.group (Re.mkMatch ": Cap {#tbl-x}" "" [(2, "tbl-x"); (1, "Cap")]) 1
     = Some caption
     /\ Re.group (Re.mkMatch ": Cap {#tbl-x}" "" [(2, "tbl-x"); (1, "Cap")]) 2
        = Some name
     /\ Py.startswith name "tbl-" = true
     /\ QuartoToMyst.step ": Cap {#tbl-x}" []
          (QuartoToMyst.mkState ["before"; "| a |"] ["| a |"] true)
        = Ok ([],
              QuartoToMyst.mkState
                (["before"] ++ [String.append "```{table} " (Py.strip caption);
                                String.append ":name: " name; ""]
                            ++ ["| a |"] ++ ["```"])
                [] false))
  /\ (exists l,
        QuartoToMyst.transform_quarto_inline ": Cap {#foo}" = Ok l
        /\ QuartoToMyst.step ": Cap {#foo}" []
             (QuartoToMyst.mkState ["before"; "| a |"] ["| a |"] true)
           = Ok ([],
                 QuartoToMyst.mkState (["before"; "| a |"] ++ [l]) [] false)).
Proof.
  split.
  - destruct (caption_with_table_id_wraps_rows ": Cap {#tbl-x}" []
                (QuartoToMyst.mkState ["before"; "| a |"] ["| a |"] true))
      as [Hwrap _].
    apply (Hwrap (Re.mkMatch ": Cap {#tbl-x}" "" [(2, "tbl-x"); (1, "Cap")])
                 ["before"] ["| a |"]);
      vm_compute; reflexivity.
  - destruct (caption_with_table_id_wraps_rows ": Cap {#foo}" []
                (QuartoToMyst.mkState ["before"; "| a |"] ["| a |"] true))
      as (_ & Hline & _).
    apply (Hline " "%char "Cap {#foo}"); vm_compute; reflexivity.
Defined.
